(** * The virtual file system of windows9x

    A shallow embedding of the class [VirtualFileSystem], its item types and
    its path resolver (src/lib/filesystem/filesystem.test.ts, lines 285-502,
    the module the rest of the repository imports as lib/filesystem/filesystem)
    and of the default file system (src/unnamed/part_000), with the
    properties the specification states about them.

    The callers of the class are embedded after it: the file system atom
    (src/state/filesystem.tsx), the last visited path and the actions of
    the Save and Open dialogs (src/unnamed/part_014, src/unnamed/part_007),
    the registry (src/unnamed/part_015, src/lib/getRegistryKeys.ts), the
    programs (src/state/programs.tsx) and the list of windows
    (src/state/windowsList.tsx). [JSON.stringify] and [JSON.parse] are
    parameters of the definitions that call them.

    The embedding follows the TypeScript source line by line:
    - strings are [string]; [path.split("/").filter(Boolean)] and
      [parts.join("/")] are the functions [split], [Boolean] and [join];
    - a plain object used as [Record<string, A>] is the list of its own
      properties in the order they were created ([PlainObject]); a property
      read [o[key]] that finds no own property continues in
      [Object.prototype], as it does in JavaScript, on a draft of immer as
      on the object itself ([get]);
    - [Object.values] lists array-index keys first, by ascending value, and
      the other keys in creation order ([Object_values]);
    - [throw new Error(...)] is the constructor [Throw] of [Result], and
      the messages are the template strings of the source;
    - immer's [produce(this, recipe)] runs the recipe on a draft of [this];
      the state of a recipe holds both objects, [this] and the draft, and an
      assignment of the source changes the one it is written on. *)

From Stdlib Require Import String Ascii List Bool NArith ZArith Lia.
From Stdlib Require Import Sorted Permutation.
From Stdlib Require Import DecimalString.
Import ListNotations.
Open Scope string_scope.
Open Scope list_scope.

Set Implicit Arguments.
Set Warnings "-register-all".

(** ** JavaScript strings *)

Module JS.

(** The double-quote character, which the messages of the source put around
    paths and names. *)
Definition dquote : string := String (ascii_of_nat 34) EmptyString.

Definition slash : ascii := "/"%char.

(** [s.split("/")]: the pieces of [s] between slashes; never the empty list. *)
Fixpoint split (s : string) : list string :=
  match s with
  | EmptyString => [EmptyString]
  | String c rest =>
      if Ascii.eqb c slash then EmptyString :: split rest
      else match split rest with
           | [] => [String c EmptyString]
           | piece :: pieces => String c piece :: pieces
           end
  end.

(** [Boolean(s)] on a string: false for the empty string only. *)
Definition Boolean (s : string) : bool :=
  match s with
  | EmptyString => false
  | String _ _ => true
  end.

(** [parts.join("/")]. *)
Definition join (parts : list string) : string := String.concat "/" parts.

(** [parts.pop()]: the last element ([undefined] on the empty array) and the
    array that is left. *)
Definition pop (A : Type) (parts : list A) : option A * list A :=
  match parts with
  | [] => (None, [])
  | p :: ps => (Some (last ps p), removelast parts)
  end.

(** ** JavaScript values (the [any] of [Record<string, any>]) *)

(** Numbers are the integers and NaN; functions and arrays count as
    objects. Only truthiness is ever asked of such a value. *)
Inductive Value : Type :=
| undefined
| null
| boolean (b : bool)
| number (z : Z)
| NaN
| str (s : string)
| object (props : list (string * Value)).

(** ToBoolean. *)
Definition truthy (v : Value) : bool :=
  match v with
  | undefined | null | NaN => false
  | boolean b => b
  | number z => negb (Z.eqb z 0)
  | str s => Boolean s
  | object _ => true
  end.

(** ** Plain objects used as records *)

(** The own properties of an object, oldest first. *)
Definition PlainObject (A : Type) : Type := list (string * A).

(** The property names every plain object inherits from [Object.prototype]. *)
Definition ObjectPrototype : list string :=
  [ "constructor"; "__defineGetter__"; "__defineSetter__"; "hasOwnProperty";
    "__lookupGetter__"; "__lookupSetter__"; "isPrototypeOf";
    "propertyIsEnumerable"; "toString"; "valueOf"; "__proto__";
    "toLocaleString" ].

Definition inherited (key : string) : bool :=
  existsb (String.eqb key) ObjectPrototype.

(** What a property read [o[key]] evaluates to. *)
Inductive Property (A : Type) : Type :=
| Own (a : A)        (* an own property: a value of the record's type *)
| Inherited          (* a member of Object.prototype: a function, or the
                        prototype itself for __proto__ *)
| Undefined.         (* undefined *)
Arguments Inherited {A}.
Arguments Undefined {A}.

(** The own property [key] of [o], if there is one. *)
Fixpoint own (A : Type) (o : PlainObject A) (key : string) : option A :=
  match o with
  | [] => None
  | (k, a) :: rest => if String.eqb k key then Some a else own rest key
  end.

(** [o[key]]. *)
Definition get (A : Type) (o : PlainObject A) (key : string) : Property A :=
  match own o key with
  | Some a => Own a
  | None => if inherited key then Inherited else Undefined
  end.

(** The condition of [if (o[key])]: an inherited member is a function or an
    object, which is truthy. *)
Definition truthy_property (p : Property Value) : bool :=
  match p with
  | Own v => truthy v
  | Inherited => true
  | Undefined => false
  end.

(** [o[key] = a], for a key that [Object.prototype] does not define (the
    source assigns only after [o[key]] was read as falsy): an own property
    keeps its place, a new one becomes the youngest. *)
Fixpoint set (A : Type) (o : PlainObject A) (key : string) (a : A) : PlainObject A :=
  match o with
  | [] => [(key, a)]
  | (k, b) :: rest =>
      if String.eqb k key then (k, a) :: rest else (k, b) :: set rest key a
  end.

(** [delete o[key]]. *)
Definition delete (A : Type) (o : PlainObject A) (key : string) : PlainObject A :=
  filter (fun kv => negb (String.eqb (fst kv) key)) o.

(** *** Property order *)

Definition digit (c : ascii) : option N :=
  let n := N_of_ascii c in
  if (N.leb 48 n && N.leb n 57)%bool then Some (n - 48)%N else None.

Fixpoint digits (s : string) (acc : N) : option N :=
  match s with
  | EmptyString => Some acc
  | String c rest =>
      match digit c with
      | Some d => digits rest (10 * acc + d)%N
      | None => None
      end
  end.

(** An array index is the canonical decimal form of an integer from 0 to
    2^32 - 2: no sign, no leading zero. *)
Definition array_index (key : string) : option N :=
  match key with
  | EmptyString => None
  | String c rest =>
      if (Ascii.eqb c "0" && Boolean rest)%bool then None
      else match digits key 0 with
           | Some n => if N.ltb n 4294967295 then Some n else None
           | None => None
           end
  end.

(** The integer-keyed properties, by ascending index. *)
Fixpoint insert_by_index (A : Type) (i : N) (e : string * A)
    (sorted : list (N * (string * A))) : list (N * (string * A)) :=
  match sorted with
  | [] => [(i, e)]
  | (j, f) :: rest =>
      if N.leb j i then (j, f) :: insert_by_index i e rest
      else (i, e) :: sorted
  end.

Fixpoint index_entries (A : Type) (o : PlainObject A) : list (N * (string * A)) :=
  match o with
  | [] => []
  | (k, a) :: rest =>
      match array_index k with
      | Some i => insert_by_index i (k, a) (index_entries rest)
      | None => index_entries rest
      end
  end.

Definition string_entries (A : Type) (o : PlainObject A) : PlainObject A :=
  filter (fun kv => match array_index (fst kv) with Some _ => false | None => true end) o.

(** [Object.entries(o)], in the order of OrdinaryOwnPropertyKeys. *)
Definition Object_entries (A : Type) (o : PlainObject A) : list (string * A) :=
  map snd (index_entries o) ++ string_entries o.

(** [Object.values(o)]. *)
Definition Object_values (A : Type) (o : PlainObject A) : list A :=
  map snd (Object_entries o).

End JS.

Import JS.

(** ** The item model *)

Definition MetaData : Type := PlainObject Value.

(** [type VirtualFile = { type: "file"; name; content; metaData }]. The
    fields of the two record types carry the type's name in front. *)
Record VirtualFile : Type := {
  file_name : string;
  file_content : string;
  file_metaData : MetaData
}.

(** [type VirtualFolder = { type: "folder"; name; items; metaData }], over
    the type of its items. *)
Record FolderOf (Item : Type) : Type := {
  folder_name : string;
  folder_items : PlainObject Item;
  folder_metaData : MetaData
}.

(** [type VirtualItem = VirtualFile | VirtualFolder]; the constructor is the
    [type] tag. *)
Inductive VirtualItem : Type :=
| file (f : VirtualFile)
| folder (d : FolderOf VirtualItem).

Definition VirtualFolder : Type := FolderOf VirtualItem.

(** [item.name] and [item.metaData], which both variants have. *)
Definition name (i : VirtualItem) : string :=
  match i with
  | file f => file_name f
  | folder d => folder_name d
  end.

Definition metaData (i : VirtualItem) : MetaData :=
  match i with
  | file f => file_metaData f
  | folder d => folder_metaData d
  end.

(** [createVirtualFile(name, content, metaData = {})]. *)
Definition createVirtualFile (name content : string) (metaData : option MetaData)
  : VirtualFile :=
  {| file_name := name;
     file_content := content;
     file_metaData := match metaData with Some m => m | None => [] end |}.

(** [createVirtualFolder(name, metaData = {})]. *)
Definition createVirtualFolder (name : string) (metaData : option MetaData)
  : VirtualFolder :=
  {| folder_name := name;
     folder_items := [];
     folder_metaData := match metaData with Some m => m | None => [] end |}.

(** ** Exceptions *)

Inductive Exception : Type :=
| Error (message : string)   (* throw new Error(message) *)
| TypeError.                 (* a property read on undefined *)

(** The messages of the source, under the names the specification gives to
    the failures. *)
Definition FolderNotFound (path : string) : Exception :=
  Error ("Folder " ++ dquote ++ path ++ dquote ++ " does not exist.").

Definition FileNotFound (path : string) : Exception :=
  Error ("VirtualFile " ++ dquote ++ path ++ dquote ++ " does not exist.").

Definition NotFound (path : string) : Exception :=
  Error (dquote ++ path ++ dquote ++ " does not exist.").

Definition AlreadyExists (name path : string) : Exception :=
  Error ("A file or folder with the name " ++ dquote ++ name ++ dquote
         ++ " already exists in the path " ++ dquote ++ path ++ dquote ++ ".").

Definition SystemProtected (path : string) : Exception :=
  Error (dquote ++ path ++ dquote ++ " is a system file and cannot be deleted.").

Definition InvalidPath (path : string) : Exception :=
  Error ("Invalid path " ++ dquote ++ path ++ dquote ++ ".").

(** What evaluating an expression gives: a value, or an exception thrown. *)
Inductive Result (A : Type) : Type :=
| Return (a : A)
| Throw (e : Exception).
Arguments Throw {A} e.

Definition bind (A B : Type) (r : Result A) (k : A -> Result B) : Result B :=
  match r with
  | Return a => k a
  | Throw e => Throw e
  end.

Declare Scope result_scope.
Delimit Scope result_scope with result.
Notation "x <- r ;; k" := (bind r (fun x => k))
  (at level 61, r at next level, right associativity) : result_scope.

(** ** The class VirtualFileSystem: the resolver and the readers *)

Record VirtualFileSystem : Type := { root : VirtualFolder }.

(** [constructor({ root } = {})] : [this.root = root || createVirtualFolder("")]. *)
Definition new_VirtualFileSystem (root : option VirtualFolder) : VirtualFileSystem :=
  {| root := match root with
             | Some r => r
             | None => createVirtualFolder EmptyString None
             end |}.

(** An object of the tree as the resolver hands it out: JavaScript returns
    the object itself, and a later write through it changes the tree at the
    place the walk reached. [place] is that place, the item names walked
    from the root; [value] is the object as it is at that time. *)
Record Located (A : Type) : Type := { place : list string; value : A }.

Section Resolver.
Local Open Scope result_scope.

(** The loop of [getFolder]; [path] is only kept for the message. *)
Fixpoint getFolder_loop (path : string) (currentFolder : VirtualFolder)
    (parts : list string) : Result VirtualFolder :=
  match parts with
  | [] => Return currentFolder
  | part :: rest =>
      match get (folder_items currentFolder) part with
      | Own (folder nextFolder) => getFolder_loop path nextFolder rest
      | _ => Throw (FolderNotFound path)
      end
  end.

Definition getFolder (this : VirtualFileSystem) (path : string)
  : Result (Located VirtualFolder) :=
  let parts := filter Boolean (split path) in
  currentFolder <- getFolder_loop path (root this) parts ;;
  Return {| place := parts; value := currentFolder |}.

(** [{ parentFolder, name }]; the field [name] is [pname] here, [name] being
    the name of an item. *)
Record ParentFolderAndName : Type := {
  parentFolder : Located VirtualFolder;
  pname : string
}.

Definition getParentFolderAndName (this : VirtualFileSystem) (path : string)
  : Result ParentFolderAndName :=
  let parts := filter Boolean (split path) in
  match pop parts with
  | (None, _) => Throw (InvalidPath path)
  | (Some name, parts) =>
      parentFolder <- getFolder this (join parts) ;;
      Return {| parentFolder := parentFolder; pname := name |}
  end.

(** [parentFolder.items[name]]. *)
Definition item_of (pn : ParentFolderAndName) : Property VirtualItem :=
  get (folder_items (value (parentFolder pn))) (pname pn).

Definition getFile (this : VirtualFileSystem) (path : string)
  : Result (Located VirtualFile) :=
  pn <- getParentFolderAndName this path ;;
  match item_of pn with
  | Own (file f) =>
      Return {| place := place (parentFolder pn) ++ [pname pn]; value := f |}
  | _ => Throw (FileNotFound path)
  end.

Definition readFile (this : VirtualFileSystem) (path : string) : Result string :=
  file <- getFile this path ;;
  Return (file_content (value file)).

(** [listItems(path = "")]. *)
Definition listItems (this : VirtualFileSystem) (path : option string)
  : Result (list VirtualItem) :=
  let path := match path with Some p => p | None => EmptyString end in
  folder <- getFolder this path ;;
  Return (Object_values (folder_items (value folder))).

(** [getItem(path)]: [parentFolder.items[name] ?? null]; in the result
    [Undefined] stands for [null]. *)
Definition getItem (this : VirtualFileSystem) (path : string)
  : Result (Property VirtualItem) :=
  pn <- getParentFolderAndName this path ;;
  Return (item_of pn).

(** [exists(path)]: [getItem(path) !== null], and [false] when [getItem]
    throws. *)
Definition exists_ (this : VirtualFileSystem) (path : string) : bool :=
  match getItem this path with
  | Return Undefined => false
  | Return _ => true
  | Throw _ => false
  end.

Definition toJSON (this : VirtualFileSystem) : VirtualFolder := root this.

Definition fromJSON (data : VirtualFolder) : VirtualFileSystem :=
  new_VirtualFileSystem (Some data).

End Resolver.

(** ** immer's produce *)

(** A method call as its caller sees it: the receiver as the call leaves it,
    and what the call returned or threw. *)
Record Call (A : Type) : Type := { receiver : VirtualFileSystem; outcome : Result A }.

(** The two objects a recipe can reach: [this], which the method closes
    over, and the draft that [produce] hands to the recipe. Assignments are
    state changes, and they outlive an exception. *)
Record Heap : Type := { this_ : VirtualFileSystem; draft : VirtualFileSystem }.

Definition Recipe (A : Type) : Type := Heap -> Result A * Heap.

Definition throw (A : Type) (e : Exception) : Recipe A := fun h => (Throw e, h).
Arguments throw {A} e.

Definition and_then (A B : Type) (r : Recipe A) (k : A -> Recipe B) : Recipe B :=
  fun h =>
    match r h with
    | (Return a, h') => k a h'
    | (Throw e, h') => (Throw e, h')
    end.

Declare Scope recipe_scope.
Delimit Scope recipe_scope with recipe.
Notation "x <- r ;; k" := (and_then r (fun x => k))
  (at level 61, r at next level, right associativity) : recipe_scope.
Notation "r ;; k" := (and_then r (fun _ => k))
  (at level 61, right associativity) : recipe_scope.

(** [draft.method(...)]: a reader method called on the draft. *)
Definition on_draft (A : Type) (method : VirtualFileSystem -> Result A) : Recipe A :=
  fun h => (method (draft h), h).

Definition with_items (d : VirtualFolder) (items : PlainObject VirtualItem)
  : VirtualFolder :=
  {| folder_name := folder_name d;
     folder_items := items;
     folder_metaData := folder_metaData d |}.

(** The tree after a write to the folder at [place]: the folders on the way
    are replaced by their changed copies, each under its old key (immer
    copies a folder with its properties in the order they are listed in).
    The place was resolved in the same draft, so the walk finds a folder
    at every part of it. *)
Fixpoint write_folder (d : VirtualFolder) (place : list string)
    (change : VirtualFolder -> VirtualFolder) : VirtualFolder :=
  match place with
  | [] => change d
  | part :: rest =>
      match own (folder_items d) part with
      | Some (folder sub) =>
          with_items d
            (set (folder_items d) part (folder (write_folder sub rest change)))
      | _ => d
      end
  end.

(** The tree after a write to the file at [place]. *)
Definition write_file (d : VirtualFolder) (place : list string)
    (change : VirtualFile -> VirtualFile) : VirtualFolder :=
  match pop place with
  | (Some key, parent) =>
      write_folder d parent (fun p =>
        match own (folder_items p) key with
        | Some (file f) => with_items p (set (folder_items p) key (file (change f)))
        | _ => p
        end)
  | (None, _) => d
  end.

Definition update_draft (change : VirtualFolder -> VirtualFolder) : Recipe unit :=
  fun h => (Return tt,
            {| this_ := this_ h; draft := {| root := change (root (draft h)) |} |}).

(** [parentFolder.items[name] = item], on a folder of the draft. *)
Definition assign_item (parentFolder : Located VirtualFolder) (name : string)
    (item : VirtualItem) : Recipe unit :=
  update_draft (fun r =>
    write_folder r (place parentFolder)
      (fun p => with_items p (set (folder_items p) name item))).

(** [delete parentFolder.items[name]], on a folder of the draft. *)
Definition delete_item (parentFolder : Located VirtualFolder) (name : string)
  : Recipe unit :=
  update_draft (fun r =>
    write_folder r (place parentFolder)
      (fun p => with_items p (JS.delete (folder_items p) name))).

(** [file.content = content], on a file of the draft. *)
Definition assign_content (file : Located VirtualFile) (content : string)
  : Recipe unit :=
  update_draft (fun r =>
    write_file r (place file) (fun f =>
      {| file_name := file_name f;
         file_content := content;
         file_metaData := file_metaData f |})).

(** [file.metaData = metaData], on a file of the draft. *)
Definition assign_metaData (file : Located VirtualFile) (metaData : MetaData)
  : Recipe unit :=
  update_draft (fun r =>
    write_file r (place file) (fun f =>
      {| file_name := file_name f;
         file_content := file_content f;
         file_metaData := metaData |})).

(** [produce(base, recipe)]: the recipe runs on a draft of [base]; what it
    made of the draft is returned (a draft that was left as it was is
    [base]), and an exception of the recipe is rethrown with the draft
    dropped. *)
Definition produce (base : VirtualFileSystem) (recipe : Recipe unit)
  : Call VirtualFileSystem :=
  let (r, h) := recipe {| this_ := base; draft := base |} in
  {| receiver := this_ h;
     outcome := match r with
                | Return _ => Return (draft h)
                | Throw e => Throw e
                end |}.

(** ** The class VirtualFileSystem: the operations *)

Definition default (A : Type) (d : A) (argument : option A) : A :=
  match argument with
  | Some a => a
  | None => d
  end.

Section Operations.
Local Open Scope recipe_scope.

(** [createFile(path, content = "", metaData = {})]. *)
Definition createFile (this : VirtualFileSystem) (path : string)
    (content : option string) (metaData : option MetaData)
  : Call VirtualFileSystem :=
  let content := default EmptyString content in
  let metaData := default [] metaData in
  produce this (
    pn <- on_draft (fun draft => getParentFolderAndName draft path) ;;
    match item_of pn with
    | Undefined =>
        assign_item (parentFolder pn) (pname pn)
          (file (createVirtualFile (pname pn) content (Some metaData)))
    | _ => throw (AlreadyExists (pname pn) path)
    end).

(** [updateFile(path, content, metaData?)]. *)
Definition updateFile (this : VirtualFileSystem) (path : string)
    (content : string) (metaData : option MetaData)
  : Call VirtualFileSystem :=
  produce this (
    file <- on_draft (fun draft => getFile draft path) ;;
    assign_content file content ;;
    assign_metaData file (default (file_metaData (value file)) metaData)).

(** [delete(path)]. The second test reads [.metaData.isSystem] of whatever
    the first one let through: for an inherited member [.metaData] is
    undefined, and reading [isSystem] of it is a TypeError. *)
Definition delete (this : VirtualFileSystem) (path : string)
  : Call VirtualFileSystem :=
  produce this (
    pn <- on_draft (fun draft => getParentFolderAndName draft path) ;;
    match item_of pn with
    | Undefined => throw (NotFound path)
    | Inherited => throw TypeError
    | Own item =>
        if truthy_property (get (metaData item) "isSystem")
        then throw (SystemProtected path)
        else delete_item (parentFolder pn) (pname pn)
    end).

(** [createFolder(path, metaData = {})]. *)
Definition createFolder (this : VirtualFileSystem) (path : string)
    (metaData : option MetaData) : Call VirtualFileSystem :=
  let metaData := default [] metaData in
  produce this (
    pn <- on_draft (fun draft => getParentFolderAndName draft path) ;;
    match item_of pn with
    | Undefined =>
        assign_item (parentFolder pn) (pname pn)
          (folder (createVirtualFolder (pname pn) (Some metaData)))
    | _ => throw (AlreadyExists (pname pn) path)
    end).

(** [createOrUpdateFile(path, content = "", metaData = {})]:
    [try { return this.updateFile(...) } catch (error) { return this.createFile(...) }]. *)
Definition createOrUpdateFile (this : VirtualFileSystem) (path : string)
    (content : option string) (metaData : option MetaData)
  : Call VirtualFileSystem :=
  let content := default EmptyString content in
  let metaData := default [] metaData in
  let update := updateFile this path content (Some metaData) in
  match outcome update with
  | Return _ => update
  | Throw _ => createFile (receiver update) path (Some content) (Some metaData)
  end.

End Operations.

(** The five operations as values, and a call of one. *)
Inductive Operation : Type :=
| CreateFile (path : string) (content : option string) (metaData : option MetaData)
| CreateFolder (path : string) (metaData : option MetaData)
| UpdateFile (path : string) (content : string) (metaData : option MetaData)
| CreateOrUpdateFile (path : string) (content : option string)
    (metaData : option MetaData)
| Delete (path : string).

Definition invoke (this : VirtualFileSystem) (op : Operation)
  : Call VirtualFileSystem :=
  match op with
  | CreateFile path content metaData => createFile this path content metaData
  | CreateFolder path metaData => createFolder this path metaData
  | UpdateFile path content metaData => updateFile this path content metaData
  | CreateOrUpdateFile path content metaData =>
      createOrUpdateFile this path content metaData
  | Delete path => delete this path
  end.

(** [vfs = vfs.op1(...); vfs = vfs.op2(...); ...]: each operation is called
    on what the one before returned; the first exception ends the run. *)
Fixpoint run (ops : list Operation) (vfs : VirtualFileSystem)
  : Result VirtualFileSystem :=
  match ops with
  | [] => Return vfs
  | op :: rest =>
      match outcome (invoke vfs op) with
      | Return vfs' => run rest vfs'
      | Throw e => Throw e
      end
  end.

(** ** The default file system *)

Definition SYSTEM_PATH := "/system".
Definition PROGRAMS_PATH := "/system/programs".
Definition REGISTRY_PATH := "/system/registry.reg".
Definition USER_PATH := "/user".

Definition metadata : MetaData := [("isSystem", boolean true)].

Definition createDefaultFileSystem : Result VirtualFileSystem :=
  run [ CreateFolder SYSTEM_PATH (Some metadata);
        CreateFolder PROGRAMS_PATH (Some metadata);
        CreateFolder USER_PATH (Some metadata);
        CreateFile REGISTRY_PATH (Some "{}") (Some metadata) ]
      (new_VirtualFileSystem None).

(** [DEFAULT_FILE_SYSTEM = createDefaultFileSystem()]: the four calls
    return, and this is what they return. *)
Definition DEFAULT_FILE_SYSTEM : VirtualFileSystem :=
  Eval vm_compute in
    match createDefaultFileSystem with
    | Return fs => fs
    | Throw _ => new_VirtualFileSystem None
    end.

(** ** The file system atom (src/state/filesystem.tsx) *)

(** What [privateFileSystemAtom] stores: [{ root }]. *)
Record Stored : Type := { stored_root : VirtualFolder }.

(** The value [privateFileSystemAtom] starts with:
    [{ root: DEFAULT_FILE_SYSTEM.toJSON() }]. *)
Definition initial_Stored : Stored :=
  {| stored_root := toJSON DEFAULT_FILE_SYSTEM |}.

(** The read function of [fileSystemAtom]:
    [new VirtualFileSystem({ root: get(privateFileSystemAtom).root })]. *)
Definition fileSystemAtom_read (stored : Stored) : VirtualFileSystem :=
  new_VirtualFileSystem (Some (stored_root stored)).

(** The argument of the write function: a file system, or a function that
    is called with the current one and may throw. *)
Inductive Update : Type :=
| newFileSystem (fs : VirtualFileSystem)
| updateFunction (f : VirtualFileSystem -> Result VirtualFileSystem).

(** The write function of [fileSystemAtom]: what is stored afterwards. An
    exception of the updater leaves the store as it was. *)
Definition fileSystemAtom_write (stored : Stored) (update : Update)
  : Result Stored :=
  (newState <- match update with
               | updateFunction f => f (fileSystemAtom_read stored)
               | newFileSystem fs => Return fs
               end ;;
   Return {| stored_root := toJSON newState |})%result.

(** ** The last visited path (src/unnamed/part_014, src/unnamed/part_007) *)

(** [path.split("/").slice(0, -1).join("/")]. *)
Definition getParentPath (path : string) : string :=
  join (removelast (split path)).

(** [lastVisitedPath && fs.exists(lastVisitedPath) ? lastVisitedPath : undefined],
    the [currentPath] of the Save and of the Open dialog;
    [lastVisitedPath] is the [string | null] of [lastVisitedPathAtom]. *)
Definition currentPath (lastVisitedPath : option string) (fs : VirtualFileSystem)
  : option string :=
  match lastVisitedPath with
  | Some p => if (Boolean p && exists_ fs p)%bool then Some p else None
  | None => None
  end.

(** The two atoms the dialogs read and write. *)
Record Store : Type := {
  fileSystem : Stored;
  lastVisitedPath : option string
}.

(** The [action] of the Save dialog, for the content the program sent:
    [setFileSystem((fs) => fs.createOrUpdateFile(path, content));
     store.set(lastVisitedPathAtom, getParentPath(path))]. *)
Definition save_action (store : Store) (content path : string) : Result Store :=
  (stored <- fileSystemAtom_write (fileSystem store)
               (updateFunction (fun fs =>
                  outcome (createOrUpdateFile fs path (Some content) None))) ;;
   Return {| fileSystem := stored;
             lastVisitedPath := Some (getParentPath path) |})%result.

(** The [action] of the Open dialog: the content posted to the program and
    the store afterwards.
    [const file = fs.readFile(path);
     store.set(lastVisitedPathAtom, getParentPath(path))]. *)
Definition open_action (store : Store) (path : string) : Result (string * Store) :=
  (content <- readFile (fileSystemAtom_read (fileSystem store)) path ;;
   Return (content,
           {| fileSystem := fileSystem store;
              lastVisitedPath := Some (getParentPath path) |}))%result.

(** ** The registry (src/unnamed/part_015, src/lib/getRegistryKeys.ts) *)










Section Registry.

(** [JSON.stringify] on an object and [JSON.parse], which throws on a text
    that is not JSON. *)
Variable JSON_stringify : PlainObject Value -> string.
Variable JSON_parse : string -> Result Value.

(** The read function of [registryAtom]. *)
Definition registryAtom_read (stored : Stored) : Result Value :=
  (registry <- readFile (fileSystemAtom_read stored) REGISTRY_PATH ;;
   JSON_parse registry)%result.

(** The write function of [registryAtom]. *)
Definition registryAtom_write (stored : Stored) (update : PlainObject Value)
  : Result Stored :=
  (registry <- outcome (updateFile (fileSystemAtom_read stored) REGISTRY_PATH
                          (JSON_stringify update) None) ;;
   fileSystemAtom_write stored (newFileSystem registry))%result.

End Registry.

(** ** The programs (src/state/programs.tsx) *)

(** The payload of ADD_PROGRAM: [id], [name], [code] (absent or undefined
    is [None]) and the other properties, which the reducer calls [rest]. *)
Record ProgramPayload : Type := {
  program_id : string;
  program_name : string;
  program_code : option string;
  program_rest : PlainObject Value
}.

(** The payload of UPDATE_PROGRAM, a partial entry with an [id]: whether it
    has a property [code], and with which value (undefined is [None]), and
    the properties other than [id], [name] and [code], which are what is
    left of [rest] after [delete rest.code]. *)
Record ProgramUpdate : Type := {
  update_id : string;
  update_code : option (option string);
  update_rest : PlainObject Value
}.

Inductive ProgramAction : Type :=
| ADD_PROGRAM (payload : ProgramPayload)
| REMOVE_PROGRAM (payload : string)
| UPDATE_PROGRAM (payload : ProgramUpdate).

(** The own enumerable properties that a spread [...v] copies: those of an
    object in property order, the characters of a string under their
    indices, none of a number or a boolean. *)
Fixpoint characters (s : string) (i : N) : list (string * Value) :=
  match s with
  | EmptyString => []
  | String c rest =>
      (NilEmpty.string_of_uint (N.to_uint i), str (String c EmptyString))
      :: characters rest (i + 1)
  end.

Definition spread_of (v : Value) : list (string * Value) :=
  match v with
  | object props => Object_entries props
  | str s => characters s 0
  | _ => []
  end.

(** The properties copied into an object, one after the other. *)
Definition assign (target : PlainObject Value) (source : list (string * Value))
  : PlainObject Value :=
  fold_left (fun o kv => set o (fst kv) (snd kv)) source target.

(** [{ ...existing, ...rest }]. *)
Definition spread (existing : Value) (rest : PlainObject Value)
  : PlainObject Value :=
  assign (assign [] (spread_of existing)) (Object_entries rest).

(** What [getProgramEntry] returns for a program:
    [{ ...config, id: folder.name, name: folder.name, code }], the
    properties of the parsed main.exe with [id], [name] and [code] set
    over them; [code] is [null] ([None]) without index.html. *)
Record ProgramEntry : Type := {
  entry_config : Value;
  entry_id : string;
  entry_name : string;
  entry_code : option string
}.

Section Programs.

Variable JSON_stringify : PlainObject Value -> string.
Variable JSON_parse : string -> Result Value.

(** [getProgramEntry(item)]; [None] is [null]. *)
Definition getProgramEntry (item : VirtualItem) : Result (option ProgramEntry) :=
  match item with
  | file _ => Return None
  | folder d =>
      match get (folder_items d) "main.exe" with
      | Own (file main) =>
          let code :=
            match get (folder_items d) "index.html" with
            | Own (file index) => Some (file_content index)
            | _ => None
            end in
          (config <- JSON_parse (file_content main) ;;
           Return (Some {| entry_config := config;
                           entry_id := folder_name d;
                           entry_name := folder_name d;
                           entry_code := code |}))%result
      | _ => Return None
      end
  end.

(** [programs.map(getProgramEntry).filter(Boolean)]: the entries in the
    order of the items; the first exception ends the map. *)
Fixpoint program_entries (items : list VirtualItem) : Result (list ProgramEntry) :=
  match items with
  | [] => Return []
  | item :: rest =>
      (entry <- getProgramEntry item ;;
       entries <- program_entries rest ;;
       Return match entry with
              | Some e => e :: entries
              | None => entries
              end)%result
  end.

(** The read function of [programsAtom]. *)
Definition programsAtom_read (fs : VirtualFileSystem) : Result (list ProgramEntry) :=
  (programs <- listItems fs (Some PROGRAMS_PATH) ;;
   program_entries programs)%result.

(** [programsReducer(fs, action)]. UPDATE_PROGRAM reads main.exe in [fs],
    the file system before index.html was updated. *)
Definition programsReducer (fs : VirtualFileSystem) (action : ProgramAction)
  : Result VirtualFileSystem :=
  match action with
  | ADD_PROGRAM payload =>
      let path := (PROGRAMS_PATH ++ "/" ++ program_id payload)%string in
      run [ CreateFolder path None;
            CreateFile (path ++ "/main.exe")%string
              (Some (JSON_stringify (program_rest payload))) None;
            CreateFile (path ++ "/index.html")%string
              (Some (default EmptyString (program_code payload))) None ]
          fs
  | REMOVE_PROGRAM payload =>
      outcome (delete fs (PROGRAMS_PATH ++ "/" ++ payload)%string)
  | UPDATE_PROGRAM payload =>
      let path := (PROGRAMS_PATH ++ "/" ++ update_id payload)%string in
      (newFs <- match update_code payload with
                | Some code =>
                    outcome (updateFile fs (path ++ "/index.html")%string
                               (default EmptyString code) None)
                | None => Return fs
                end ;;
       content <- readFile fs (path ++ "/main.exe")%string ;;
       existing <- JSON_parse content ;;
       if truthy existing
       then outcome (updateFile newFs (path ++ "/main.exe")%string
                       (JSON_stringify (spread existing (update_rest payload)))
                       None)
       else Return newFs)%result
  end.

End Programs.

(** ** The list of windows (src/state/windowsList.tsx) *)

Inductive WindowsListAction : Type :=
| ADD (payload : string)
| REMOVE (payload : string).

(** The reducer of [windowsListAtom]. *)
Definition windowsListReducer (state : list string) (action : WindowsListAction)
  : list string :=
  match action with
  | ADD payload => state ++ [payload]
  | REMOVE payload => filter (fun id => negb (String.eqb id payload)) state
  end.

(** * Vocabulary of the properties *)

Unset Implicit Arguments.

(** ** Paths *)

(** The segments of a path, as both resolvers compute them. *)
Definition segments (path : string) : list string := filter Boolean (split path).

(** A name that can stand between two slashes of a path. *)
Fixpoint slash_free (s : string) : bool :=
  match s with
  | EmptyString => true
  | String c rest => negb (Ascii.eqb c slash) && slash_free rest
  end.

Definition segment (s : string) : bool := Boolean s && slash_free s.

(** The folder that walking [parts] from [d] reaches, if every part names a
    folder: the loop of [getFolder] without its message. *)
Fixpoint walk (d : VirtualFolder) (parts : list string) : option VirtualFolder :=
  match parts with
  | [] => Some d
  | part :: rest =>
      match get (folder_items d) part with
      | Own (folder next) => walk next rest
      | _ => None
      end
  end.

(** What the parts of a path lead to: nothing when a folder on the way is
    missing, and otherwise what reading the last part in its parent gives. *)
Fixpoint read (d : VirtualFolder) (parts : list string)
  : option (Property VirtualItem) :=
  match parts with
  | [] => None
  | part :: rest =>
      match rest with
      | [] => Some (get (folder_items d) part)
      | _ =>
          match get (folder_items d) part with
          | Own (folder next) => read next rest
          | _ => None
          end
      end
  end.

(** Two readings that [readFile] and [exists] cannot tell apart: the same
    file, or a folder both times, or nothing both times. *)
Definition same_reading (a b : option (Property VirtualItem)) : Prop :=
  match a, b with
  | Some (Own (file f)), Some (Own (file g)) => f = g
  | Some (Own (folder _)), Some (Own (folder _)) => True
  | Some Inherited, Some Inherited => True
  | Some Undefined, Some Undefined => True
  | None, None => True
  | _, _ => False
  end.

(** The path an operation is called with. *)
Definition path_of (op : Operation) : string :=
  match op with
  | CreateFile path _ _ => path
  | CreateFolder path _ => path
  | UpdateFile path _ _ => path
  | CreateOrUpdateFile path _ _ => path
  | Delete path => path
  end.

(** ** Property order *)

(** An object none of whose keys is an array index. *)
Definition no_array_index (A : Type) (o : PlainObject A) : Prop :=
  Forall (fun kv => array_index (fst kv) = None) o.

Definition has_array_index (A : Type) (kv : string * A) : bool :=
  match array_index (fst kv) with
  | Some _ => true
  | None => false
  end.

(** Ascending array index. *)
Definition by_index (A : Type) (a b : N * (string * A)) : Prop :=
  (fst a <= fst b)%N.

(** ** The drafts the operations return *)

(** The draft after [parentFolder.items[name] = item]. *)
Definition inserted (this : VirtualFileSystem) (pn : ParentFolderAndName)
    (item : VirtualItem) : VirtualFileSystem :=
  {| root := write_folder (root this) (place (parentFolder pn))
               (fun p => with_items p (set (folder_items p) (pname pn) item)) |}.

(** The draft after [delete parentFolder.items[name]]. *)
Definition removed (this : VirtualFileSystem) (pn : ParentFolderAndName)
  : VirtualFileSystem :=
  {| root := write_folder (root this) (place (parentFolder pn))
               (fun p => with_items p (JS.delete (folder_items p) (pname pn))) |}.

(** The draft after the two assignments of [updateFile]. *)
Definition updated (this : VirtualFileSystem) (file : Located VirtualFile)
    (content : string) (metaData : option MetaData) : VirtualFileSystem :=
  {| root :=
       write_file
         (write_file (root this) (place file) (fun f =>
            {| file_name := file_name f;
               file_content := content;
               file_metaData := file_metaData f |}))
         (place file) (fun f =>
            {| file_name := file_name f;
               file_content := file_content f;
               file_metaData := default (file_metaData (value file)) metaData |}) |}.

(** [item.metaData.isSystem], as the condition of an [if]. *)
Definition isSystem (item : VirtualItem) : bool :=
  truthy_property (get (metaData item) "isSystem").

(** ** Children created in a folder *)

(** A child to be created in the folder at [d]:
    [createFile(`${d}/${name}`, content, metaData)] or
    [createFolder(`${d}/${name}`, metaData)]. *)
Inductive NewChild : Type :=
| NewFile (name : string) (content : option string) (metaData : option MetaData)
| NewFolder (name : string) (metaData : option MetaData).

Definition child_name (c : NewChild) : string :=
  match c with
  | NewFile name _ _ => name
  | NewFolder name _ => name
  end.

(** The item the operation stores. *)
Definition child_item (c : NewChild) : VirtualItem :=
  match c with
  | NewFile name content metaData =>
      file (createVirtualFile name (default EmptyString content)
              (Some (default [] metaData)))
  | NewFolder name metaData =>
      folder (createVirtualFolder name (Some (default [] metaData)))
  end.

Definition create_in (d : string) (c : NewChild) : Operation :=
  match c with
  | NewFile name content metaData =>
      CreateFile (d ++ String slash name) content metaData
  | NewFolder name metaData => CreateFolder (d ++ String slash name) metaData
  end.

Definition entry (c : NewChild) : string * VirtualItem := (child_name c, child_item c).

(** ** File systems of the tests *)

(** [new VirtualFileSystem().createFile("x", "A", {tag: 1})]. *)
Definition vfs_x : VirtualFileSystem :=
  {| root :=
       {| folder_name := EmptyString;
          folder_items :=
            [("x", file {| file_name := "x";
                           file_content := "A";
                           file_metaData := [("tag", number 1)] |})];
          folder_metaData := [] |} |}.

(** [new VirtualFileSystem().createFile("a", "x", {isSystem: 1})]. *)
Definition vfs_flagged : VirtualFileSystem :=
  {| root :=
       {| folder_name := EmptyString;
          folder_items :=
            [("a", file {| file_name := "a";
                           file_content := "x";
                           file_metaData := [("isSystem", number 1)] |})];
          folder_metaData := [] |} |}.

(** [new VirtualFileSystem().createFolder("folder")]. *)
Definition vfs_empty_folder : VirtualFileSystem :=
  {| root := {| folder_name := EmptyString;
                folder_items :=
                  [("folder", folder (createVirtualFolder "folder" None))];
                folder_metaData := [] |} |}.

(** The folder of the listing tests, with its two files. *)
Definition two_files : VirtualFolder :=
  {| folder_name := "folder";
     folder_items :=
       [("file1.txt", file {| file_name := "file1.txt";
                              file_content := "Content 1";
                              file_metaData := [] |});
        ("file2.txt", file {| file_name := "file2.txt";
                              file_content := "Content 2";
                              file_metaData := [] |})];
     folder_metaData := [] |}.

Definition vfs_folder : VirtualFileSystem :=
  {| root := {| folder_name := EmptyString;
                folder_items := [("folder", folder two_files)];
                folder_metaData := [] |} |}.

(** ** Outcomes up to the message *)

(** Two outcomes that differ at most in which exception was thrown: the
    same value returned, or an exception both times. *)
Definition alike (A : Type) (r1 r2 : Result A) : Prop :=
  match r1, r2 with
  | Return a, Return b => a = b
  | Throw _, Throw _ => True
  | _, _ => False
  end.
Arguments alike {A} r1 r2.

(** An operation called with another path. *)
Definition at_path (op : Operation) (path : string) : Operation :=
  match op with
  | CreateFile _ content metaData => CreateFile path content metaData
  | CreateFolder _ metaData => CreateFolder path metaData
  | UpdateFile _ content metaData => UpdateFile path content metaData
  | CreateOrUpdateFile _ content metaData =>
      CreateOrUpdateFile path content metaData
  | Delete _ => Delete path
  end.

(** The exceptions of the resolver of parent and name: the path has no
    segment, or walking the segments before the last one fails. *)
Definition path_error (path : string) (e : Exception) : Prop :=
  (segments path = [] /\ e = InvalidPath path) \/
  exists parent name,
    segments path = parent ++ [name] /\ e = FolderNotFound (join parent).

(** The exception of [createFile] and [createFolder] for a name that is
    taken. *)
Definition name_taken (path : string) (e : Exception) : Prop :=
  exists parent name,
    segments path = parent ++ [name] /\ e = AlreadyExists name path.

(** The entries of an object that [delete o[key]] leaves. *)
Definition other_key (A : Type) (key : string) (kv : string * A) : bool :=
  negb (String.eqb (fst kv) key).

(** ** Operations inside a folder *)

(** An operation on something inside the item at [path], not on the item
    itself: its path has the segments of [path] and at least one more. *)
Definition inside (path : string) (op : Operation) : Prop :=
  exists below,
    below <> [] /\ segments (path_of op) = segments path ++ below.

(** ** Programs *)

(** The folder that ADD_PROGRAM builds for a program. *)
Definition program_folder (JSON_stringify : PlainObject Value -> string)
    (payload : ProgramPayload) : VirtualFolder :=
  {| folder_name := program_id payload;
     folder_items :=
       [("main.exe",
         file {| file_name := "main.exe";
                 file_content := JSON_stringify (program_rest payload);
                 file_metaData := [] |});
        ("index.html",
         file {| file_name := "index.html";
                 file_content := default EmptyString (program_code payload);
                 file_metaData := [] |})];
     folder_metaData := [] |}.

(** ** The outline of a folder *)

(** [item.type]. *)
Definition type_ (i : VirtualItem) : string :=
  match i with
  | file _ => "file"
  | folder _ => "folder"
  end.

(** What a listing shows of an item: its name and its type. *)
Definition label (i : VirtualItem) : string * string := (name i, type_ i).

(** An object with [g] applied to every value, the keys as they are. *)
Definition map_values (A B : Type) (g : A -> B) (o : PlainObject A)
  : PlainObject B :=
  map (fun kv => (fst kv, g (snd kv))) o.
Arguments map_values {A B} g o.

(** The keys of a folder, in creation order, each with the label of its
    item. *)
Definition outline (d : VirtualFolder) : PlainObject (string * string) :=
  map_values label (folder_items d).

(** Two walks that end alike: in no folder, or in folders of the same name
    and outline. *)
Definition same_outline (a b : option VirtualFolder) : Prop :=
  match a, b with
  | Some x, Some y => folder_name x = folder_name y /\ outline x = outline y
  | None, None => True
  | _, _ => False
  end.

(** The walks from a folder and from its changed copy end alike. *)
Definition walks_alike (d d' : VirtualFolder) : Prop :=
  forall parts, same_outline (walk d' parts) (walk d parts).

(** The labels of a listing. *)
Definition labels (listing : Result (list VirtualItem))
  : Result (list (string * string)) :=
  (items <- listing ;; Return (map label items))%result.

(** ** Programs among the items *)

(** The items [getProgramEntry] makes an entry of: the folders that hold a
    file main.exe. *)
Definition is_program (item : VirtualItem) : bool :=
  match item with
  | file _ => false
  | folder d =>
      match get (folder_items d) "main.exe" with
      | Own (file _) => true
      | _ => false
      end
  end.

(** [index.html] of a program folder, as [getProgramEntry] reads it. *)
Definition code_of (item : VirtualItem) : option string :=
  match item with
  | file _ => None
  | folder d =>
      match get (folder_items d) "index.html" with
      | Own (file index) => Some (file_content index)
      | _ => None
      end
  end.

(** ** Well-formed trees *)

(** The entries of a folder are in order when every item is stored under
    its own name, the names are segments, no name occurs twice, and every
    item is in order itself. *)
Fixpoint entries_ok (ok : VirtualItem -> bool) (o : PlainObject VirtualItem)
  : bool :=
  match o with
  | [] => true
  | (key, item) :: rest =>
      String.eqb (name item) key && segment key &&
      negb (existsb (String.eqb key) (map fst rest)) &&
      ok item && entries_ok ok rest
  end.

Fixpoint well_formed_item (i : VirtualItem) : bool :=
  match i with
  | file _ => true
  | folder d => entries_ok well_formed_item (folder_items d)
  end.

Definition well_formed_folder (d : VirtualFolder) : bool :=
  entries_ok well_formed_item (folder_items d).

Definition well_formed (v : VirtualFileSystem) : bool :=
  well_formed_folder (root v).

(** A change of a folder that keeps its name and keeps it well-formed. *)
Definition gentle (change : VirtualFolder -> VirtualFolder) : Prop :=
  (forall p, folder_name (change p) = folder_name p) /\
  (forall p, well_formed_folder p = true -> well_formed_folder (change p) = true).

(** * Lemmas *)

(** ** Paths *)

Lemma split_not_nil (s : string) : split s <> [].
Proof.
  induction s as [|c rest IH]; simpl; [discriminate|].
  destruct (Ascii.eqb c slash); [discriminate|].
  destruct (split rest); discriminate.
Qed.

Lemma split_slash_free (s : string) : slash_free s = true -> split s = [s].
Proof.
  induction s as [|c rest IH]; simpl; intros H; [reflexivity|].
  apply andb_prop in H as [Hc Hrest].
  apply negb_true_iff in Hc. rewrite Hc, (IH Hrest). reflexivity.
Qed.

Lemma split_app_slash (a b : string) :
  split (a ++ String slash b) = split a ++ split b.
Proof.
  induction a as [|c rest IH]; simpl.
  - reflexivity.
  - rewrite IH. destruct (Ascii.eqb c slash); [reflexivity|].
    destruct (split rest) eqn:E; [|reflexivity].
    now apply split_not_nil in E.
Qed.

Lemma split_pieces_slash_free (s : string) :
  Forall (fun piece => slash_free piece = true) (split s).
Proof.
  induction s as [|c rest IH]; simpl.
  - repeat constructor.
  - destruct (Ascii.eqb c slash) eqn:Ec.
    + constructor; [reflexivity|assumption].
    + destruct (split rest) as [|piece pieces].
      * repeat constructor. simpl. now rewrite Ec.
      * inversion IH; subst. constructor; [|assumption].
        simpl. now rewrite Ec.
Qed.

Lemma segments_are_segments (path : string) :
  Forall (fun part => segment part = true) (segments path).
Proof.
  unfold segments, segment. apply Forall_forall. intros part Hin.
  apply filter_In in Hin as [Hin Hb]. rewrite Hb. simpl.
  pose proof (split_pieces_slash_free path) as H.
  rewrite Forall_forall in H. now apply H.
Qed.

Lemma segments_app_slash (a b : string) :
  segments (a ++ String slash b) = segments a ++ segments b.
Proof. unfold segments. now rewrite split_app_slash, filter_app. Qed.

Lemma segments_segment (s : string) : segment s = true -> segments s = [s].
Proof.
  unfold segment, segments. intros H. apply andb_prop in H as [Hb Hs].
  rewrite (split_slash_free _ Hs). simpl. now rewrite Hb.
Qed.

(** Joining segments and splitting again gives the segments back: the parent
    path that [getParentFolderAndName] hands to [getFolder] is walked
    segment by segment as it was popped. *)
Lemma segments_join (parts : list string) :
  Forall (fun part => segment part = true) parts ->
  segments (join parts) = parts.
Proof.
  induction 1 as [|part rest Hpart Hrest IH]; [reflexivity|].
  unfold join in *. simpl. destruct rest as [|next rest'].
  - now apply segments_segment.
  - change ("/" ++ String.concat "/" (next :: rest'))%string
      with (String slash (String.concat "/" (next :: rest'))).
    rewrite segments_app_slash, IH, (segments_segment _ Hpart). reflexivity.
Qed.

Lemma pop_app (A : Type) (l : list A) (a : A) : pop (l ++ [a]) = (Some a, l).
Proof.
  destruct l as [|x l']; [reflexivity|].
  unfold pop. change ((x :: l') ++ [a]) with (x :: (l' ++ [a])) at 1.
  cbv beta iota. rewrite last_last.
  change (x :: (l' ++ [a])) with ((x :: l') ++ [a]).
  now rewrite removelast_last.
Qed.

Lemma pop_spec (A : Type) (l : list A) :
  match pop l with
  | (None, _) => l = []
  | (Some a, rest) => l = rest ++ [a]
  end.
Proof.
  destruct l as [|p ps]; [reflexivity|].
  destruct (exists_last (l := p :: ps)) as [rest [a E]]; [discriminate|].
  rewrite E, pop_app. reflexivity.
Qed.

(** ** Plain objects *)

Section PlainObjects.
Variable A : Type.
Implicit Types (o : PlainObject A) (key : string) (a : A).

Lemma get_own o key a : get o key = Own a <-> own o key = Some a.
Proof.
  unfold get. destruct (own o key) as [b|].
  - split; intros H; inversion H; reflexivity.
  - split; [destruct (inherited key)|]; discriminate.
Qed.

Lemma get_undefined o key :
  get o key = Undefined <-> own o key = None /\ inherited key = false.
Proof.
  unfold get. destruct (own o key) as [b|].
  - split; [discriminate|intros [H _]; discriminate].
  - destruct (inherited key); split; try discriminate; auto.
    intros [_ H]; discriminate.
Qed.

Lemma own_set_same o key a : own (set o key a) key = Some a.
Proof.
  induction o as [|[k b] rest IH]; simpl.
  - now rewrite String.eqb_refl.
  - destruct (String.eqb k key) eqn:E; simpl; now rewrite E.
Qed.

Lemma own_set_other o key key' a :
  key <> key' -> own (set o key a) key' = own o key'.
Proof.
  intros Hne. induction o as [|[k b] rest IH]; simpl.
  - apply String.eqb_neq in Hne. now rewrite Hne.
  - destruct (String.eqb k key) eqn:E; simpl; [|now rewrite IH].
    apply String.eqb_eq in E. subst k.
    apply String.eqb_neq in Hne. now rewrite Hne.
Qed.

Lemma get_set_same o key a : get (set o key a) key = Own a.
Proof. apply get_own, own_set_same. Qed.

(** Assigning to a name the object does not own appends the property. *)
Lemma set_fresh o key a : own o key = None -> set o key a = o ++ [(key, a)].
Proof.
  induction o as [|[k b] rest IH]; simpl; intros H; [reflexivity|].
  destruct (String.eqb k key); [discriminate|]. now rewrite IH.
Qed.

Lemma own_delete_same o key : own (JS.delete o key) key = None.
Proof.
  induction o as [|[k b] rest IH]; simpl; [reflexivity|].
  destruct (String.eqb k key) eqn:E; simpl; [assumption|now rewrite E].
Qed.

Lemma own_delete_other o key key' :
  key <> key' -> own (JS.delete o key) key' = own o key'.
Proof.
  intros Hne. induction o as [|[k b] rest IH]; simpl; [reflexivity|].
  destruct (String.eqb k key) eqn:E; simpl.
  - apply String.eqb_eq in E. subst k.
    apply String.eqb_neq in Hne. now rewrite Hne.
  - now rewrite IH.
Qed.

Lemma get_set_other o key key' a :
  key <> key' -> get (set o key a) key' = get o key'.
Proof. intros H. unfold get. now rewrite own_set_other. Qed.

Lemma get_delete_other o key key' :
  key <> key' -> get (JS.delete o key) key' = get o key'.
Proof. intros H. unfold get. now rewrite own_delete_other. Qed.

Lemma index_entries_no_array_index o :
  no_array_index A o -> index_entries o = [].
Proof.
  induction 1 as [|[k a] rest Hk Hrest IH]; [reflexivity|].
  simpl in *. now rewrite Hk.
Qed.

Lemma string_entries_no_array_index o :
  no_array_index A o -> string_entries o = o.
Proof.
  unfold string_entries.
  induction 1 as [|[k a] rest Hk Hrest IH]; [reflexivity|].
  simpl in *. rewrite Hk. now rewrite IH.
Qed.

Lemma Object_entries_no_array_index o :
  no_array_index A o -> Object_entries o = o.
Proof.
  intros H. unfold Object_entries.
  now rewrite index_entries_no_array_index, string_entries_no_array_index.
Qed.

Lemma Object_values_no_array_index o :
  no_array_index A o -> Object_values o = map snd o.
Proof. intros H. unfold Object_values. now rewrite Object_entries_no_array_index. Qed.

End PlainObjects.

(** ** The order of Object.values *)

Section PropertyOrder.
Variable A : Type.
Implicit Types (o : PlainObject A) (sorted : list (N * (string * A))).

Lemma insert_by_index_perm i e sorted :
  Permutation (insert_by_index i e sorted) ((i, e) :: sorted).
Proof.
  induction sorted as [|[j f] rest IH]; simpl; [reflexivity|].
  destruct (N.leb j i); [|reflexivity].
  rewrite IH. apply perm_swap.
Qed.

Lemma insert_by_index_sorted i e sorted :
  StronglySorted (@by_index A) sorted ->
  StronglySorted (@by_index A) (insert_by_index i e sorted).
Proof.
  induction 1 as [|[j f] rest Hrest IH Hall]; simpl.
  - repeat constructor.
  - destruct (N.leb j i) eqn:Hle.
    + constructor; [assumption|].
      rewrite (insert_by_index_perm i e rest). constructor; [|assumption].
      unfold by_index. simpl. now apply N.leb_le.
    + apply N.leb_gt in Hle. constructor; [now constructor|].
      constructor; [unfold by_index; simpl; lia|].
      eapply Forall_impl; [|exact Hall].
      intros [k g]. unfold by_index. simpl. lia.
Qed.

Lemma index_entries_sorted o : StronglySorted (@by_index A) (index_entries o).
Proof.
  induction o as [|[k a] rest IH]; simpl; [constructor|].
  destruct (array_index k); [now apply insert_by_index_sorted|assumption].
Qed.

Lemma index_entries_perm o :
  Permutation (map snd (index_entries o)) (filter (@has_array_index A) o).
Proof.
  induction o as [|[k a] rest IH]; simpl; [reflexivity|].
  unfold has_array_index at 1. simpl.
  destruct (array_index k); [|assumption].
  rewrite insert_by_index_perm. simpl. now constructor.
Qed.

Lemma index_entries_keys o :
  Forall (fun ie => array_index (fst (snd ie)) = Some (fst ie)) (index_entries o).
Proof.
  induction o as [|[k a] rest IH]; simpl; [constructor|].
  destruct (array_index k) eqn:Hk; [|assumption].
  rewrite insert_by_index_perm. now constructor.
Qed.

(** [Object.values]: the properties whose names are array indices, by
    ascending index, then the others, oldest first. *)
Lemma Object_values_order o :
  exists indexed,
    Object_values o =
      map (fun ie => snd (snd ie)) indexed ++ map snd (string_entries o) /\
    StronglySorted (@by_index A) indexed /\
    Permutation (map snd indexed) (filter (@has_array_index A) o) /\
    Forall (fun ie => array_index (fst (snd ie)) = Some (fst ie)) indexed.
Proof.
  exists (index_entries o). split; [|split; [|split]].
  - unfold Object_values, Object_entries. now rewrite map_app, map_map.
  - apply index_entries_sorted.
  - apply index_entries_perm.
  - apply index_entries_keys.
Qed.

End PropertyOrder.

(** ** The resolver *)

Lemma getFolder_loop_walk (path : string) (d : VirtualFolder) (parts : list string) :
  getFolder_loop path d parts =
  match walk d parts with
  | Some found => Return found
  | None => Throw (FolderNotFound path)
  end.
Proof.
  revert d. induction parts as [|part rest IH]; intros d; simpl; [reflexivity|].
  destruct (get (folder_items d) part) as [[f|next]| |]; auto.
Qed.

Lemma walk_app (d : VirtualFolder) (front back : list string) :
  walk d (front ++ back) =
  match walk d front with
  | Some found => walk found back
  | None => None
  end.
Proof.
  revert d. induction front as [|part rest IH]; intros d; simpl; [reflexivity|].
  destruct (get (folder_items d) part) as [[f|next]| |]; auto.
Qed.

(** The resolver stops at the first folder that is missing: a walk that
    fails on a prefix fails on the whole. *)
Lemma walk_prefix_fails (d : VirtualFolder) (parts : list string) (k : nat) :
  walk d (firstn k parts) = None -> walk d parts = None.
Proof.
  intros H. rewrite <- (firstn_skipn k parts), walk_app, H. reflexivity.
Qed.

Lemma getFolder_eq (this : VirtualFileSystem) (path : string) :
  getFolder this path =
  match walk (root this) (segments path) with
  | Some found => Return {| place := segments path; value := found |}
  | None => Throw (FolderNotFound path)
  end.
Proof.
  unfold getFolder, bind. fold (segments path).
  rewrite getFolder_loop_walk. now destruct (walk (root this) (segments path)).
Qed.

Lemma getParentFolderAndName_eq (this : VirtualFileSystem) (path : string) :
  getParentFolderAndName this path =
  match pop (segments path) with
  | (None, _) => Throw (InvalidPath path)
  | (Some name, parts) =>
      match walk (root this) parts with
      | Some found =>
          Return {| parentFolder := {| place := parts; value := found |};
                    pname := name |}
      | None => Throw (FolderNotFound (join parts))
      end
  end.
Proof.
  unfold getParentFolderAndName. fold (segments path).
  pose proof (pop_spec _ (segments path)) as Hpop.
  destruct (pop (segments path)) as [[name|] parts]; [|reflexivity].
  assert (Hparts : segments (join parts) = parts).
  { apply segments_join. pose proof (segments_are_segments path) as H.
    rewrite Hpop in H. now apply Forall_app in H. }
  rewrite getFolder_eq, Hparts. now destruct (walk (root this) parts).
Qed.

(** A path of which the parent resolves. *)
Lemma getParentFolderAndName_segments (this : VirtualFileSystem) (path : string)
    (parts : list string) (name : string) :
  segments path = parts ++ [name] ->
  getParentFolderAndName this path =
  match walk (root this) parts with
  | Some found =>
      Return {| parentFolder := {| place := parts; value := found |};
                pname := name |}
  | None => Throw (FolderNotFound (join parts))
  end.
Proof. intros H. now rewrite getParentFolderAndName_eq, H, pop_app. Qed.

Lemma getParentFolderAndName_inv (this : VirtualFileSystem) (path : string)
    (pn : ParentFolderAndName) :
  getParentFolderAndName this path = Return pn ->
  segments path = place (parentFolder pn) ++ [pname pn] /\
  walk (root this) (place (parentFolder pn)) = Some (value (parentFolder pn)).
Proof.
  rewrite getParentFolderAndName_eq.
  pose proof (pop_spec _ (segments path)) as Hpop.
  destruct (pop (segments path)) as [[name|] parts]; [|discriminate].
  destruct (walk (root this) parts) as [found|] eqn:Hwalk; [|discriminate].
  intros H. inversion H; subst; simpl. auto.
Qed.

Lemma parent_not_found (v : VirtualFileSystem) (path : string)
    (parts : list string) (name : string) :
  segments path = parts ++ [name] ->
  walk (root v) parts = None ->
  getParentFolderAndName v path = Throw (FolderNotFound (join parts)).
Proof.
  intros Hseg Hwalk.
  now rewrite (getParentFolderAndName_segments _ _ _ _ Hseg), Hwalk.
Qed.

Lemma getFile_resolved (v : VirtualFileSystem) (path : string)
    (pn : ParentFolderAndName) :
  getParentFolderAndName v path = Return pn ->
  getFile v path =
  match item_of pn with
  | Own (file f) =>
      Return {| place := place (parentFolder pn) ++ [pname pn]; value := f |}
  | _ => Throw (FileNotFound path)
  end.
Proof. intros H. unfold getFile, bind. now rewrite H. Qed.

Lemma getFile_inv (this : VirtualFileSystem) (path : string)
    (found : Located VirtualFile) :
  getFile this path = Return found ->
  exists pn, getParentFolderAndName this path = Return pn /\
             item_of pn = Own (file (value found)) /\
             place found = place (parentFolder pn) ++ [pname pn].
Proof.
  unfold getFile, bind.
  destruct (getParentFolderAndName this path) as [pn|e]; [|discriminate].
  destruct (item_of pn) as [[f|d]| |] eqn:Hitem; try discriminate.
  intros H. inversion H; subst; simpl. exists pn. auto.
Qed.

Lemma getItem_getFile (v : VirtualFileSystem) (path : string)
    (found : Located VirtualFile) :
  getFile v path = Return found ->
  getItem v path = Return (Own (file (value found))).
Proof.
  intros H. destruct (getFile_inv _ _ _ H) as [pn [Hpn [Hitem _]]].
  unfold getItem, bind. now rewrite Hpn, Hitem.
Qed.

Lemma getFile_getItem (v : VirtualFileSystem) (path : string) (f : VirtualFile) :
  getItem v path = Return (Own (file f)) ->
  exists found, getFile v path = Return found /\ value found = f.
Proof.
  unfold getItem, getFile, bind.
  destruct (getParentFolderAndName v path) as [pn|e]; [|discriminate].
  intros H. inversion H as [Hitem]. rewrite Hitem. eexists. split; reflexivity.
Qed.

Lemma read_app (d : VirtualFolder) (parts : list string) (name : string) :
  read d (parts ++ [name]) =
  match walk d parts with
  | Some found => Some (get (folder_items found) name)
  | None => None
  end.
Proof.
  revert d. induction parts as [|part rest IH]; intros d; [reflexivity|].
  change ((part :: rest) ++ [name]) with (part :: (rest ++ [name])).
  simpl. destruct (rest ++ [name]) as [|x xs] eqn:E; [now destruct rest|].
  destruct (get (folder_items d) part) as [[f|next]| |]; auto.
Qed.

Lemma getItem_read (v : VirtualFileSystem) (path : string) :
  getItem v path =
  match segments path with
  | [] => Throw (InvalidPath path)
  | parts =>
      match read (root v) parts with
      | Some reading => Return reading
      | None => Throw (FolderNotFound (join (removelast parts)))
      end
  end.
Proof.
  unfold getItem, bind. rewrite getParentFolderAndName_eq.
  pose proof (pop_spec _ (segments path)) as Hpop.
  destruct (pop (segments path)) as [[name|] parts]; rewrite Hpop; [|reflexivity].
  destruct (parts ++ [name]) as [|x xs] eqn:E; [now destruct parts|].
  rewrite <- E, read_app, removelast_last.
  now destruct (walk (root v) parts).
Qed.

Lemma readFile_getItem (v : VirtualFileSystem) (path : string) :
  readFile v path =
  match getItem v path with
  | Return (Own (file f)) => Return (file_content f)
  | Return _ => Throw (FileNotFound path)
  | Throw e => Throw e
  end.
Proof.
  unfold readFile, getFile, getItem, bind.
  destruct (getParentFolderAndName v path) as [pn|e]; [|reflexivity].
  now destruct (item_of pn) as [[f|d]| |].
Qed.

(** ** What each operation computes *)

Lemma createFile_eq (this : VirtualFileSystem) (path : string)
    (content : option string) (metaData : option MetaData) :
  createFile this path content metaData =
  {| receiver := this;
     outcome :=
       match getParentFolderAndName this path with
       | Return pn =>
           match item_of pn with
           | Undefined =>
               Return (inserted this pn
                         (file (createVirtualFile (pname pn)
                                  (default EmptyString content)
                                  (Some (default [] metaData)))))
           | _ => Throw (AlreadyExists (pname pn) path)
           end
       | Throw e => Throw e
       end |}.
Proof.
  unfold createFile, produce, and_then, on_draft. simpl.
  destruct (getParentFolderAndName this path) as [pn|e]; [|reflexivity].
  destruct (item_of pn); reflexivity.
Qed.

Lemma createFolder_eq (this : VirtualFileSystem) (path : string)
    (metaData : option MetaData) :
  createFolder this path metaData =
  {| receiver := this;
     outcome :=
       match getParentFolderAndName this path with
       | Return pn =>
           match item_of pn with
           | Undefined =>
               Return (inserted this pn
                         (folder (createVirtualFolder (pname pn)
                                    (Some (default [] metaData)))))
           | _ => Throw (AlreadyExists (pname pn) path)
           end
       | Throw e => Throw e
       end |}.
Proof.
  unfold createFolder, produce, and_then, on_draft. simpl.
  destruct (getParentFolderAndName this path) as [pn|e]; [|reflexivity].
  destruct (item_of pn); reflexivity.
Qed.

Lemma updateFile_eq (this : VirtualFileSystem) (path : string)
    (content : string) (metaData : option MetaData) :
  updateFile this path content metaData =
  {| receiver := this;
     outcome :=
       match getFile this path with
       | Return found => Return (updated this found content metaData)
       | Throw e => Throw e
       end |}.
Proof.
  unfold updateFile, produce, and_then, on_draft. simpl.
  destruct (getFile this path) as [f|e]; reflexivity.
Qed.

Lemma delete_eq (this : VirtualFileSystem) (path : string) :
  delete this path =
  {| receiver := this;
     outcome :=
       match getParentFolderAndName this path with
       | Return pn =>
           match item_of pn with
           | Undefined => Throw (NotFound path)
           | Inherited => Throw TypeError
           | Own item =>
               if isSystem item then Throw (SystemProtected path)
               else Return (removed this pn)
           end
       | Throw e => Throw e
       end |}.
Proof.
  unfold delete, produce, and_then, on_draft, isSystem. simpl.
  destruct (getParentFolderAndName this path) as [pn|e]; [|reflexivity].
  destruct (item_of pn) as [item| |]; try reflexivity.
  destruct (truthy_property (get (metaData item) "isSystem")); reflexivity.
Qed.

Lemma createOrUpdateFile_eq (this : VirtualFileSystem) (path : string)
    (content : option string) (metaData : option MetaData) :
  createOrUpdateFile this path content metaData =
  match outcome (updateFile this path (default EmptyString content)
                   (Some (default [] metaData))) with
  | Return fs => {| receiver := this; outcome := Return fs |}
  | Throw _ =>
      createFile this path (Some (default EmptyString content))
        (Some (default [] metaData))
  end.
Proof.
  unfold createOrUpdateFile. rewrite updateFile_eq. simpl.
  destruct (getFile this path); reflexivity.
Qed.

Lemma receiver_invoke (this : VirtualFileSystem) (op : Operation) :
  receiver (invoke this op) = this.
Proof.
  destruct op; simpl.
  - now rewrite createFile_eq.
  - now rewrite createFolder_eq.
  - now rewrite updateFile_eq.
  - rewrite createOrUpdateFile_eq, updateFile_eq. simpl.
    destruct (getFile this path); [reflexivity|now rewrite createFile_eq].
  - now rewrite delete_eq.
Qed.

(** ** Writes to the draft *)

Lemma walk_write_folder (d : VirtualFolder) (place : list string)
    (change : VirtualFolder -> VirtualFolder) (found : VirtualFolder) :
  walk d place = Some found ->
  walk (write_folder d place change) place = Some (change found).
Proof.
  revert d. induction place as [|part rest IH]; intros d; simpl.
  - intros H. now inversion H.
  - destruct (get (folder_items d) part) as [[f|next]| |] eqn:Hget; try discriminate.
    apply get_own in Hget. rewrite Hget. simpl. rewrite get_set_same. apply IH.
Qed.

(** ** Reading after a write *)

Lemma resolve_after_write (this : VirtualFileSystem) (path : string)
    (pn : ParentFolderAndName) (change : VirtualFolder -> VirtualFolder) :
  getParentFolderAndName this path = Return pn ->
  getParentFolderAndName
    {| root := write_folder (root this) (place (parentFolder pn)) change |} path =
  Return {| parentFolder := {| place := place (parentFolder pn);
                               value := change (value (parentFolder pn)) |};
            pname := pname pn |}.
Proof.
  intros H. apply getParentFolderAndName_inv in H as [Hseg Hwalk].
  rewrite (getParentFolderAndName_segments _ _ _ _ Hseg). simpl.
  now rewrite (walk_write_folder _ _ change _ Hwalk).
Qed.

Lemma getItem_inserted (this : VirtualFileSystem) (path : string)
    (pn : ParentFolderAndName) (item : VirtualItem) :
  getParentFolderAndName this path = Return pn ->
  getItem (inserted this pn item) path = Return (Own item).
Proof.
  intros H. unfold getItem, inserted, bind.
  rewrite (resolve_after_write _ _ _ _ H). unfold item_of. simpl.
  now rewrite get_set_same.
Qed.

Lemma getFile_inserted (this : VirtualFileSystem) (path : string)
    (pn : ParentFolderAndName) (f : VirtualFile) :
  getParentFolderAndName this path = Return pn ->
  getFile (inserted this pn (file f)) path =
  Return {| place := place (parentFolder pn) ++ [pname pn]; value := f |}.
Proof.
  intros H. unfold getFile, inserted, bind.
  rewrite (resolve_after_write _ _ _ _ H). unfold item_of. simpl.
  now rewrite get_set_same.
Qed.

Lemma getFile_updated (this : VirtualFileSystem) (path : string)
    (found : Located VirtualFile) (content : string) (metaData : option MetaData) :
  getFile this path = Return found ->
  getFile (updated this found content metaData) path =
  Return {| place := place found;
            value := {| file_name := file_name (value found);
                        file_content := content;
                        file_metaData :=
                          default (file_metaData (value found)) metaData |} |}.
Proof.
  intros H. destruct (getFile_inv _ _ _ H) as [pn [Hpn [Hitem Hplace]]].
  unfold updated, write_file. rewrite Hplace, pop_app.
  pose proof (getParentFolderAndName_inv _ _ _ Hpn) as [Hseg Hwalk].
  unfold getFile, bind.
  rewrite (getParentFolderAndName_segments _ _ _ _ Hseg). simpl.
  rewrite (walk_write_folder _ _ _ _ (walk_write_folder _ _ _ _ Hwalk)).
  unfold item_of in *. simpl.
  apply get_own in Hitem. rewrite Hitem. simpl.
  rewrite own_set_same. simpl. now rewrite get_set_same.
Qed.

Lemma updateFile_found (v : VirtualFileSystem) (path content : string)
    (metaData : option MetaData) (found : Located VirtualFile) :
  getFile v path = Return found ->
  outcome (updateFile v path content metaData) =
    Return (updated v found content metaData) /\
  readFile (updated v found content metaData) path = Return content /\
  getItem (updated v found content metaData) path =
    Return (Own (file {| file_name := file_name (value found);
                         file_content := content;
                         file_metaData :=
                           default (file_metaData (value found)) metaData |})).
Proof.
  intros H. rewrite updateFile_eq, H. simpl.
  pose proof (getFile_updated _ _ _ content metaData H) as Hread.
  repeat split.
  - unfold readFile, bind. now rewrite Hread.
  - now rewrite (getItem_getFile _ _ _ Hread).
Qed.

Lemma walk_removed (v : VirtualFileSystem) (path : string)
    (pn : ParentFolderAndName) (below : list string) :
  getParentFolderAndName v path = Return pn ->
  walk (root (removed v pn)) (place (parentFolder pn) ++ pname pn :: below) = None.
Proof.
  intros H. apply getParentFolderAndName_inv in H as [_ Hwalk].
  unfold removed. simpl.
  rewrite walk_app, (walk_write_folder _ _ _ _ Hwalk). simpl.
  unfold get. rewrite own_delete_same. now destruct (inherited (pname pn)).
Qed.

Lemma isSystem_true (item : VirtualItem) :
  get (metaData item) "isSystem" = Own (boolean true) -> isSystem item = true.
Proof. unfold isSystem. now intros ->. Qed.

(** ** Serialization *)

Lemma fromJSON_toJSON (vfs : VirtualFileSystem) : fromJSON (toJSON vfs) = vfs.
Proof. now destruct vfs. Qed.

(** ** Children created in a folder *)

Lemma name_child_item (c : NewChild) : name (child_item c) = child_name c.
Proof. now destruct c. Qed.

Lemma create_in_folder (v v1 : VirtualFileSystem) (d : string)
    (parent : Located VirtualFolder) (c : NewChild) :
  getFolder v d = Return parent ->
  segment (child_name c) = true ->
  outcome (invoke v (create_in d c)) = Return v1 ->
  getFolder v1 d =
  Return {| place := place parent;
            value := with_items (value parent)
                       (folder_items (value parent) ++ [entry c]) |}.
Proof.
  rewrite getFolder_eq.
  destruct (walk (root v) (segments d)) as [found|] eqn:Hwalk; [|discriminate].
  intros Hparent Hname. inversion Hparent; subst parent; clear Hparent. simpl.
  assert (Hseg : segments (d ++ String slash (child_name c)) =
                 segments d ++ [child_name c]).
  { now rewrite segments_app_slash, (segments_segment _ Hname). }
  pose proof (getParentFolderAndName_segments v _ _ _ Hseg) as Hpn.
  rewrite Hwalk in Hpn.
  assert (Hcreated :
    forall item,
      match item_of {| parentFolder := {| place := segments d; value := found |};
                       pname := child_name c |} with
      | Undefined =>
          Return (inserted v
                    {| parentFolder := {| place := segments d; value := found |};
                       pname := child_name c |} item)
      | _ => Throw (AlreadyExists (child_name c)
                      (d ++ String slash (child_name c)))
      end = Return v1 ->
      getFolder v1 d =
      Return {| place := segments d;
                value := with_items found
                           (folder_items found ++ [(child_name c, item)]) |}).
  { intros item. unfold item_of. simpl.
    destruct (get (folder_items found) (child_name c)) eqn:Hget; try discriminate.
    apply get_undefined in Hget as [Hown _].
    intros H. inversion H; subst v1. rewrite getFolder_eq. unfold inserted. simpl.
    rewrite (walk_write_folder _ _ _ _ Hwalk). simpl.
    now rewrite (set_fresh _ _ _ _ Hown). }
  destruct c as [n content m|n m]; simpl in *.
  - rewrite createFile_eq, Hpn. simpl. apply Hcreated.
  - rewrite createFolder_eq, Hpn. simpl. apply Hcreated.
Qed.

Lemma create_all_in_folder (children : list NewChild) :
  forall (v v' : VirtualFileSystem) (d : string) (parent : Located VirtualFolder),
    getFolder v d = Return parent ->
    Forall (fun c => segment (child_name c) = true) children ->
    run (map (create_in d) children) v = Return v' ->
    getFolder v' d =
    Return {| place := place parent;
              value := with_items (value parent)
                         (folder_items (value parent) ++ map entry children) |}.
Proof.
  induction children as [|c rest IH]; intros v v' d parent Hparent Hnames Hrun.
  - simpl in *. inversion Hrun; subst v'. rewrite app_nil_r, Hparent.
    destruct parent as [pl [n its m]]. reflexivity.
  - simpl in Hrun. inversion Hnames as [|c' rest' Hname Hrest]; subst.
    destruct (outcome (invoke v (create_in d c))) as [v1|e] eqn:Hstep;
      [|discriminate].
    pose proof (create_in_folder _ _ _ _ _ Hparent Hname Hstep) as Hparent1.
    rewrite (IH _ _ _ _ Hparent1 Hrest Hrun). simpl.
    now rewrite <- app_assoc.
Qed.

(** ** Writes are local *)

Lemma same_reading_refl (a : option (Property VirtualItem)) : same_reading a a.
Proof. now destruct a as [[[f|d]| |]|]. Qed.

Lemma same_reading_trans (a b c : option (Property VirtualItem)) :
  same_reading a b -> same_reading b c -> same_reading a c.
Proof.
  destruct a as [[[f|d]| |]|], b as [[[g|e]| |]|], c as [[[h|k]| |]|];
    simpl; try contradiction; auto; congruence.
Qed.

(** A write that changes only the entry [name] of the folder at [place]
    changes no reading along a path that does not start with [place] and
    [name]. *)
Lemma read_write_folder (name : string)
    (change : VirtualFolder -> VirtualFolder) :
  (forall p other,
      other <> name ->
      get (folder_items (change p)) other = get (folder_items p) other) ->
  forall (place : list string) (d : VirtualFolder) (parts : list string),
    (forall below, parts <> (place ++ [name]) ++ below) ->
    same_reading (read (write_folder d place change) parts) (read d parts).
Proof.
  intros Hchange place.
  induction place as [|c cs IH]; intros d parts Hpath.
  - destruct parts as [|k rest]; [apply same_reading_refl|]. simpl.
    assert (Hk : k <> name).
    { intros ->. now apply (Hpath rest). }
    rewrite (Hchange d k Hk). apply same_reading_refl.
  - simpl. destruct (own (folder_items d) c) as [[f|sub]|] eqn:Hown;
      try apply same_reading_refl.
    destruct parts as [|k rest]; [apply same_reading_refl|].
    destruct (string_dec c k) as [->|Hne].
    + simpl. rewrite get_set_same, (proj2 (get_own _ _ _ _) Hown).
      destruct rest as [|k' rest']; [exact I|].
      apply IH. intros below E. apply (Hpath below). simpl. now rewrite E.
    + simpl. rewrite (get_set_other _ _ _ _ _ Hne). apply same_reading_refl.
Qed.

(** The readers agree on two file systems whose readings along a path are
    the same. *)
Lemma same_reading_readers (v v' : VirtualFileSystem) (path : string) :
  same_reading (read (root v') (segments path)) (read (root v) (segments path)) ->
  readFile v' path = readFile v path /\ exists_ v' path = exists_ v path.
Proof.
  intros H. rewrite !readFile_getItem. unfold exists_. rewrite !getItem_read.
  destruct (segments path) as [|k rest]; [now split|]. cbv zeta.
  destruct (read (root v') (k :: rest)) as [[[f|d]| |]|];
    destruct (read (root v) (k :: rest)) as [[[g|e]| |]|];
    simpl in H; try contradiction; subst; now split.
Qed.

Section Local.
Variables (v : VirtualFileSystem) (path other : string).
Hypothesis Hother : forall below, segments other <> segments path ++ below.

Lemma inserted_local (pn : ParentFolderAndName) (item : VirtualItem) :
  getParentFolderAndName v path = Return pn ->
  same_reading (read (root (inserted v pn item)) (segments other))
    (read (root v) (segments other)).
Proof.
  intros Hpn. apply getParentFolderAndName_inv in Hpn as [Hseg _].
  apply read_write_folder with (name := pname pn).
  - intros p k Hk. simpl. apply get_set_other. congruence.
  - now rewrite <- Hseg.
Qed.

Lemma removed_local (pn : ParentFolderAndName) :
  getParentFolderAndName v path = Return pn ->
  same_reading (read (root (removed v pn)) (segments other))
    (read (root v) (segments other)).
Proof.
  intros Hpn. apply getParentFolderAndName_inv in Hpn as [Hseg _].
  apply read_write_folder with (name := pname pn).
  - intros p k Hk. simpl. apply get_delete_other. congruence.
  - now rewrite <- Hseg.
Qed.

Lemma updated_local (found : Located VirtualFile) (content : string)
    (metaData : option MetaData) :
  getFile v path = Return found ->
  same_reading (read (root (updated v found content metaData)) (segments other))
    (read (root v) (segments other)).
Proof.
  intros Hfile. destruct (getFile_inv _ _ _ Hfile) as [pn [Hpn [_ Hplace]]].
  apply getParentFolderAndName_inv in Hpn as [Hseg _].
  unfold updated, write_file. rewrite Hplace, pop_app. simpl.
  assert (Hchange : forall change p k,
             k <> pname pn ->
             get (folder_items
                    match own (folder_items p) (pname pn) with
                    | Some (file f) =>
                        with_items p
                          (set (folder_items p) (pname pn) (file (change f)))
                    | _ => p
                    end) k = get (folder_items p) k).
  { intros change p k Hk.
    destruct (own (folder_items p) (pname pn)) as [[f|d]|]; try reflexivity.
    simpl. apply get_set_other. congruence. }
  eapply same_reading_trans;
    apply read_write_folder with (name := pname pn);
    try (now rewrite <- Hseg); intros p k Hk; apply Hchange; exact Hk.
Qed.

End Local.

(** An operation that returns changes no reading along a path that does not
    start with the segments of the path it was called with. *)
Lemma operations_are_local (v v2 : VirtualFileSystem) (op : Operation) :
  outcome (invoke v op) = Return v2 ->
  forall other,
    (forall below, segments other <> segments (path_of op) ++ below) ->
    readFile v2 other = readFile v other /\ exists_ v2 other = exists_ v other.
Proof.
  intros Hop other Hother. apply same_reading_readers.
  assert (Hcreate :
    forall path content metaData,
      (forall below, segments other <> segments path ++ below) ->
      outcome (createFile v path content metaData) = Return v2 ->
      same_reading (read (root v2) (segments other)) (read (root v) (segments other))).
  { intros path content metaData Hp H. rewrite createFile_eq in H. simpl in H.
    destruct (getParentFolderAndName v path) as [pn|e] eqn:Hpn; [|discriminate].
    destruct (item_of pn); try discriminate.
    inversion H; subst v2. now apply inserted_local with (path := path). }
  destruct op as [path content metaData|path metaData|path content metaData
                 |path content metaData|path]; simpl in Hop, Hother.
  - now apply (Hcreate path content metaData).
  - rewrite createFolder_eq in Hop. simpl in Hop.
    destruct (getParentFolderAndName v path) as [pn|e] eqn:Hpn; [|discriminate].
    destruct (item_of pn); try discriminate.
    inversion Hop; subst v2. now apply inserted_local with (path := path).
  - rewrite updateFile_eq in Hop. simpl in Hop.
    destruct (getFile v path) as [found|e] eqn:Hfile; [|discriminate].
    inversion Hop; subst v2. now apply updated_local with (path := path).
  - rewrite createOrUpdateFile_eq, updateFile_eq in Hop. simpl in Hop.
    destruct (getFile v path) as [found|e] eqn:Hfile.
    + inversion Hop; subst v2. now apply updated_local with (path := path).
    + now apply (Hcreate path (Some (default EmptyString content))
                   (Some (default [] metaData))).
  - rewrite delete_eq in Hop. simpl in Hop.
    destruct (getParentFolderAndName v path) as [pn|e] eqn:Hpn; [|discriminate].
    destruct (item_of pn) as [item| |]; try discriminate.
    destruct (isSystem item); [discriminate|].
    inversion Hop; subst v2. now apply removed_local with (path := path).
Qed.
(** ** Writes that undo or repeat one another *)

Section MorePlainObjects.
Variable A : Type.
Implicit Types (o : PlainObject A) (key : string) (a : A).

Lemma set_same o key a : own o key = Some a -> set o key a = o.
Proof.
  induction o as [|[k b] rest IH]; simpl; [discriminate|].
  destruct (String.eqb k key); intros H.
  - now inversion H.
  - now rewrite IH.
Qed.

Lemma set_set o key a b : set (set o key a) key b = set o key b.
Proof.
  induction o as [|[k c] rest IH]; simpl.
  - now rewrite String.eqb_refl.
  - destruct (String.eqb k key) eqn:E; simpl; rewrite E; [reflexivity|].
    now rewrite IH.
Qed.

Lemma delete_fresh o key : own o key = None -> JS.delete o key = o.
Proof.
  induction o as [|[k b] rest IH]; simpl; [reflexivity|].
  destruct (String.eqb k key); [discriminate|]. intros H. simpl. now rewrite IH.
Qed.

Lemma delete_set_fresh o key a :
  own o key = None -> JS.delete (set o key a) key = o.
Proof.
  intros H. rewrite (set_fresh _ _ _ _ H). unfold JS.delete.
  rewrite filter_app. simpl. rewrite String.eqb_refl. simpl.
  rewrite app_nil_r. now apply delete_fresh.
Qed.

End MorePlainObjects.

Lemma with_items_same (d : VirtualFolder) : with_items d (folder_items d) = d.
Proof. now destruct d. Qed.

Lemma with_items_with_items (d : VirtualFolder) (i j : PlainObject VirtualItem) :
  with_items (with_items d i) j = with_items d j.
Proof. reflexivity. Qed.

Lemma write_folder_app (r : VirtualFolder) (front back : list string)
    (change : VirtualFolder -> VirtualFolder) :
  write_folder r (front ++ back) change =
  write_folder r front (fun p => write_folder p back change).
Proof.
  revert r. induction front as [|c cs IH]; intros r; simpl; [reflexivity|].
  destruct (own (folder_items r) c) as [[f|sub]|]; try reflexivity.
  now rewrite IH.
Qed.

Lemma write_folder_compose (r : VirtualFolder) (place : list string)
    (first second : VirtualFolder -> VirtualFolder) :
  write_folder (write_folder r place first) place second =
  write_folder r place (fun p => second (first p)).
Proof.
  revert r. induction place as [|c cs IH]; intros r; simpl; [reflexivity|].
  destruct (own (folder_items r) c) as [[f|sub]|] eqn:Hown; simpl;
    try (now rewrite Hown).
  rewrite own_set_same, set_set, IH. reflexivity.
Qed.

(** The write depends on the change only through what it makes of the folder
    at the place. *)
Lemma write_folder_walk (r : VirtualFolder) (place : list string)
    (change : VirtualFolder -> VirtualFolder) (found : VirtualFolder) :
  walk r place = Some found ->
  write_folder r place change = write_folder r place (fun _ => change found).
Proof.
  revert r. induction place as [|c cs IH]; intros r; simpl.
  - intros H. now inversion H.
  - destruct (get (folder_items r) c) as [[f|sub]| |] eqn:Hget; try discriminate.
    apply get_own in Hget. rewrite Hget. intros H. now rewrite (IH _ H).
Qed.

Lemma write_folder_same (r : VirtualFolder) (place : list string)
    (found : VirtualFolder) :
  walk r place = Some found -> write_folder r place (fun _ => found) = r.
Proof.
  revert r. induction place as [|c cs IH]; intros r; simpl.
  - intros H. now inversion H.
  - destruct (get (folder_items r) c) as [[f|sub]| |] eqn:Hget; try discriminate.
    apply get_own in Hget. rewrite Hget. intros H.
    rewrite (IH _ H), (set_same _ _ _ _ Hget). apply with_items_same.
Qed.

(** A write that leaves the folder at the place as it was leaves the tree as
    it was. *)
Lemma write_folder_unchanged (r : VirtualFolder) (place : list string)
    (change : VirtualFolder -> VirtualFolder) (found : VirtualFolder) :
  walk r place = Some found -> change found = found ->
  write_folder r place change = r.
Proof.
  intros Hwalk Hsame.
  rewrite (write_folder_walk _ _ _ _ Hwalk), Hsame.
  now apply write_folder_same.
Qed.

(** The file an update leaves. *)
Lemma updated_eq (v : VirtualFileSystem) (path : string)
    (pn : ParentFolderAndName) (f : VirtualFile)
    (content : string) (metaData : option MetaData) :
  getParentFolderAndName v path = Return pn ->
  item_of pn = Own (file f) ->
  updated v {| place := place (parentFolder pn) ++ [pname pn]; value := f |}
    content metaData =
  {| root :=
       write_folder (root v) (place (parentFolder pn))
         (fun _ =>
            with_items (value (parentFolder pn))
              (set (folder_items (value (parentFolder pn))) (pname pn)
                 (file {| file_name := file_name f;
                          file_content := content;
                          file_metaData := default (file_metaData f) metaData |}))) |}.
Proof.
  intros Hpn Hitem. apply getParentFolderAndName_inv in Hpn as [_ Hwalk].
  apply get_own in Hitem.
  unfold updated, write_file. simpl. rewrite pop_app. f_equal.
  rewrite write_folder_compose, (write_folder_walk _ _ _ _ Hwalk).
  f_equal. rewrite Hitem. simpl. rewrite own_set_same, set_set. reflexivity.
Qed.

Lemma delete_inserted (v : VirtualFileSystem) (path : string)
    (pn : ParentFolderAndName) (item : VirtualItem) :
  getParentFolderAndName v path = Return pn ->
  item_of pn = Undefined ->
  isSystem item = false ->
  outcome (delete (inserted v pn item) path) = Return v.
Proof.
  intros Hpn Hitem Hsys.
  pose proof (getParentFolderAndName_inv _ _ _ Hpn) as [_ Hwalk].
  apply get_undefined in Hitem as [Hown _].
  rewrite delete_eq. unfold inserted.
  rewrite (resolve_after_write _ _ _ _ Hpn). unfold item_of. simpl.
  rewrite get_set_same, Hsys. f_equal. unfold removed. simpl.
  rewrite write_folder_compose. destruct v as [r]. simpl in *. f_equal.
  apply (write_folder_unchanged _ _ _ _ Hwalk).
  simpl. rewrite (delete_set_fresh _ _ _ _ Hown).
  exact (with_items_same (value (parentFolder pn))).
Qed.

(** ** Paths with the same segments *)

Lemma alike_refl (A : Type) (r : Result A) : alike r r.
Proof. now destruct r. Qed.

Lemma getParentFolderAndName_alike (v : VirtualFileSystem) (p q : string) :
  segments p = segments q ->
  alike (getParentFolderAndName v p) (getParentFolderAndName v q).
Proof.
  intros H. rewrite !getParentFolderAndName_eq, H.
  destruct (pop (segments q)) as [[name|] parts]; simpl; [|exact I].
  now destruct (walk (root v) parts).
Qed.

Lemma getFile_alike (v : VirtualFileSystem) (p q : string) :
  segments p = segments q -> alike (getFile v p) (getFile v q).
Proof.
  intros H. pose proof (getParentFolderAndName_alike v p q H) as Hpn.
  unfold getFile.
  destruct (getParentFolderAndName v p) as [pn|],
           (getParentFolderAndName v q) as [pn'|]; simpl in *;
    try contradiction; [subst pn'|exact I].
  destruct (item_of pn) as [[f|d]| |]; simpl; auto.
Qed.

Lemma updateFile_alike (v : VirtualFileSystem) (p q content : string)
    (metaData : option MetaData) :
  segments p = segments q ->
  alike (outcome (updateFile v p content metaData))
        (outcome (updateFile v q content metaData)).
Proof.
  intros H. pose proof (getFile_alike v p q H) as Hfile.
  rewrite !updateFile_eq. simpl.
  destruct (getFile v p), (getFile v q); simpl in *;
    try contradiction; [now subst|exact I].
Qed.

Lemma createFile_alike (v : VirtualFileSystem) (p q : string)
    (content : option string) (metaData : option MetaData) :
  segments p = segments q ->
  alike (outcome (createFile v p content metaData))
        (outcome (createFile v q content metaData)).
Proof.
  intros H. pose proof (getParentFolderAndName_alike v p q H) as Hpn.
  rewrite !createFile_eq. simpl.
  destruct (getParentFolderAndName v p) as [pn|],
           (getParentFolderAndName v q) as [pn'|]; simpl in *;
    try contradiction; [subst pn'|exact I].
  now destruct (item_of pn).
Qed.

Lemma invoke_alike (v : VirtualFileSystem) (p q : string) (op : Operation) :
  segments p = segments q ->
  alike (outcome (invoke v (at_path op p))) (outcome (invoke v (at_path op q))).
Proof.
  intros H. pose proof (getParentFolderAndName_alike v p q H) as Hpn.
  destruct op as [? content metaData|? metaData|? content metaData
                 |? content metaData|?];
    simpl.
  - now apply createFile_alike.
  - rewrite !createFolder_eq. simpl.
    destruct (getParentFolderAndName v p) as [pn|],
             (getParentFolderAndName v q) as [pn'|]; simpl in *;
      try contradiction; [subst pn'|exact I].
    now destruct (item_of pn).
  - now apply updateFile_alike.
  - rewrite !createOrUpdateFile_eq.
    pose proof (updateFile_alike v p q (default EmptyString content)
                  (Some (default [] metaData)) H) as Hupdate.
    destruct (outcome (updateFile v p _ _)), (outcome (updateFile v q _ _));
      simpl in *; try contradiction; [assumption|].
    now apply createFile_alike.
  - rewrite !delete_eq. simpl.
    destruct (getParentFolderAndName v p) as [pn|],
             (getParentFolderAndName v q) as [pn'|]; simpl in *;
      try contradiction; [subst pn'|exact I].
    destruct (item_of pn) as [item| |]; simpl; auto.
    now destruct (isSystem item).
Qed.

(** ** The exceptions of the resolver *)

Lemma getParentFolderAndName_throws (v : VirtualFileSystem) (path : string)
    (e : Exception) :
  getParentFolderAndName v path = Throw e -> path_error path e.
Proof.
  rewrite getParentFolderAndName_eq. pose proof (pop_spec _ (segments path)) as Hpop.
  destruct (pop (segments path)) as [[name|] parts].
  - destruct (walk (root v) parts); [discriminate|].
    intros [= <-]. right. now exists parts, name.
  - intros [= <-]. now left.
Qed.

Lemma getParentFolderAndName_returns (v : VirtualFileSystem) (path : string)
    (pn : ParentFolderAndName) :
  getParentFolderAndName v path = Return pn ->
  exists parent name, segments path = parent ++ [name] /\ pname pn = name.
Proof.
  intros H. apply getParentFolderAndName_inv in H as [H _].
  now exists (place (parentFolder pn)), (pname pn).
Qed.

Lemma getFile_throws (v : VirtualFileSystem) (path : string) (e : Exception) :
  getFile v path = Throw e -> path_error path e \/ e = FileNotFound path.
Proof.
  unfold getFile.
  destruct (getParentFolderAndName v path) as [pn|e'] eqn:Hpn; simpl.
  - destruct (item_of pn) as [[f|d]| |]; try discriminate;
      intros [= <-]; now right.
  - intros [= <-]. left. now apply (getParentFolderAndName_throws v).
Qed.

Lemma create_throws (v : VirtualFileSystem) (path : string) (e : Exception)
    (item : string -> VirtualItem) :
  match getParentFolderAndName v path with
  | Return pn =>
      match item_of pn with
      | Undefined => Return (inserted v pn (item (pname pn)))
      | _ => Throw (AlreadyExists (pname pn) path)
      end
  | Throw e => Throw e
  end = Throw e ->
  path_error path e \/ name_taken path e.
Proof.
  destruct (getParentFolderAndName v path) as [pn|e'] eqn:Hpn.
  - destruct (getParentFolderAndName_returns _ _ _ Hpn) as [parent [name [Hs Hn]]].
    rewrite Hn.
    destruct (item_of pn); try discriminate; intros [= <-]; right;
      now exists parent, name.
  - intros [= <-]. left. now apply (getParentFolderAndName_throws v).
Qed.

(** ** A path without segments *)

Lemma no_segments_invalid (v : VirtualFileSystem) (path : string) :
  segments path = [] ->
  getParentFolderAndName v path = Throw (InvalidPath path).
Proof. intros H. now rewrite getParentFolderAndName_eq, H. Qed.

Lemma updateFile_after_update
    (v v1 : VirtualFileSystem) (path first second : string)
    (firstMeta secondMeta : option MetaData) :
  outcome (updateFile v path first firstMeta) = Return v1 ->
  outcome (updateFile v1 path second secondMeta) =
  outcome (updateFile v path second
             (match secondMeta with
              | Some m => Some m
              | None => firstMeta
              end)).
Proof.
  intros H1. rewrite updateFile_eq in H1. simpl in H1.
  destruct (getFile v path) as [found|e] eqn:Hfile; [|discriminate].
  inversion H1; subst v1; clear H1.
  destruct (getFile_inv _ _ _ Hfile) as [pn [Hpn [Hitem Hplace]]].
  destruct found as [pl f]. simpl in Hitem, Hplace. subst pl.
  rewrite (updated_eq _ _ _ _ first firstMeta Hpn Hitem).
  set (f1 := {| file_name := file_name f;
                file_content := first;
                file_metaData := default (file_metaData f) firstMeta |}).
  set (parent1 := with_items (value (parentFolder pn))
                    (set (folder_items (value (parentFolder pn))) (pname pn)
                       (file f1))).
  pose proof (resolve_after_write _ _ _ (fun _ => parent1) Hpn) as Hpn1.
  assert (Hitem1 :
            item_of {| parentFolder := {| place := place (parentFolder pn);
                                          value := parent1 |};
                       pname := pname pn |} = Own (file f1)).
  { unfold item_of, parent1. simpl. apply get_set_same. }
  rewrite !updateFile_eq, Hfile, (getFile_resolved _ _ _ Hpn1), Hitem1. simpl.
  f_equal.
  pose proof (updated_eq _ _ _ _ second secondMeta Hpn1 Hitem1) as E2.
  simpl in E2. rewrite E2. clear E2.
  rewrite (updated_eq _ _ _ _ second _ Hpn Hitem).
  simpl. f_equal. rewrite write_folder_compose. unfold parent1. simpl.
  rewrite set_set. now destruct secondMeta.
Qed.

(** ** Saving to the same path again *)

Lemma updateFile_inserted_same (v : VirtualFileSystem) (path : string)
    (pn : ParentFolderAndName) (f : VirtualFile) :
  getParentFolderAndName v path = Return pn ->
  file_name f = pname pn ->
  outcome (updateFile (inserted v pn (file f)) path (file_content f)
             (Some (file_metaData f))) =
  Return (inserted v pn (file f)).
Proof.
  intros Hpn Hname.
  pose proof (getParentFolderAndName_inv _ _ _ Hpn) as [_ Hwalk].
  rewrite updateFile_eq, (getFile_inserted _ _ _ f Hpn). simpl. f_equal.
  pose proof (resolve_after_write _ _ _
                (fun p => with_items p (set (folder_items p) (pname pn) (file f)))
                Hpn) as Hpn1.
  fold (inserted v pn (file f)) in Hpn1.
  pose proof (updated_eq _ _ _ f (file_content f) (Some (file_metaData f)) Hpn1)
    as E.
  simpl in E. rewrite E by (unfold item_of; simpl; apply get_set_same).
  unfold inserted. simpl. f_equal.
  rewrite write_folder_compose, set_set.
  destruct f as [n c m]. simpl in *.
  rewrite (write_folder_walk _ _
             (fun p => with_items p
                         (set (folder_items p) (pname pn)
                            (file {| file_name := n; file_content := c;
                                     file_metaData := m |})))
             _ Hwalk).
  reflexivity.
Qed.

Lemma createOrUpdateFile_returns_file (v v1 : VirtualFileSystem) (path : string)
    (content : option string) (metaData : option MetaData) :
  outcome (createOrUpdateFile v path content metaData) = Return v1 ->
  exists found, getFile v1 path = Return found.
Proof.
  rewrite createOrUpdateFile_eq, updateFile_eq. simpl.
  destruct (getFile v path) as [found|e] eqn:Hfile; simpl.
  - intros [= <-]. eexists. apply (getFile_updated _ _ _ _ _ Hfile).
  - rewrite createFile_eq. simpl.
    destruct (getParentFolderAndName v path) as [pn|] eqn:Hpn; [|discriminate].
    destruct (item_of pn); try discriminate.
    intros [= <-]. eexists. apply (getFile_inserted _ _ _ _ Hpn).
Qed.

Lemma createOrUpdateFile_again (v v1 : VirtualFileSystem) (path : string)
    (content : option string) (metaData : option MetaData) :
  outcome (createOrUpdateFile v path content metaData) = Return v1 ->
  outcome (createOrUpdateFile v1 path content metaData) = Return v1.
Proof.
  intros H. rewrite createOrUpdateFile_eq in H. rewrite createOrUpdateFile_eq.
  destruct (outcome (updateFile v path _ _)) as [v1'|e] eqn:Hupdate; simpl in H.
  - inversion H; subst v1'; clear H.
    pose proof (updateFile_after_update v v1 path _ (default EmptyString content)
                  _ (Some (default [] metaData)) Hupdate) as E.
    cbv iota in E. rewrite E. unfold MetaData, PlainObject in *.
    rewrite Hupdate. reflexivity.
  - rewrite createFile_eq in H. simpl in H.
    destruct (getParentFolderAndName v path) as [pn|] eqn:Hpn; [|discriminate].
    destruct (item_of pn); try discriminate.
    inversion H; subst v1; clear H.
    pose proof (updateFile_inserted_same _ _ _
                  (createVirtualFile (pname pn) (default EmptyString content)
                     (Some (default [] metaData))) Hpn eq_refl) as E.
    simpl in E. unfold MetaData, PlainObject in *. rewrite E. reflexivity.
Qed.

(** ** The order of Object.values after a delete *)

Section DeleteOrder.
Variable A : Type.
Implicit Types (o : PlainObject A) (key : string).

Lemma insert_by_index_first i (e : string * A) sorted :
  Forall (fun je => (i < fst je)%N) sorted ->
  insert_by_index i e sorted = (i, e) :: sorted.
Proof.
  destruct sorted as [|[j f] rest]; [reflexivity|].
  intros H. inversion H; subst. simpl in *.
  destruct (N.leb_spec j i); [lia|reflexivity].
Qed.

Lemma insert_by_index_filter (keep : string * A -> bool) i e sorted :
  StronglySorted (@by_index A) sorted ->
  filter (fun je => keep (snd je)) (insert_by_index i e sorted) =
  if keep e
  then insert_by_index i e (filter (fun je => keep (snd je)) sorted)
  else filter (fun je => keep (snd je)) sorted.
Proof.
  induction 1 as [|[j f] rest Hsorted IH Hall]; simpl.
  - now destruct (keep e).
  - destruct (N.leb_spec j i) as [Hle|Hlt]; simpl.
    + rewrite IH. destruct (keep f), (keep e); simpl; try reflexivity.
      now destruct (N.leb_spec j i); [|lia].
    + destruct (keep e) eqn:He; [|reflexivity].
      symmetry. apply (insert_by_index_first i e).
      assert (Hrest : Forall (fun je : N * (string * A) => (i < fst je)%N)
                        (filter (fun je => keep (snd je)) rest)).
      { apply Forall_forall. intros x Hx. apply filter_In in Hx as [Hx _].
        rewrite Forall_forall in Hall. specialize (Hall x Hx).
        unfold by_index in Hall. simpl in Hall. lia. }
      destruct (keep f); [constructor; [exact Hlt|]|]; exact Hrest.
Qed.

Lemma index_entries_filter (keep : string * A -> bool) o :
  index_entries (filter keep o) =
  filter (fun je => keep (snd je)) (index_entries o).
Proof.
  induction o as [|[k a] rest IH]; [reflexivity|]. simpl.
  destruct (array_index k) as [i|] eqn:Hk.
  - rewrite (insert_by_index_filter keep i (k, a) _ (index_entries_sorted A rest)).
    destruct (keep (k, a)); simpl; [now rewrite Hk, IH|exact IH].
  - destruct (keep (k, a)); simpl; [now rewrite Hk|exact IH].
Qed.

Lemma filter_filter_comm (B : Type) (f g : B -> bool) (l : list B) :
  filter f (filter g l) = filter g (filter f l).
Proof.
  induction l as [|b l IH]; [reflexivity|]. simpl.
  destruct (f b) eqn:Hf, (g b) eqn:Hg; simpl; rewrite ?Hf, ?Hg, IH; reflexivity.
Qed.

Lemma map_snd_filter (B C : Type) (keep : C -> bool) (l : list (B * C)) :
  map snd (filter (fun bc => keep (snd bc)) l) = filter keep (map snd l).
Proof.
  induction l as [|[b c] l IH]; [reflexivity|]. simpl.
  destruct (keep c); simpl; now rewrite IH.
Qed.

Lemma Object_entries_filter (keep : string * A -> bool) o :
  Object_entries (filter keep o) = filter keep (Object_entries o).
Proof.
  unfold Object_entries, string_entries.
  now rewrite index_entries_filter, map_snd_filter, filter_app, filter_filter_comm.
Qed.

Lemma Object_values_delete o key :
  Object_values (JS.delete o key) =
  map snd (filter (other_key A key) (Object_entries o)).
Proof.
  unfold Object_values, JS.delete. f_equal.
  apply (Object_entries_filter (other_key A key)).
Qed.

End DeleteOrder.

(** ** The parent path *)

Lemma segments_join_pieces (pieces : list string) :
  Forall (fun piece => slash_free piece = true) pieces ->
  segments (join pieces) = filter Boolean pieces.
Proof.
  induction 1 as [|piece rest Hpiece Hrest IH]; [reflexivity|].
  destruct rest as [|next rest].
  - change (join [piece]) with piece.
    unfold segments. now rewrite (split_slash_free _ Hpiece).
  - change (join (piece :: next :: rest))
      with (piece ++ String slash (join (next :: rest)))%string.
    rewrite segments_app_slash, IH.
    unfold segments. rewrite (split_slash_free _ Hpiece).
    change (piece :: next :: rest) with ([piece] ++ next :: rest).
    now rewrite filter_app.
Qed.

Lemma filter_removelast (pieces : list string) :
  filter Boolean (removelast pieces) =
  if Boolean (last pieces EmptyString)
  then removelast (filter Boolean pieces)
  else filter Boolean pieces.
Proof.
  destruct pieces as [|p ps]; [reflexivity|].
  assert (H : p :: ps <> []) by discriminate.
  destruct (exists_last H) as [front [x Hx]]. rewrite Hx.
  rewrite removelast_last, last_last, filter_app. simpl.
  destruct (Boolean x); [now rewrite removelast_last|now rewrite app_nil_r].
Qed.

Lemma Forall_removelast (A : Type) (P : A -> Prop) (l : list A) :
  Forall P l -> Forall P (removelast l).
Proof.
  induction 1 as [|a l Ha Hl IH]; [constructor|].
  destruct l; [constructor|]. simpl. constructor; assumption.
Qed.

Lemma segments_getParentPath (path : string) :
  segments (getParentPath path) =
  if Boolean (last (split path) EmptyString)
  then removelast (segments path)
  else segments path.
Proof.
  unfold getParentPath.
  rewrite segments_join_pieces
    by (apply Forall_removelast, split_pieces_slash_free).
  apply filter_removelast.
Qed.

Lemma Boolean_segments (path : string) : segments path <> [] -> Boolean path = true.
Proof. destruct path; [intros H; now elim H|reflexivity]. Qed.

(** ** What exists *)

Lemma read_walk (d found : VirtualFolder) (parts : list string) :
  parts <> [] -> walk d parts = Some found ->
  read d parts = Some (Own (folder found)).
Proof.
  intros Hparts Hwalk.
  destruct (exists_last Hparts) as [front [x ->]].
  rewrite walk_app in Hwalk. rewrite read_app.
  destruct (walk d front) as [g|]; [|discriminate]. simpl in Hwalk.
  destruct (get (folder_items g) x) as [[f|next]| |]; try discriminate.
  now inversion Hwalk.
Qed.

Lemma exists_folder (v : VirtualFileSystem) (path : string) (found : VirtualFolder) :
  segments path <> [] -> walk (root v) (segments path) = Some found ->
  exists_ v path = true.
Proof.
  intros Hparts Hwalk. unfold exists_. rewrite getItem_read.
  destruct (segments path) as [|part rest]; [now elim Hparts|].
  cbv zeta. now rewrite (read_walk _ _ _ Hparts Hwalk).
Qed.

Lemma exists_same_segments (v : VirtualFileSystem) (p q : string) :
  segments p = segments q -> exists_ v p = exists_ v q.
Proof.
  intros H. unfold exists_. rewrite !getItem_read, H.
  now destruct (segments q).
Qed.

Lemma read_fileSystemAtom (fs : VirtualFileSystem) :
  fileSystemAtom_read {| stored_root := toJSON fs |} = fs.
Proof. now destruct fs. Qed.

Lemma createOrUpdateFile_resolves (v v1 : VirtualFileSystem) (path : string)
    (content : option string) (metaData : option MetaData) :
  outcome (createOrUpdateFile v path content metaData) = Return v1 ->
  (exists pn, getParentFolderAndName v path = Return pn) /\
  readFile v1 path = Return (default EmptyString content).
Proof.
  rewrite createOrUpdateFile_eq, updateFile_eq. simpl.
  destruct (getFile v path) as [found|e] eqn:Hfile; simpl.
  - intros [= <-].
    destruct (getFile_inv _ _ _ Hfile) as [pn [Hpn _]].
    split; [now exists pn|].
    apply (updateFile_found v path _ _ found Hfile).
  - rewrite createFile_eq. simpl.
    destruct (getParentFolderAndName v path) as [pn|] eqn:Hpn; [|discriminate].
    destruct (item_of pn); try discriminate.
    intros [= <-]. split; [now exists pn|].
    unfold readFile. now rewrite (getFile_inserted _ _ _ _ Hpn).
Qed.

(** ** What an operation writes *)

Lemma folder_metaData_write_folder (d : VirtualFolder) (place : list string)
    (change : VirtualFolder -> VirtualFolder) :
  (forall p, folder_metaData (change p) = folder_metaData p) ->
  folder_metaData (write_folder d place change) = folder_metaData d.
Proof.
  intros Hchange. destruct place as [|part rest]; simpl; [apply Hchange|].
  now destruct (own (folder_items d) part) as [[f|sub]|].
Qed.

Lemma invoke_writes (v v2 : VirtualFileSystem) (op : Operation) :
  outcome (invoke v op) = Return v2 ->
  exists pn change,
    getParentFolderAndName v (path_of op) = Return pn /\
    (forall p, folder_metaData (change p) = folder_metaData p) /\
    root v2 = write_folder (root v) (place (parentFolder pn)) change.
Proof.
  assert (Hcreate : forall path item,
    match getParentFolderAndName v path with
    | Return pn =>
        match item_of pn with
        | Undefined => Return (inserted v pn (item (pname pn)))
        | _ => Throw (AlreadyExists (pname pn) path)
        end
    | Throw e => Throw e
    end = Return v2 ->
    exists pn change,
      getParentFolderAndName v path = Return pn /\
      (forall p, folder_metaData (change p) = folder_metaData p) /\
      root v2 = write_folder (root v) (place (parentFolder pn)) change).
  { intros path item.
    destruct (getParentFolderAndName v path) as [pn|]; [|discriminate].
    destruct (item_of pn); try discriminate. intros [= <-].
    exists pn. eexists. split; [reflexivity|]. split; [|reflexivity].
    reflexivity. }
  assert (Hupdate : forall path content metaData,
    outcome (updateFile v path content metaData) = Return v2 ->
    exists pn change,
      getParentFolderAndName v path = Return pn /\
      (forall p, folder_metaData (change p) = folder_metaData p) /\
      root v2 = write_folder (root v) (place (parentFolder pn)) change).
  { intros path content metaData. rewrite updateFile_eq. simpl.
    destruct (getFile v path) as [found|] eqn:Hfile; [|discriminate].
    intros [= <-].
    destruct (getFile_inv _ _ _ Hfile) as [pn [Hpn [_ Hplace]]].
    exists pn. eexists. split; [exact Hpn|].
    unfold updated, write_file. simpl. rewrite Hplace, pop_app.
    rewrite write_folder_compose. split; [|reflexivity].
    intros p. simpl.
    destruct (own (folder_items p) (pname pn)) as [[f|d]|] eqn:E; simpl;
      rewrite ?own_set_same, ?E; reflexivity. }
  destruct op as [path content metaData|path metaData|path content metaData
                 |path content metaData|path]; simpl.
  - rewrite createFile_eq. simpl.
    apply (Hcreate path (fun name =>
             file (createVirtualFile name (default EmptyString content)
                     (Some (default [] metaData))))).
  - rewrite createFolder_eq. simpl.
    apply (Hcreate path (fun name =>
             folder (createVirtualFolder name (Some (default [] metaData))))).
  - apply Hupdate.
  - rewrite createOrUpdateFile_eq.
    destruct (outcome (updateFile v path _ _)) as [fs|] eqn:Hu; simpl.
    + intros [= <-]. now apply Hupdate in Hu.
    + rewrite createFile_eq. simpl.
      apply (Hcreate path (fun name =>
               file (createVirtualFile name (default EmptyString content)
                       (Some (default [] metaData))))).
  - rewrite delete_eq. simpl.
    destruct (getParentFolderAndName v path) as [pn|]; [|discriminate].
    destruct (item_of pn) as [item| |]; try discriminate.
    destruct (isSystem item); [discriminate|]. intros [= <-].
    exists pn. eexists. split; [reflexivity|]. split; [|reflexivity].
    reflexivity.
Qed.

Lemma write_below (v : VirtualFileSystem) (pn : ParentFolderAndName)
    (d : VirtualFolder) (rest : list string)
    (change : VirtualFolder -> VirtualFolder) :
  walk (root v) (place (parentFolder pn)) = Some (value (parentFolder pn)) ->
  write_folder (root (inserted v pn (folder d)))
    ((place (parentFolder pn) ++ [pname pn]) ++ rest) change =
  root (inserted v pn (folder (write_folder d rest change))).
Proof.
  intros Hwalk. unfold inserted. simpl.
  rewrite <- app_assoc, write_folder_app, write_folder_compose.
  rewrite (write_folder_walk _ _ _ _ Hwalk).
  rewrite (write_folder_walk _ _
             (fun p => with_items p
                         (set (folder_items p) (pname pn)
                            (folder (write_folder d rest change))))
             _ Hwalk).
  f_equal. simpl. rewrite own_set_same.
  now rewrite with_items_with_items, set_set.
Qed.

Lemma removelast_app_cons (A : Type) (l below : list A) :
  below <> [] -> removelast (l ++ below) = l ++ removelast below.
Proof. intros H. now apply removelast_app. Qed.

Lemma run_inside_inserted (path : string) (ops : list Operation) :
  forall (v b : VirtualFileSystem) (pn : ParentFolderAndName) (d : VirtualFolder),
    getParentFolderAndName v path = Return pn ->
    Forall (inside path) ops ->
    run ops (inserted v pn (folder d)) = Return b ->
    exists d', b = inserted v pn (folder d') /\
               folder_metaData d' = folder_metaData d.
Proof.
  induction ops as [|op ops IH]; intros v b pn d Hpn Hops; simpl.
  - intros [= <-]. now exists d.
  - inversion Hops as [|? ? [below [Hbelow Hsegments]] Hrest]; subst.
    destruct (outcome (invoke (inserted v pn (folder d)) op)) as [a|] eqn:Hop;
      [|discriminate].
    intros Hrun.
    destruct (invoke_writes _ _ _ Hop) as [pn' [change [Hpn' [Hmeta Hroot]]]].
    pose proof (getParentFolderAndName_inv _ _ _ Hpn) as [Hs Hwalk].
    apply getParentFolderAndName_inv in Hpn' as [Hs' _].
    assert (Hplace : place (parentFolder pn') =
                     (place (parentFolder pn) ++ [pname pn]) ++ removelast below).
    { apply (f_equal (@removelast string)) in Hs'.
      rewrite removelast_last, Hsegments, Hs in Hs'.
      rewrite <- Hs'. now apply removelast_app_cons. }
    rewrite Hplace, (write_below _ _ _ _ _ Hwalk) in Hroot.
    assert (Ha : a = inserted v pn
                       (folder (write_folder d (removelast below) change))).
    { destruct a as [r]. simpl in Hroot. now rewrite Hroot. }
    rewrite Ha in Hrun.
    destruct (IH _ _ _ _ Hpn Hrest Hrun) as [d' [Hb Hd']].
    exists d'. split; [exact Hb|].
    now rewrite Hd', folder_metaData_write_folder.
Qed.

Lemma delete_after_run_inside (v a b : VirtualFileSystem) (path : string)
    (metaData : option MetaData) (ops : list Operation) :
  outcome (createFolder v path metaData) = Return a ->
  truthy_property (get (default [] metaData) "isSystem") = false ->
  Forall (inside path) ops ->
  run ops a = Return b ->
  outcome (delete b path) = Return v.
Proof.
  intros Hcreate Hsys Hops Hrun. rewrite createFolder_eq in Hcreate.
  simpl in Hcreate.
  destruct (getParentFolderAndName v path) as [pn|] eqn:Hpn; [|discriminate].
  destruct (item_of pn) eqn:Hitem; try discriminate.
  inversion Hcreate; subst a; clear Hcreate.
  destruct (run_inside_inserted _ _ _ _ _ _ Hpn Hops Hrun) as [d' [-> Hmeta]].
  apply (delete_inserted _ _ _ _ Hpn Hitem).
  unfold isSystem. simpl. now rewrite Hmeta.
Qed.

(** ** Programs *)

Lemma program_paths (id : string) :
  segments (PROGRAMS_PATH ++ "/" ++ id) = ["system"; "programs"] ++ segments id /\
  segments ((PROGRAMS_PATH ++ "/" ++ id) ++ "/main.exe") =
    segments (PROGRAMS_PATH ++ "/" ++ id) ++ ["main.exe"] /\
  segments ((PROGRAMS_PATH ++ "/" ++ id) ++ "/index.html") =
    segments (PROGRAMS_PATH ++ "/" ++ id) ++ ["index.html"].
Proof.
  split; [|split].
  - change (PROGRAMS_PATH ++ "/" ++ id)%string
      with (PROGRAMS_PATH ++ String slash id)%string.
    now rewrite segments_app_slash.
  - change ((PROGRAMS_PATH ++ "/" ++ id) ++ "/main.exe")%string
      with ((PROGRAMS_PATH ++ "/" ++ id) ++ String slash "main.exe")%string.
    now rewrite segments_app_slash.
  - change ((PROGRAMS_PATH ++ "/" ++ id) ++ "/index.html")%string
      with ((PROGRAMS_PATH ++ "/" ++ id) ++ String slash "index.html")%string.
    now rewrite segments_app_slash.
Qed.

Lemma programs_inside (JSON_stringify : PlainObject Value -> string)
    (payload : ProgramPayload) :
  Forall (inside (PROGRAMS_PATH ++ "/" ++ program_id payload))
    [ CreateFile ((PROGRAMS_PATH ++ "/" ++ program_id payload) ++ "/main.exe")
        (Some (JSON_stringify (program_rest payload))) None;
      CreateFile ((PROGRAMS_PATH ++ "/" ++ program_id payload) ++ "/index.html")
        (Some (default EmptyString (program_code payload))) None ].
Proof.
  destruct (program_paths (program_id payload)) as [_ [Hmain Hindex]].
  repeat constructor.
  - exists ["main.exe"]. split; [discriminate|exact Hmain].
  - exists ["index.html"]. split; [discriminate|exact Hindex].
Qed.

(** ** The keys and values of an object *)

Section Enumeration.
Variable A : Type.
Implicit Types (o : PlainObject A).

Lemma filter_partition (B : Type) (f : B -> bool) (l : list B) :
  Permutation (filter f l ++ filter (fun b => negb (f b)) l) l.
Proof.
  induction l as [|b l IH]; [constructor|]. simpl.
  destruct (f b); simpl.
  - now constructor.
  - rewrite <- Permutation_middle. now constructor.
Qed.

Lemma Object_entries_perm o : Permutation (Object_entries o) o.
Proof.
  unfold Object_entries, string_entries.
  rewrite (index_entries_perm A o).
  rewrite <- (filter_partition _ (@has_array_index A) o) at 3.
  apply Permutation_app_head. apply Permutation_refl'.
  apply filter_ext. intros kv. unfold has_array_index.
  now destruct (array_index (fst kv)).
Qed.

Lemma own_In o key a : own o key = Some a -> In (key, a) o.
Proof.
  induction o as [|[k b] rest IH]; simpl; [discriminate|].
  destruct (String.eqb_spec k key) as [->|Hne].
  - intros [= ->]. now left.
  - intros H. right. now apply IH.
Qed.


Lemma own_Object_values o key a : own o key = Some a -> In a (Object_values o).
Proof.
  intros H. apply own_In in H. unfold Object_values.
  apply (in_map snd _ (key, a)).
  apply (Permutation_in _ (Permutation_sym (Object_entries_perm o))). exact H.
Qed.


End Enumeration.

(** ** The folder of a program *)

Lemma getFolder_read (v : VirtualFileSystem) (path : string)
    (found : Located VirtualFolder) :
  getFolder v path = Return found ->
  walk (root v) (segments path) = Some (value found).
Proof.
  rewrite getFolder_eq. destruct (walk (root v) (segments path)); [|discriminate].
  now intros [= <-].
Qed.

Lemma getFolder_inserted (v : VirtualFileSystem) (path : string)
    (pn : ParentFolderAndName) (d : VirtualFolder) :
  getParentFolderAndName v path = Return pn ->
  getFolder (inserted v pn (folder d)) path =
  Return {| place := segments path; value := d |}.
Proof.
  intros Hpn. apply getParentFolderAndName_inv in Hpn as [Hs Hwalk].
  rewrite getFolder_eq, Hs, walk_app. unfold inserted. simpl root.
  rewrite (walk_write_folder _ _ _ _ Hwalk). simpl.
  now rewrite get_set_same.
Qed.

Lemma add_program_folder (JSON_stringify : PlainObject Value -> string)
    (JSON_parse : string -> Result Value)
    (fs fs1 : VirtualFileSystem) (payload : ProgramPayload) :
  programsReducer JSON_stringify JSON_parse fs (ADD_PROGRAM payload) = Return fs1 ->
  segment (program_id payload) = true ->
  walk (root fs1) (["system"; "programs"] ++ [program_id payload]) =
  Some (program_folder JSON_stringify payload).
Proof.
  unfold programsReducer.
  set (path := (PROGRAMS_PATH ++ "/" ++ program_id payload)%string).
  intros Hadd Hid. cbn [run invoke] in Hadd.
  destruct (outcome (createFolder fs path None)) as [a|] eqn:Hcreate;
    [|discriminate].
  assert (Hpath : segments path = ["system"; "programs"] ++ [program_id payload]).
  { unfold path. destruct (program_paths (program_id payload)) as [H _].
    now rewrite H, (segments_segment _ Hid). }
  rewrite createFolder_eq in Hcreate. simpl in Hcreate.
  destruct (getParentFolderAndName fs path) as [pn|] eqn:Hpn; [|discriminate].
  destruct (item_of pn); try discriminate.
  inversion Hcreate; subst a; clear Hcreate.
  pose proof (getParentFolderAndName_inv _ _ _ Hpn) as [Hs _].
  rewrite Hpath in Hs. apply app_inj_tail in Hs as [_ Hname].
  pose proof (create_all_in_folder
                [ NewFile "main.exe"
                    (Some (JSON_stringify (program_rest payload))) None;
                  NewFile "index.html"
                    (Some (default EmptyString (program_code payload))) None ]
                _ fs1 path _
                (getFolder_inserted _ _ _
                   (createVirtualFolder (pname pn) (Some [])) Hpn)) as Hall.
  apply getFolder_read in Hall.
  - rewrite Hpath in Hall. rewrite Hall. simpl. now rewrite <- Hname.
  - repeat constructor.
  - exact Hadd.
Qed.

(** ** Sets and sorted arrays of strings *)










(** ** Writes that keep the outline *)

Section MapValues.
Variables (A B : Type) (g : A -> B).
Implicit Types (o : PlainObject A).

Lemma own_map_values o key :
  own (map_values g o) key = option_map g (own o key).
Proof.
  induction o as [|[k a] rest IH]; [reflexivity|]. simpl.
  now destruct (String.eqb k key).
Qed.

Lemma map_values_set o key a b :
  own o key = Some a -> g b = g a ->
  map_values g (set o key b) = map_values g o.
Proof.
  intros Hown Hg. induction o as [|[k c] rest IH]; [discriminate|].
  simpl in *. destruct (String.eqb k key).
  - inversion Hown; subst c. simpl. now rewrite Hg.
  - simpl. now rewrite IH.
Qed.

Lemma insert_by_index_map_values i k a sorted :
  map (fun je => (fst je, (fst (snd je), g (snd (snd je)))))
      (insert_by_index i (k, a) sorted) =
  insert_by_index i (k, g a)
    (map (fun je => (fst je, (fst (snd je), g (snd (snd je))))) sorted).
Proof.
  induction sorted as [|[j [k' a']] rest IH]; [reflexivity|]. simpl.
  destruct (N.leb j i); simpl; [now rewrite IH|reflexivity].
Qed.

Lemma index_entries_map_values o :
  index_entries (map_values g o) =
  map (fun je => (fst je, (fst (snd je), g (snd (snd je))))) (index_entries o).
Proof.
  induction o as [|[k a] rest IH]; [reflexivity|]. simpl.
  destruct (array_index k); [|exact IH].
  now rewrite insert_by_index_map_values, IH.
Qed.

Lemma Object_values_map_values o :
  Object_values (map_values g o) = map g (Object_values o).
Proof.
  unfold Object_values, Object_entries, string_entries.
  rewrite index_entries_map_values, !map_app, !map_map. f_equal.
  unfold map_values.
  induction o as [|[k a] rest IH]; [reflexivity|]. simpl.
  destruct (array_index k); simpl; now rewrite IH.
Qed.

End MapValues.

Lemma same_outline_refl (a : option VirtualFolder) : same_outline a a.
Proof. destruct a; simpl; auto. Qed.

Lemma outline_get (x y : VirtualFolder) (key : string) :
  outline x = outline y ->
  match get (folder_items x) key, get (folder_items y) key with
  | Own (file _), Own (file _) => True
  | Own (folder _), Own (folder _) => True
  | Inherited, Inherited => True
  | Undefined, Undefined => True
  | _, _ => False
  end.
Proof.
  intros H. apply (f_equal (fun o => own o key)) in H.
  unfold outline in H. rewrite !own_map_values in H. unfold get.
  destruct (own (folder_items x) key) as [[f|d]|],
           (own (folder_items y) key) as [[f'|d']|];
    simpl in H; try discriminate; auto.
  now destruct (inherited key).
Qed.

Lemma walks_alike_file (d : VirtualFolder) (key : string) (f f' : VirtualFile) :
  own (folder_items d) key = Some (file f) ->
  file_name f' = file_name f ->
  walks_alike d (with_items d (set (folder_items d) key (file f'))).
Proof.
  intros Hown Hname [|part rest]; simpl.
  - split; [reflexivity|]. unfold outline. simpl.
    apply (map_values_set _ _ label _ _ (file f) (file f') Hown).
    unfold label. simpl. now rewrite Hname.
  - destruct (String.eqb_spec key part) as [<-|Hne].
    + rewrite get_set_same. apply get_own in Hown. now rewrite Hown.
    + rewrite (get_set_other _ _ _ _ _ Hne). apply same_outline_refl.
Qed.

Lemma walks_alike_write_folder (change : VirtualFolder -> VirtualFolder)
    (place : list string) :
  forall d found,
    walk d place = Some found ->
    walks_alike found (change found) ->
    walks_alike d (write_folder d place change).
Proof.
  induction place as [|part rest IH]; intros d found Hwalk Hchange.
  - simpl in *. now inversion Hwalk; subst.
  - simpl in Hwalk.
    destruct (get (folder_items d) part) as [[f|sub]| |] eqn:Hget;
      try discriminate.
    apply get_own in Hget. simpl. rewrite Hget.
    specialize (IH sub found Hwalk Hchange).
    intros [|p ps]; simpl.
    + split; [reflexivity|]. unfold outline. simpl.
      apply (map_values_set _ _ label _ _ (folder sub) _ Hget).
      unfold label. simpl. f_equal. apply (IH []).
    + destruct (String.eqb_spec part p) as [<-|Hne].
      * rewrite get_set_same. apply get_own in Hget. rewrite Hget. apply IH.
      * rewrite (get_set_other _ _ _ _ _ Hne). apply same_outline_refl.
Qed.

Lemma updateFile_walks_alike (v v1 : VirtualFileSystem) (path content : string)
    (metaData : option MetaData) :
  outcome (updateFile v path content metaData) = Return v1 ->
  walks_alike (root v) (root v1).
Proof.
  rewrite updateFile_eq. simpl.
  destruct (getFile v path) as [found|] eqn:Hfile; [|discriminate].
  intros [= <-].
  destruct (getFile_inv _ _ _ Hfile) as [pn [Hpn [Hitem Hplace]]].
  destruct found as [pl f]. simpl in Hitem, Hplace. subst pl.
  rewrite (updated_eq _ _ _ _ content metaData Hpn Hitem). simpl.
  apply getParentFolderAndName_inv in Hpn as [_ Hwalk].
  apply (walks_alike_write_folder _ _ _ _ Hwalk).
  apply get_own in Hitem. now apply (walks_alike_file _ _ f).
Qed.

Lemma walks_alike_readers (v v1 : VirtualFileSystem) :
  walks_alike (root v) (root v1) ->
  forall other,
    exists_ v1 other = exists_ v other /\
    labels (listItems v1 (Some other)) = labels (listItems v (Some other)).
Proof.
  intros Halike other.
  split.
  - unfold exists_. rewrite !getItem_read.
    destruct (segments other) as [|part rest] eqn:Hparts; [reflexivity|].
    cbv zeta.
    assert (Hne : part :: rest <> []) by discriminate.
    destruct (exists_last Hne) as [front [x Hx]]. rewrite Hx, !read_app.
    specialize (Halike front).
    destruct (walk (root v1) front) as [d1|], (walk (root v) front) as [d|];
      simpl in Halike; try contradiction; [|reflexivity].
    destruct Halike as [_ Houtline].
    pose proof (outline_get _ _ x Houtline) as Hget.
    destruct (get (folder_items d1) x) as [[f1|s1]| |],
             (get (folder_items d) x) as [[f|s]| |];
      try contradiction; reflexivity.
  - unfold labels, listItems. rewrite !getFolder_eq.
    specialize (Halike (segments other)).
    destruct (walk (root v1) (segments other)) as [d1|],
             (walk (root v) (segments other)) as [d|];
      simpl in Halike; try contradiction; [|reflexivity].
    destruct Halike as [_ Houtline]. simpl. f_equal.
    rewrite <- !Object_values_map_values. f_equal. exact Houtline.
Qed.






(** ** The entries of the programs *)

Lemma program_entries_programs (JSON_parse : string -> Result Value)
    (items : list VirtualItem) :
  forall entries,
    program_entries JSON_parse items = Return entries ->
    map entry_id entries = map name (filter is_program items) /\
    map entry_name entries = map name (filter is_program items) /\
    map entry_code entries = map code_of (filter is_program items).
Proof.
  induction items as [|item items IH]; intros entries; simpl.
  - intros [= <-]. auto.
  - destruct (program_entries JSON_parse items) as [rest|] eqn:Hrest.
    + specialize (IH rest eq_refl) as [Hid [Hname Hcode]].
      destruct item as [f|d]; simpl.
      * intros [= <-]. auto.
      * destruct (get (folder_items d) "main.exe") as [[main|sub]| |]; simpl;
          try (intros [= <-]; auto).
        destruct (JSON_parse (file_content main)); simpl; [|discriminate].
        intros [= <-]. simpl. now rewrite Hid, Hname, Hcode.
    + destruct (getProgramEntry JSON_parse item); discriminate.
Qed.

(** ** Well-formed trees *)

Section EntriesOk.
Variable ok : VirtualItem -> bool.
Implicit Types (o : PlainObject VirtualItem) (key : string) (item : VirtualItem).

Lemma entries_ok_own o key item :
  entries_ok ok o = true -> own o key = Some item ->
  name item = key /\ segment key = true /\ ok item = true.
Proof.
  induction o as [|[k x] rest IH]; simpl; [discriminate|].
  intros H Hown. apply andb_prop in H as [H Hrest].
  apply andb_prop in H as [H Hok]. apply andb_prop in H as [H _].
  apply andb_prop in H as [Hname Hsegment].
  destruct (String.eqb_spec k key) as [->|Hne].
  - inversion Hown; subst x. apply String.eqb_eq in Hname. auto.
  - now apply IH.
Qed.

Lemma entries_ok_In o key item :
  entries_ok ok o = true -> In (key, item) o -> own o key = Some item.
Proof.
  induction o as [|[k x] rest IH]; simpl; [contradiction|].
  intros H [Hhead|Hin].
  - inversion Hhead; subst. now rewrite String.eqb_refl.
  - apply andb_prop in H as [H Hrest].
    apply andb_prop in H as [H _]. apply andb_prop in H as [_ Hfresh].
    destruct (String.eqb_spec k key) as [->|Hne]; [|now apply IH].
    apply negb_true_iff in Hfresh.
    assert (Hex : existsb (String.eqb key) (map fst rest) = true).
    { apply existsb_exists. exists key. split; [|apply String.eqb_refl].
      now apply (in_map fst _ (key, item)). }
    congruence.
Qed.

Lemma keys_set o key item k :
  existsb (String.eqb k) (map fst (set o key item)) =
  (existsb (String.eqb k) (map fst o) || String.eqb k key)%bool.
Proof.
  induction o as [|[k' x] rest IH]; simpl.
  - now rewrite orb_false_r.
  - destruct (String.eqb_spec k' key) as [->|Hne]; simpl.
    + destruct (String.eqb k key); [|now rewrite orb_false_r].
      now rewrite !orb_true_r.
    + rewrite IH. now rewrite orb_assoc.
Qed.

Lemma entries_ok_set o key item :
  entries_ok ok o = true ->
  name item = key -> segment key = true -> ok item = true ->
  entries_ok ok (set o key item) = true.
Proof.
  intros H Hname Hsegment Hok.
  induction o as [|[k x] rest IH]; simpl.
  - now rewrite Hname, String.eqb_refl, Hsegment, Hok.
  - simpl in H. apply andb_prop in H as [H Hrest].
    apply andb_prop in H as [H Hx]. apply andb_prop in H as [H Hfresh].
    apply andb_prop in H as [Hk Hs].
    destruct (String.eqb_spec k key) as [->|Hne]; simpl.
    + now rewrite Hname, String.eqb_refl, Hsegment, Hfresh, Hok, Hrest.
    + rewrite Hk, Hs, Hx, (IH Hrest), keys_set.
      apply negb_true_iff in Hfresh. rewrite Hfresh.
      now destruct (String.eqb_spec k key).
Qed.

Lemma keys_delete o key k :
  existsb (String.eqb k) (map fst o) = false ->
  existsb (String.eqb k) (map fst (JS.delete o key)) = false.
Proof.
  induction o as [|[k' x] rest IH]; simpl; [reflexivity|].
  intros H. apply orb_false_elim in H as [Hk Hrest].
  destruct (String.eqb k' key); simpl; [now apply IH|].
  now rewrite Hk, IH.
Qed.

Lemma entries_ok_delete o key :
  entries_ok ok o = true -> entries_ok ok (JS.delete o key) = true.
Proof.
  induction o as [|[k x] rest IH]; simpl; [reflexivity|].
  intros H. apply andb_prop in H as [H Hrest].
  apply andb_prop in H as [H Hx]. apply andb_prop in H as [H Hfresh].
  destruct (String.eqb k key); simpl; [now apply IH|].
  rewrite H, Hx, (IH Hrest). apply negb_true_iff in Hfresh.
  now rewrite (keys_delete _ _ _ Hfresh).
Qed.

End EntriesOk.

Lemma folder_name_write_folder (d : VirtualFolder) (place : list string)
    (change : VirtualFolder -> VirtualFolder) :
  (forall p, folder_name (change p) = folder_name p) ->
  folder_name (write_folder d place change) = folder_name d.
Proof.
  intros Hchange. destruct place as [|part rest]; simpl; [apply Hchange|].
  now destruct (own (folder_items d) part) as [[f|sub]|].
Qed.

Lemma well_formed_write_folder (change : VirtualFolder -> VirtualFolder)
    (place : list string) :
  gentle change ->
  forall d,
    well_formed_folder d = true ->
    well_formed_folder (write_folder d place change) = true.
Proof.
  intros [Hname Hwf].
  induction place as [|part rest IH]; intros d Hd; simpl; [now apply Hwf|].
  destruct (own (folder_items d) part) as [[f|sub]|] eqn:Hown; try exact Hd.
  destruct (entries_ok_own _ _ _ _ Hd Hown) as [Hpart [Hsegment Hsub]].
  apply entries_ok_set; try assumption.
  - simpl. now rewrite folder_name_write_folder.
  - apply (IH sub Hsub).
Qed.

Lemma well_formed_walk (parts : list string) :
  forall d found,
    well_formed_folder d = true -> walk d parts = Some found ->
    well_formed_folder found = true.
Proof.
  induction parts as [|part rest IH]; intros d found Hd; simpl.
  - now intros [= <-].
  - destruct (get (folder_items d) part) as [[f|sub]| |] eqn:Hget;
      try discriminate.
    apply get_own in Hget.
    destruct (entries_ok_own _ _ _ _ Hd Hget) as [_ [_ Hsub]].
    now apply IH.
Qed.

Lemma gentle_insert (key : string) (item : VirtualItem) :
  name item = key -> segment key = true -> well_formed_item item = true ->
  gentle (fun p => with_items p (set (folder_items p) key item)).
Proof.
  intros Hname Hsegment Hitem. split; [reflexivity|].
  intros p Hp. now apply entries_ok_set.
Qed.

Lemma gentle_delete (key : string) :
  gentle (fun p => with_items p (JS.delete (folder_items p) key)).
Proof.
  split; [reflexivity|]. intros p Hp. now apply entries_ok_delete.
Qed.

Lemma gentle_file (key : string) (change : VirtualFile -> VirtualFile) :
  (forall f, file_name (change f) = file_name f) ->
  gentle (fun p =>
            match own (folder_items p) key with
            | Some (file f) =>
                with_items p (set (folder_items p) key (file (change f)))
            | _ => p
            end).
Proof.
  intros Hchange. split.
  - intros p. now destruct (own (folder_items p) key) as [[f|d]|].
  - intros p Hp. destruct (own (folder_items p) key) as [[f|d]|] eqn:Hown;
      try exact Hp.
    destruct (entries_ok_own _ _ _ _ Hp Hown) as [Hname [Hsegment _]].
    apply entries_ok_set; try assumption; [|reflexivity].
    simpl in *. now rewrite Hchange.
Qed.

Lemma gentle_compose (first second : VirtualFolder -> VirtualFolder) :
  gentle first -> gentle second -> gentle (fun p => second (first p)).
Proof.
  intros [Hn1 Hw1] [Hn2 Hw2]. split.
  - intros p. now rewrite Hn2, Hn1.
  - intros p Hp. now apply Hw2, Hw1.
Qed.

Lemma pname_segment (v : VirtualFileSystem) (path : string)
    (pn : ParentFolderAndName) :
  getParentFolderAndName v path = Return pn -> segment (pname pn) = true.
Proof.
  intros Hpn. apply getParentFolderAndName_inv in Hpn as [Hs _].
  pose proof (segments_are_segments path) as H. rewrite Hs in H.
  apply Forall_app in H as [_ H]. now inversion H.
Qed.

Lemma invoke_well_formed (v v2 : VirtualFileSystem) (op : Operation) :
  well_formed v = true ->
  outcome (invoke v op) = Return v2 ->
  well_formed v2 = true.
Proof.
  intros Hv.
  assert (Hcreate : forall path item,
    (forall n, name (item n) = n) ->
    (forall n, well_formed_item (item n) = true) ->
    match getParentFolderAndName v path with
    | Return pn =>
        match item_of pn with
        | Undefined => Return (inserted v pn (item (pname pn)))
        | _ => Throw (AlreadyExists (pname pn) path)
        end
    | Throw e => Throw e
    end = Return v2 -> well_formed v2 = true).
  { intros path item Hname Hitem.
    destruct (getParentFolderAndName v path) as [pn|] eqn:Hpn; [|discriminate].
    destruct (item_of pn); try discriminate. intros [= <-].
    apply well_formed_write_folder; [|exact Hv].
    apply gentle_insert; auto. now apply (pname_segment v path). }
  assert (Hupdate : forall path content metaData,
    outcome (updateFile v path content metaData) = Return v2 ->
    well_formed v2 = true).
  { intros path content metaData. rewrite updateFile_eq. simpl.
    destruct (getFile v path) as [found|] eqn:Hfile; [|discriminate].
    intros [= <-].
    destruct (getFile_inv _ _ _ Hfile) as [pn [Hpn [_ Hplace]]].
    unfold well_formed, updated, write_file. simpl. rewrite Hplace, pop_app.
    rewrite write_folder_compose.
    apply well_formed_write_folder; [|exact Hv].
    refine (gentle_compose _ _
              (gentle_file (pname pn)
                 (fun f => {| file_name := file_name f;
                              file_content := content;
                              file_metaData := file_metaData f |}) _)
              (gentle_file (pname pn)
                 (fun f => {| file_name := file_name f;
                              file_content := file_content f;
                              file_metaData :=
                                default (file_metaData (value found)) metaData |})
                 _)); reflexivity. }
  destruct op as [path content metaData|path metaData|path content metaData
                 |path content metaData|path]; simpl.
  - rewrite createFile_eq. simpl.
    now apply (Hcreate path (fun name =>
                 file (createVirtualFile name (default EmptyString content)
                         (Some (default [] metaData))))).
  - rewrite createFolder_eq. simpl.
    now apply (Hcreate path (fun name =>
                 folder (createVirtualFolder name (Some (default [] metaData))))).
  - apply Hupdate.
  - rewrite createOrUpdateFile_eq.
    destruct (outcome (updateFile v path _ _)) as [fs|] eqn:Hu; simpl.
    + intros [= <-]. now apply Hupdate in Hu.
    + rewrite createFile_eq. simpl.
      now apply (Hcreate path (fun name =>
                   file (createVirtualFile name (default EmptyString content)
                           (Some (default [] metaData))))).
  - rewrite delete_eq. simpl.
    destruct (getParentFolderAndName v path) as [pn|]; [|discriminate].
    destruct (item_of pn) as [item| |]; try discriminate.
    destruct (isSystem item); [discriminate|]. intros [= <-].
    apply well_formed_write_folder; [apply gentle_delete|exact Hv].
Qed.

Lemma run_well_formed (ops : list Operation) :
  forall v v2,
    well_formed v = true -> run ops v = Return v2 -> well_formed v2 = true.
Proof.
  induction ops as [|op ops IH]; intros v v2 Hv; simpl.
  - now intros [= <-].
  - destruct (outcome (invoke v op)) as [v1|] eqn:Hop; [|discriminate].
    apply IH. now apply (invoke_well_formed v v1 op).
Qed.

(** ** The default file system *)

(** The four calls of [createDefaultFileSystem] return, and none of the
    items they create can be deleted. *)
Theorem default_file_system_is_protected :
  exists fs,
    createDefaultFileSystem = Return fs /\
    (r <- listItems fs None ;; Return (map name r))%result =
      Return ["system"; "user"] /\
    readFile fs REGISTRY_PATH = Return "{}" /\
    outcome (delete fs SYSTEM_PATH) = Throw (SystemProtected SYSTEM_PATH) /\
    outcome (delete fs PROGRAMS_PATH) = Throw (SystemProtected PROGRAMS_PATH) /\
    outcome (delete fs USER_PATH) = Throw (SystemProtected USER_PATH) /\
    outcome (delete fs REGISTRY_PATH) = Throw (SystemProtected REGISTRY_PATH).
Proof.
  eexists. split; [vm_compute; reflexivity|].
  repeat split; vm_compute; reflexivity.
Qed.

(** * The claims of the specification *)

(** ** Immutability of snapshots *)

(** C1. No operation mutates the snapshot it is invoked on: whatever
    createFile, createFolder, updateFile, createOrUpdateFile or delete does,
    whether it returns a new snapshot or throws, the receiver answers
    [exists], [readFile] and [listItems] at every path afterwards as [v1]
    did before. In particular, when [v1.createFile(p, c)] returns [v2], the
    receiver still has nothing at [p], while [v2] has. *)
Theorem operations_do_not_mutate_the_receiver
    (v1 : VirtualFileSystem) (op : Operation) :
  (forall path, exists_ (receiver (invoke v1 op)) path = exists_ v1 path) /\
  (forall path, readFile (receiver (invoke v1 op)) path = readFile v1 path) /\
  (forall path, listItems (receiver (invoke v1 op)) path = listItems v1 path) /\
  (forall p c m v2,
      op = CreateFile p c m ->
      outcome (invoke v1 op) = Return v2 ->
      exists_ (receiver (invoke v1 op)) p = false /\ exists_ v2 p = true).
Proof.
  rewrite receiver_invoke. repeat split; subst op; simpl in H0;
    rewrite createFile_eq in H0; simpl in H0;
    destruct (getParentFolderAndName v1 p) as [pn|e] eqn:Hpn; try discriminate;
    destruct (item_of pn) as [item| |] eqn:Hitem; try discriminate;
    inversion H0; subst v2.
  - unfold exists_, getItem, bind. now rewrite Hpn, Hitem.
  - unfold exists_. now rewrite (getItem_inserted _ _ _ _ Hpn).
Qed.

Lemma operations_do_not_mutate_the_receiver_witness :
  exists v2,
    outcome (invoke (new_VirtualFileSystem None)
               (CreateFile "test.txt" (Some "Hello, World!") None)) = Return v2 /\
    exists_ (receiver (invoke (new_VirtualFileSystem None)
                         (CreateFile "test.txt" (Some "Hello, World!") None)))
      "test.txt" = false /\
    exists_ v2 "test.txt" = true.
Proof.
  eexists. split; [reflexivity|].
  apply (proj2 (proj2 (proj2
           (operations_do_not_mutate_the_receiver
              (new_VirtualFileSystem None)
              (CreateFile "test.txt" (Some "Hello, World!") None))))
           "test.txt" (Some "Hello, World!") None); reflexivity.
Defined.

(** ** Serialization *)

(** C2. For a file system built from the empty one by any sequence of
    operations, [fromJSON(vfs.toJSON())] answers [listItems] and [readFile]
    at every path as [vfs] does. *)
Theorem fromJSON_toJSON_round_trip
    (ops : list Operation) (vfs : VirtualFileSystem) :
  run ops (new_VirtualFileSystem None) = Return vfs ->
  forall (folderPath : option string) (filePath : string),
    listItems (fromJSON (toJSON vfs)) folderPath = listItems vfs folderPath /\
    readFile (fromJSON (toJSON vfs)) filePath = readFile vfs filePath.
Proof. intros _ folderPath filePath. now rewrite fromJSON_toJSON. Qed.

Lemma fromJSON_toJSON_round_trip_witness :
  exists vfs,
    run [ CreateFolder "folder" None;
          CreateFile "folder/file1.txt" (Some "Content 1") None;
          CreateFile "folder/file2.txt" (Some "Content 2") None;
          UpdateFile "folder/file1.txt" "Content 3" None;
          Delete "folder/file2.txt" ]
        (new_VirtualFileSystem None) = Return vfs /\
    listItems (fromJSON (toJSON vfs)) (Some "folder") = listItems vfs (Some "folder") /\
    readFile (fromJSON (toJSON vfs)) "folder/file1.txt" = readFile vfs "folder/file1.txt".
Proof.
  eexists. split; [vm_compute; reflexivity|].
  apply (fromJSON_toJSON_round_trip
           [ CreateFolder "folder" None;
             CreateFile "folder/file1.txt" (Some "Content 1") None;
             CreateFile "folder/file2.txt" (Some "Content 2") None;
             UpdateFile "folder/file1.txt" "Content 3" None;
             Delete "folder/file2.txt" ]).
  vm_compute. reflexivity.
Defined.

(** ** Errors of the resolver *)

(** C3, as the specification states it, fails. On the empty file system the
    first segment of [a/b/c] is already missing, so the sub-path consumed so
    far is [a]; [createFile("a/b/c", "x")] reports [a/b], and
    [listItems("a/b")] reports the path it was given. *)
Lemma folder_error_is_not_the_consumed_prefix :
  segments "a/b/c" = ["a"; "b"] ++ ["c"] /\
  walk (root (new_VirtualFileSystem None)) (firstn 0 ["a"; "b"]) =
    Some (root (new_VirtualFileSystem None)) /\
  walk (root (new_VirtualFileSystem None)) (firstn 1 ["a"; "b"]) = None /\
  outcome (createFile (new_VirtualFileSystem None) "a/b/c" (Some "x") None) =
    Throw (FolderNotFound "a/b") /\
  listItems (new_VirtualFileSystem None) (Some "a/b") = Throw (FolderNotFound "a/b") /\
  FolderNotFound "a/b" <> FolderNotFound (join (firstn 1 ["a"; "b"])).
Proof. repeat split; discriminate. Qed.

(** C3, amended. When the folder segments [p1..pk] of a path resolve and
    the next one is missing or not a folder, resolution stops there, and the
    error is the folder-not-found error with the whole folder path that was
    to be resolved, whichever segment failed: for the operations that
    resolve a parent and a name it is the segments of the path without the
    last, joined by slashes; for [getFolder] and [listItems] it is the path
    argument as it was written. *)
Theorem folder_error_names_the_whole_folder_path
    (v : VirtualFileSystem) (path : string) (parts : list string)
    (name : string) (k : nat) :
  segments path = parts ++ [name] ->
  (exists reached, walk (root v) (firstn k parts) = Some reached) ->
  walk (root v) (firstn (S k) parts) = None ->
  walk (root v) parts = None /\
  getParentFolderAndName v path = Throw (FolderNotFound (join parts)) /\
  (forall content metaData,
      outcome (createFile v path content metaData) =
        Throw (FolderNotFound (join parts)) /\
      outcome (createOrUpdateFile v path content metaData) =
        Throw (FolderNotFound (join parts))) /\
  (forall content metaData,
      outcome (updateFile v path content metaData) =
        Throw (FolderNotFound (join parts))) /\
  (forall metaData,
      outcome (createFolder v path metaData) =
        Throw (FolderNotFound (join parts))) /\
  outcome (delete v path) = Throw (FolderNotFound (join parts)) /\
  readFile v path = Throw (FolderNotFound (join parts)) /\
  getItem v path = Throw (FolderNotFound (join parts)) /\
  (forall folderPath,
      segments folderPath = parts ->
      getFolder v folderPath = Throw (FolderNotFound folderPath) /\
      listItems v (Some folderPath) = Throw (FolderNotFound folderPath)).
Proof.
  intros Hseg _ Hfail.
  pose proof (walk_prefix_fails _ _ _ Hfail) as Hwalk.
  pose proof (parent_not_found _ _ _ _ Hseg Hwalk) as Hpn.
  split; [exact Hwalk|]. split; [exact Hpn|].
  repeat split; intros.
  - now rewrite createFile_eq, Hpn.
  - rewrite createOrUpdateFile_eq, updateFile_eq, createFile_eq.
    unfold getFile, bind. now rewrite Hpn.
  - rewrite updateFile_eq. unfold getFile, bind. now rewrite Hpn.
  - now rewrite createFolder_eq, Hpn.
  - now rewrite delete_eq, Hpn.
  - unfold readFile, getFile, bind. now rewrite Hpn.
  - unfold getItem, bind. now rewrite Hpn.
  - rewrite getFolder_eq, H, Hwalk. reflexivity.
  - unfold listItems, bind. rewrite getFolder_eq, H, Hwalk. reflexivity.
Qed.

Lemma folder_error_names_the_whole_folder_path_witness :
  walk (root vfs_x) ["x"; "b"; "c"] = None /\
  getParentFolderAndName vfs_x "x/b//c/d.txt" = Throw (FolderNotFound "x/b/c") /\
  (forall content metaData,
      outcome (createFile vfs_x "x/b//c/d.txt" content metaData) =
        Throw (FolderNotFound "x/b/c") /\
      outcome (createOrUpdateFile vfs_x "x/b//c/d.txt" content metaData) =
        Throw (FolderNotFound "x/b/c")) /\
  (forall content metaData,
      outcome (updateFile vfs_x "x/b//c/d.txt" content metaData) =
        Throw (FolderNotFound "x/b/c")) /\
  (forall metaData,
      outcome (createFolder vfs_x "x/b//c/d.txt" metaData) =
        Throw (FolderNotFound "x/b/c")) /\
  outcome (delete vfs_x "x/b//c/d.txt") = Throw (FolderNotFound "x/b/c") /\
  readFile vfs_x "x/b//c/d.txt" = Throw (FolderNotFound "x/b/c") /\
  getItem vfs_x "x/b//c/d.txt" = Throw (FolderNotFound "x/b/c") /\
  (forall folderPath,
      segments folderPath = ["x"; "b"; "c"] ->
      getFolder vfs_x folderPath = Throw (FolderNotFound folderPath) /\
      listItems vfs_x (Some folderPath) = Throw (FolderNotFound folderPath)).
Proof.
  apply (folder_error_names_the_whole_folder_path
           vfs_x "x/b//c/d.txt" ["x"; "b"; "c"] "d.txt" 0).
  - reflexivity.
  - exists (root vfs_x). reflexivity.
  - reflexivity.
Defined.

(** ** createFile and createFolder *)

(** C4. The claim holds for every name but those that plain objects inherit:
    the root folder of the empty file system owns no item, and still
    [createFile("constructor", "x")] and [createFolder("toString")] throw
    the already-exists error, because [parentFolder.items[name]] reads the
    member of [Object.prototype]. For the same reason [exists] answers true
    for such a name, and [delete] of it ends in a TypeError. *)
Theorem createFile_rejects_an_inherited_name :
  own (folder_items (root (new_VirtualFileSystem None))) "constructor" = None /\
  listItems (new_VirtualFileSystem None) None = Return [] /\
  outcome (createFile (new_VirtualFileSystem None) "constructor" (Some "x") None) =
    Throw (AlreadyExists "constructor" "constructor") /\
  outcome (createFolder (new_VirtualFileSystem None) "toString" None) =
    Throw (AlreadyExists "toString" "toString") /\
  AlreadyExists "constructor" "constructor" =
    Error ("A file or folder with the name " ++ dquote ++ "constructor" ++ dquote
           ++ " already exists in the path " ++ dquote ++ "constructor" ++ dquote
           ++ ".") /\
  exists_ (new_VirtualFileSystem None) "constructor" = true /\
  outcome (delete (new_VirtualFileSystem None) "constructor") = Throw TypeError.
Proof. repeat split. Qed.

(** What holds of C4: a name the parent folder owns is refused, whatever
    the kinds of the old and the new item, and the item that was there
    stays; a name that reads as undefined is given the new file or the new
    empty folder. *)
Theorem create_checks_the_name
    (v : VirtualFileSystem) (path : string) (pn : ParentFolderAndName) :
  getParentFolderAndName v path = Return pn ->
  (forall existing content metaData,
      item_of pn = Own existing ->
      outcome (createFile v path content metaData) =
        Throw (AlreadyExists (pname pn) path) /\
      outcome (createFolder v path metaData) =
        Throw (AlreadyExists (pname pn) path) /\
      getItem v path = Return (Own existing)) /\
  (forall content metaData,
      item_of pn = Undefined ->
      exists v2,
        outcome (createFile v path content metaData) = Return v2 /\
        getItem v2 path =
          Return (Own (file (createVirtualFile (pname pn)
                               (default EmptyString content)
                               (Some (default [] metaData))))) /\
        readFile v2 path = Return (default EmptyString content)) /\
  (forall metaData,
      item_of pn = Undefined ->
      exists v2,
        outcome (createFolder v path metaData) = Return v2 /\
        getItem v2 path =
          Return (Own (folder (createVirtualFolder (pname pn)
                                 (Some (default [] metaData))))) /\
        listItems v2 (Some path) = Return []).
Proof.
  intros Hpn. split; [|split].
  - intros existing content metaData Hitem.
    rewrite createFile_eq, createFolder_eq, Hpn, Hitem. simpl. repeat split.
    unfold getItem, bind. now rewrite Hpn, Hitem.
  - intros content metaData Hitem. rewrite createFile_eq, Hpn, Hitem. simpl.
    eexists. split; [reflexivity|].
    split; [exact (getItem_inserted _ _ _ _ Hpn)|].
    unfold readFile, bind. now rewrite (getFile_inserted _ _ _ _ Hpn).
  - intros metaData Hitem. rewrite createFolder_eq, Hpn, Hitem. simpl.
    eexists. split; [reflexivity|].
    split; [exact (getItem_inserted _ _ _ _ Hpn)|].
    pose proof (getParentFolderAndName_inv _ _ _ Hpn) as [Hseg Hwalk].
    unfold listItems, bind, inserted. rewrite getFolder_eq, Hseg, walk_app. simpl.
    rewrite (walk_write_folder _ _ _ _ Hwalk). simpl.
    now rewrite get_set_same.
Qed.

Lemma create_checks_the_name_witness :
  (outcome (createFile vfs_x "x" (Some "B") None) = Throw (AlreadyExists "x" "x") /\
   outcome (createFolder vfs_x "x" None) = Throw (AlreadyExists "x" "x") /\
   getItem vfs_x "x" =
     Return (Own (file {| file_name := "x";
                          file_content := "A";
                          file_metaData := [("tag", number 1)] |}))) /\
  (exists v2,
      outcome (createFolder vfs_x "y" None) = Return v2 /\
      getItem v2 "y" = Return (Own (folder (createVirtualFolder "y" (Some [])))) /\
      listItems v2 (Some "y") = Return []).
Proof.
  split.
  - exact (proj1 (create_checks_the_name vfs_x "x"
                    {| parentFolder := {| place := []; value := root vfs_x |};
                       pname := "x" |} eq_refl)
             _ (Some "B") None eq_refl).
  - exact (proj2 (proj2 (create_checks_the_name vfs_x "y"
                           {| parentFolder := {| place := []; value := root vfs_x |};
                              pname := "y" |} eq_refl))
             None eq_refl).
Defined.

(** ** Locality of the operations *)

(** An operation that returns changes only what is read under the path it
    was called with: at every path that does not start with the segments of
    that path, [readFile] and [exists] answer as before. *)
Theorem operations_change_nothing_elsewhere
    (v v2 : VirtualFileSystem) (op : Operation) (other : string) :
  outcome (invoke v op) = Return v2 ->
  (forall below, segments other <> segments (path_of op) ++ below) ->
  readFile v2 other = readFile v other /\ exists_ v2 other = exists_ v other.
Proof. intros Hop Hother. exact (operations_are_local v v2 op Hop other Hother). Qed.

Lemma operations_change_nothing_elsewhere_witness :
  exists v2,
    outcome (invoke vfs_folder (Delete "folder/file1.txt")) = Return v2 /\
    readFile v2 "folder/file1.txt" = Throw (FileNotFound "folder/file1.txt") /\
    readFile v2 "folder/file2.txt" = readFile vfs_folder "folder/file2.txt" /\
    exists_ v2 "folder/file2.txt" = exists_ vfs_folder "folder/file2.txt".
Proof.
  eexists. split; [reflexivity|]. split; [reflexivity|].
  apply (operations_change_nothing_elsewhere
           vfs_folder _ (Delete "folder/file1.txt") "folder/file2.txt").
  - reflexivity.
  - intros below H. vm_compute in H. discriminate H.
Defined.

(** ** delete *)

(** C5, as the specification states it, fails. A file whose [isSystem] is
    the number 1 is not flagged with [true], so the claim has [delete]
    remove it; the source tests [metaData.isSystem] for truthiness and
    throws the system-file error. *)
Lemma delete_protects_truthy_isSystem :
  outcome (createFile (new_VirtualFileSystem None) "a" (Some "x")
             (Some [("isSystem", number 1)])) = Return vfs_flagged /\
  getItem vfs_flagged "a" =
    Return (Own (file {| file_name := "a";
                         file_content := "x";
                         file_metaData := [("isSystem", number 1)] |})) /\
  get [("isSystem", number 1)] "isSystem" <> Own (boolean true) /\
  outcome (delete vfs_flagged "a") = Throw (SystemProtected "a") /\
  (forall v2, outcome (delete vfs_flagged "a") <> Return v2).
Proof. repeat split; discriminate. Qed.

(** C5, amended. [delete(path)] resolves parent and name. It throws the
    not-found error if the parent has no entry of that name and the name is
    not one that objects inherit. It throws the system-file error if the
    entry's [metaData.isSystem] is truthy, as it is for every item created
    with [isSystem: true]. Otherwise it returns a snapshot whose parent
    folder has lost exactly that entry, file or folder alike: the other
    entries of the parent are as they were, nothing resolves under the
    removed name any more, and what is read at the other paths is as
    before. *)
Theorem delete_removes_the_entry_unless_protected
    (v : VirtualFileSystem) (path : string) (pn : ParentFolderAndName) :
  getParentFolderAndName v path = Return pn ->
  (own (folder_items (value (parentFolder pn))) (pname pn) = None ->
   inherited (pname pn) = false ->
   outcome (delete v path) = Throw (NotFound path)) /\
  (forall item,
      item_of pn = Own item ->
      isSystem item = true ->
      outcome (delete v path) = Throw (SystemProtected path)) /\
  (forall item,
      item_of pn = Own item ->
      get (metaData item) "isSystem" = Own (boolean true) ->
      outcome (delete v path) = Throw (SystemProtected path)) /\
  (forall content metaData v2,
      outcome (createFile v path content (Some metaData)) = Return v2 \/
      outcome (createFolder v path (Some metaData)) = Return v2 ->
      get metaData "isSystem" = Own (boolean true) ->
      outcome (delete v2 path) = Throw (SystemProtected path)) /\
  (forall item,
      item_of pn = Own item ->
      isSystem item = false ->
      outcome (delete v path) = Return (removed v pn) /\
      getParentFolderAndName (removed v pn) path =
        Return {| parentFolder :=
                    {| place := place (parentFolder pn);
                       value :=
                         with_items (value (parentFolder pn))
                           (JS.delete (folder_items (value (parentFolder pn)))
                              (pname pn)) |};
                  pname := pname pn |} /\
      own (JS.delete (folder_items (value (parentFolder pn))) (pname pn))
        (pname pn) = None /\
      (forall other,
          other <> pname pn ->
          own (JS.delete (folder_items (value (parentFolder pn))) (pname pn)) other =
          own (folder_items (value (parentFolder pn))) other) /\
      (forall below,
          walk (root (removed v pn))
            (place (parentFolder pn) ++ pname pn :: below) = None) /\
      (forall other,
          (forall below, segments other <> segments path ++ below) ->
          readFile (removed v pn) other = readFile v other /\
          exists_ (removed v pn) other = exists_ v other)).
Proof.
  intros Hpn. split.
  { intros Hown Hproto. rewrite delete_eq, Hpn. simpl. unfold item_of.
    now rewrite (proj2 (get_undefined _ _ _) (conj Hown Hproto)). }
  split; [intros item Hitem Hsys; now rewrite delete_eq, Hpn, Hitem, Hsys|].
  split.
  { intros item Hitem Hflag.
    now rewrite delete_eq, Hpn, Hitem, (isSystem_true _ Hflag). }
  split.
  - intros content metaData v2 Hcreate Hflag.
    rewrite createFile_eq, createFolder_eq, Hpn in Hcreate. simpl in Hcreate.
    rewrite delete_eq.
    destruct (item_of pn) eqn:Hitem;
      try (destruct Hcreate as [Hc|Hc]; discriminate).
    destruct Hcreate as [Hc|Hc]; inversion Hc; subst v2;
      unfold inserted; rewrite (resolve_after_write _ _ _ _ Hpn);
      unfold item_of; simpl; rewrite get_set_same;
      now rewrite isSystem_true.
  - intros item Hitem Hsys.
    assert (Hout : outcome (delete v path) = Return (removed v pn)).
    { now rewrite delete_eq, Hpn, Hitem, Hsys. }
    split; [exact Hout|].
    split; [exact (resolve_after_write _ _ _ _ Hpn)|].
    split; [apply own_delete_same|].
    split; [intros other Hother; apply own_delete_other; congruence|].
    split; [intros below; exact (walk_removed _ _ _ below Hpn)|].
    intros other Hother.
    exact (operations_are_local v (removed v pn) (Delete path) Hout other Hother).
Qed.

Lemma delete_removes_the_entry_unless_protected_witness :
  run [ CreateFolder "folder" None;
        CreateFile "folder/file1.txt" (Some "Content 1") None;
        CreateFile "folder/file2.txt" (Some "Content 2") None ]
      (new_VirtualFileSystem None) = Return vfs_folder /\
  outcome (delete vfs_folder "nothing") = Throw (NotFound "nothing") /\
  outcome (delete vfs_folder "folder") = Return (new_VirtualFileSystem None) /\
  readFile vfs_folder "folder/file1.txt" = Return "Content 1" /\
  readFile (new_VirtualFileSystem None) "folder/file1.txt" =
    Throw (FolderNotFound "folder").
Proof.
  split; [reflexivity|]. split; [|split].
  - exact (proj1 (delete_removes_the_entry_unless_protected vfs_folder "nothing"
                    {| parentFolder := {| place := []; value := root vfs_folder |};
                       pname := "nothing" |} eq_refl)
             eq_refl eq_refl).
  - exact (proj1 (proj2 (proj2 (proj2 (proj2
             (delete_removes_the_entry_unless_protected vfs_folder "folder"
                {| parentFolder := {| place := []; value := root vfs_folder |};
                   pname := "folder" |} eq_refl))))
                   (folder two_files) eq_refl eq_refl)).
  - split; reflexivity.
Defined.

(** ** updateFile and createOrUpdateFile *)

(** C6. [updateFile(path, content, metaData?)] throws the not-found error
    of files when the parent resolves and [path] is absent there or names a
    folder. When [path] names a file it returns a snapshot in which that
    file has the new content and, if [metaData] was supplied, the new
    metaData, and otherwise the metaData it had; what is read at the other
    paths is as before. So
    [createFile("x", "A", {tag: 1}).updateFile("x", "B")] reads ["B"] at [x]
    with metaData still [{tag: 1}]. *)
Theorem updateFile_replaces_content_and_keeps_metaData
    (v : VirtualFileSystem) (path content : string) :
  (forall pn metaData,
      getParentFolderAndName v path = Return pn ->
      item_of pn = Undefined \/ item_of pn = Inherited \/
        (exists d, item_of pn = Own (folder d)) ->
      outcome (updateFile v path content metaData) = Throw (FileNotFound path)) /\
  (forall pn f,
      getParentFolderAndName v path = Return pn ->
      item_of pn = Own (file f) ->
      (exists v2,
          outcome (updateFile v path content None) = Return v2 /\
          readFile v2 path = Return content /\
          getItem v2 path =
            Return (Own (file {| file_name := file_name f;
                                 file_content := content;
                                 file_metaData := file_metaData f |}))) /\
      (forall supplied,
          exists v2,
            outcome (updateFile v path content (Some supplied)) = Return v2 /\
            readFile v2 path = Return content /\
            getItem v2 path =
              Return (Own (file {| file_name := file_name f;
                                   file_content := content;
                                   file_metaData := supplied |})))) /\
  (forall metaData v2 other,
      outcome (updateFile v path content metaData) = Return v2 ->
      (forall below, segments other <> segments path ++ below) ->
      readFile v2 other = readFile v other /\ exists_ v2 other = exists_ v other) /\
  (exists v1 v2,
      outcome (createFile (new_VirtualFileSystem None) "x" (Some "A")
                 (Some [("tag", number 1)])) = Return v1 /\
      outcome (updateFile v1 "x" "B" None) = Return v2 /\
      readFile v2 "x" = Return "B" /\
      getItem v2 "x" =
        Return (Own (file {| file_name := "x";
                             file_content := "B";
                             file_metaData := [("tag", number 1)] |}))).
Proof.
  split; [|split; [|split]].
  - intros pn metaData Hpn Hitem.
    rewrite updateFile_eq, (getFile_resolved _ _ _ Hpn). simpl.
    destruct Hitem as [H|[H|[d H]]]; now rewrite H.
  - intros pn f Hpn Hitem.
    pose proof (getFile_resolved _ _ _ Hpn) as Hfile. rewrite Hitem in Hfile.
    split; [|intros supplied]; eexists.
    + exact (updateFile_found _ _ content None _ Hfile).
    + exact (updateFile_found _ _ content (Some supplied) _ Hfile).
  - intros metaData v2 other Hupdate Hother.
    exact (operations_are_local v v2 (UpdateFile path content metaData)
             Hupdate other Hother).
  - do 2 eexists. repeat split.
Qed.

Lemma updateFile_replaces_content_and_keeps_metaData_witness :
  outcome (createFile (new_VirtualFileSystem None) "x" (Some "A")
             (Some [("tag", number 1)])) = Return vfs_x /\
  outcome (updateFile vfs_x "y" "B" None) = Throw (FileNotFound "y") /\
  exists v2,
    outcome (updateFile vfs_x "x" "B" None) = Return v2 /\
    readFile v2 "x" = Return "B" /\
    getItem v2 "x" =
      Return (Own (file {| file_name := "x";
                           file_content := "B";
                           file_metaData := [("tag", number 1)] |})).
Proof.
  split; [reflexivity|]. split.
  - apply (proj1 (updateFile_replaces_content_and_keeps_metaData vfs_x "y" "B")
             {| parentFolder := {| place := []; value := root vfs_x |};
                pname := "y" |});
      [reflexivity|left; reflexivity].
  - apply (proj1 (proj2 (updateFile_replaces_content_and_keeps_metaData
                           vfs_x "x" "B"))
             {| parentFolder := {| place := []; value := root vfs_x |};
                pname := "x" |}
             {| file_name := "x";
                file_content := "A";
                file_metaData := [("tag", number 1)] |});
      reflexivity.
Defined.

(** C7. [createOrUpdateFile(path, content, metaData)] first calls
    [updateFile] with the same arguments. If that returns, its snapshot is
    the result and [createFile] is not called (it would have thrown, the
    name being taken). If it throws, whatever the error, the result is
    that of [createFile] with the same arguments, error included: a missing
    parent folder is reported by the create, and a path that names a folder
    ends in the already-exists error of the create. *)
Theorem createOrUpdateFile_falls_back_on_any_error
    (v : VirtualFileSystem) (path : string)
    (content : option string) (metaData : option MetaData) :
  (forall v2,
      outcome (updateFile v path (default EmptyString content)
                 (Some (default [] metaData))) = Return v2 ->
      outcome (createOrUpdateFile v path content metaData) = Return v2 /\
      exists name,
        outcome (createFile v path (Some (default EmptyString content))
                   (Some (default [] metaData))) =
          Throw (AlreadyExists name path)) /\
  (forall e,
      outcome (updateFile v path (default EmptyString content)
                 (Some (default [] metaData))) = Throw e ->
      outcome (createOrUpdateFile v path content metaData) =
        outcome (createFile v path (Some (default EmptyString content))
                   (Some (default [] metaData)))) /\
  (forall e,
      getParentFolderAndName v path = Throw e ->
      outcome (updateFile v path (default EmptyString content)
                 (Some (default [] metaData))) = Throw e /\
      outcome (createOrUpdateFile v path content metaData) = Throw e) /\
  (forall pn d,
      getParentFolderAndName v path = Return pn ->
      item_of pn = Own (folder d) ->
      outcome (updateFile v path (default EmptyString content)
                 (Some (default [] metaData))) = Throw (FileNotFound path) /\
      outcome (createOrUpdateFile v path content metaData) =
        Throw (AlreadyExists (pname pn) path)).
Proof.
  rewrite createOrUpdateFile_eq, updateFile_eq, createFile_eq. simpl.
  unfold getFile, bind.
  destruct (getParentFolderAndName v path) as [pn|e0] eqn:Hpn; simpl.
  - destruct (item_of pn) as [[f|d]| |] eqn:Hitem; simpl;
      (split; [|split; [|split]]);
      try (intros; discriminate);
      try (intros e _; reflexivity);
      try (intros pn' d' Hp Hi; inversion Hp; subst pn'; rewrite Hitem in Hi;
           first [discriminate | inversion Hi; split; reflexivity]).
    intros v2 H. split; [exact H|]. now exists (pname pn).
  - (split; [|split; [|split]]); try (intros; discriminate).
    + intros e _. reflexivity.
    + intros e H. now inversion H.
Qed.

Lemma createOrUpdateFile_falls_back_on_any_error_witness :
  (exists v2,
      outcome (updateFile vfs_x "x" "B" (Some [])) = Return v2 /\
      outcome (createOrUpdateFile vfs_x "x" (Some "B") None) = Return v2 /\
      exists name,
        outcome (createFile vfs_x "x" (Some "B") (Some [])) =
          Throw (AlreadyExists name "x")) /\
  (outcome (updateFile vfs_x "y" "B" (Some [])) = Throw (FileNotFound "y") /\
   outcome (createOrUpdateFile vfs_x "y" (Some "B") None) =
     outcome (createFile vfs_x "y" (Some "B") (Some []))) /\
  (outcome (updateFile vfs_x "x/y" "B" (Some [])) = Throw (FolderNotFound "x") /\
   outcome (createOrUpdateFile vfs_x "x/y" (Some "B") None) =
     Throw (FolderNotFound "x")).
Proof.
  split; [|split].
  - eexists. split; [reflexivity|].
    apply (proj1 (createOrUpdateFile_falls_back_on_any_error
                    vfs_x "x" (Some "B") None)).
    reflexivity.
  - split; [reflexivity|].
    apply (proj1 (proj2 (createOrUpdateFile_falls_back_on_any_error
                           vfs_x "y" (Some "B") None))
             (FileNotFound "y")).
    reflexivity.
  - apply (proj1 (proj2 (proj2 (createOrUpdateFile_falls_back_on_any_error
                                  vfs_x "x/y" (Some "B") None)))
             (FolderNotFound "x")).
    reflexivity.
Defined.

(** ** listItems *)

(** C8, as the specification states it, fails. Created in the order [10],
    [9], the two children of [folder] are listed as [9], [10]: names that
    are array indices come in ascending numeric order. *)
Lemma listItems_lists_array_indices_first :
  exists v items,
    run [ CreateFolder "folder" None;
          CreateFile "folder/10" (Some "ten") None;
          CreateFile "folder/9" (Some "nine") None ]
        (new_VirtualFileSystem None) = Return v /\
    listItems v (Some "folder") = Return items /\
    map name items = ["9"; "10"] /\
    map name items <> ["10"; "9"].
Proof. do 2 eexists. repeat split. discriminate. Qed.

(** C8, amended. After children have been created in a folder, one after
    the other, [listItems] returns the folder's earlier children and the
    new ones in the order of [Object.values]: the children whose names are
    array indices first, by ascending index, then the others in the order
    they were created. When no name is an array index that is creation
    order: [folder/file1.txt] and then [folder/file2.txt], created in an
    empty folder, are listed as [file1.txt], [file2.txt]. *)
Theorem listItems_returns_children_in_property_order
    (v v' : VirtualFileSystem) (d : string) (parent : Located VirtualFolder)
    (children : list NewChild) :
  getFolder v d = Return parent ->
  Forall (fun c => segment (child_name c) = true) children ->
  run (map (create_in d) children) v = Return v' ->
  listItems v' (Some d) =
    Return (Object_values (folder_items (value parent) ++ map entry children)) /\
  (exists indexed,
      Object_values (folder_items (value parent) ++ map entry children) =
        map (fun ie => snd (snd ie)) indexed ++
        map snd (string_entries (folder_items (value parent) ++ map entry children)) /\
      StronglySorted (@by_index VirtualItem) indexed /\
      Permutation (map snd indexed)
        (filter (@has_array_index VirtualItem)
           (folder_items (value parent) ++ map entry children)) /\
      Forall (fun ie => array_index (fst (snd ie)) = Some (fst ie)) indexed) /\
  (no_array_index _ (folder_items (value parent) ++ map entry children) ->
   listItems v' (Some d) =
     Return (map snd (folder_items (value parent)) ++ map child_item children)) /\
  (folder_items (value parent) = [] ->
   no_array_index _ (map entry children) ->
   exists listed,
     listItems v' (Some d) = Return listed /\
     map name listed = map child_name children).
Proof.
  intros Hparent Hnames Hrun.
  pose proof (create_all_in_folder _ _ _ _ _ Hparent Hnames Hrun) as Hfolder.
  assert (Hlist : listItems v' (Some d) =
            Return (Object_values
                      (folder_items (value parent) ++ map entry children))).
  { unfold listItems, bind. now rewrite Hfolder. }
  split; [exact Hlist|]. split; [apply Object_values_order|]. split.
  - intros Hnone. rewrite Hlist, (Object_values_no_array_index _ _ Hnone).
    now rewrite map_app, map_map.
  - intros Hempty Hnone. rewrite Hempty in Hlist. simpl in Hlist.
    rewrite (Object_values_no_array_index _ _ Hnone) in Hlist.
    eexists. split; [exact Hlist|].
    rewrite !map_map. apply map_ext. intros c. apply name_child_item.
Qed.

Lemma listItems_returns_children_in_property_order_witness :
  exists listed,
    listItems vfs_folder (Some "folder") = Return listed /\
    map name listed = ["file1.txt"; "file2.txt"].
Proof.
  refine (proj2 (proj2 (proj2
            (listItems_returns_children_in_property_order
               vfs_empty_folder vfs_folder "folder"
               {| place := ["folder"]; value := createVirtualFolder "folder" None |}
               [ NewFile "file1.txt" (Some "Content 1") None;
                 NewFile "file2.txt" (Some "Content 2") None ]
               eq_refl _ eq_refl))) eq_refl _).
  - repeat constructor.
  - repeat constructor.
Defined.

(** ** Deep path failure *)

(** C9. On the empty file system,
    [createFile("nonexistent/folder/structure/test.txt", "x")] throws the
    error whose message names [nonexistent/folder/structure]: the folder
    part of the path, neither the whole path nor a shorter prefix. *)
Theorem createFile_deep_path_failure :
  outcome (createFile (new_VirtualFileSystem None)
             "nonexistent/folder/structure/test.txt" (Some "x") None) =
    Throw (FolderNotFound "nonexistent/folder/structure") /\
  FolderNotFound "nonexistent/folder/structure" =
    Error ("Folder " ++ dquote ++ "nonexistent/folder/structure" ++ dquote
           ++ " does not exist.") /\
  FolderNotFound "nonexistent/folder/structure" <>
    FolderNotFound "nonexistent/folder/structure/test.txt" /\
  FolderNotFound "nonexistent/folder/structure" <>
    FolderNotFound "nonexistent/folder" /\
  FolderNotFound "nonexistent/folder/structure" <> FolderNotFound "nonexistent".
Proof. repeat split; discriminate. Qed.

(** ** createOrUpdateFile without metaData *)

(** C10. For a file that exists at [p] with metaData [m],
    [createOrUpdateFile(p, c)] without a metaData argument returns a
    snapshot in which the file has content [c] and the empty metaData: the
    default [{}] is passed on to [updateFile] as a supplied argument. A
    direct [updateFile(p, c)] keeps [m]. *)
Theorem createOrUpdateFile_without_metaData_empties_it
    (v : VirtualFileSystem) (p c : string) (f : VirtualFile) :
  getItem v p = Return (Own (file f)) ->
  (exists v2,
      outcome (createOrUpdateFile v p (Some c) None) = Return v2 /\
      readFile v2 p = Return c /\
      getItem v2 p =
        Return (Own (file {| file_name := file_name f;
                             file_content := c;
                             file_metaData := [] |}))) /\
  (exists v3,
      outcome (updateFile v p c None) = Return v3 /\
      readFile v3 p = Return c /\
      getItem v3 p =
        Return (Own (file {| file_name := file_name f;
                             file_content := c;
                             file_metaData := file_metaData f |}))).
Proof.
  intros H. destruct (getFile_getItem _ _ _ H) as [found [Hfile Hvalue]].
  subst f. split.
  - destruct (updateFile_found _ _ c (Some []) _ Hfile) as [Hout Hrest].
    eexists. split; [|exact Hrest].
    rewrite createOrUpdateFile_eq. simpl. now rewrite Hout.
  - eexists. exact (updateFile_found _ _ c None _ Hfile).
Qed.

Lemma createOrUpdateFile_without_metaData_empties_it_witness :
  (exists v2,
      outcome (createOrUpdateFile vfs_x "x" (Some "B") None) = Return v2 /\
      readFile v2 "x" = Return "B" /\
      getItem v2 "x" =
        Return (Own (file {| file_name := "x";
                             file_content := "B";
                             file_metaData := [] |}))) /\
  (exists v3,
      outcome (updateFile vfs_x "x" "B" None) = Return v3 /\
      readFile v3 "x" = Return "B" /\
      getItem v3 "x" =
        Return (Own (file {| file_name := "x";
                             file_content := "B";
                             file_metaData := [("tag", number 1)] |}))).
Proof.
  apply (createOrUpdateFile_without_metaData_empties_it vfs_x "x" "B"
           {| file_name := "x";
              file_content := "A";
              file_metaData := [("tag", number 1)] |}).
  reflexivity.
Defined.

(** * Further properties of the file system *)

(** ** Operations that undo or repeat one another *)

(** Deleting what was just created gives the snapshot back: when
    [createFile] or [createFolder] returns for a path, and the metaData it
    was given has no truthy [isSystem], [delete] of the same path on the new
    snapshot returns the snapshot the creation started from, the order of
    the parent's entries included. *)
Theorem delete_undoes_create
    (v v2 : VirtualFileSystem) (path : string)
    (content : option string) (metaData : option MetaData) :
  outcome (createFile v path content metaData) = Return v2 \/
  outcome (createFolder v path metaData) = Return v2 ->
  truthy_property (get (default [] metaData) "isSystem") = false ->
  outcome (delete v2 path) = Return v.
Proof.
  intros Hcreate Hsys. rewrite createFile_eq, createFolder_eq in Hcreate.
  simpl in Hcreate.
  destruct (getParentFolderAndName v path) as [pn|e] eqn:Hpn;
    [|destruct Hcreate; discriminate].
  destruct (item_of pn) eqn:Hitem; try (destruct Hcreate; discriminate).
  destruct Hcreate as [H|H]; inversion H; subst v2;
    now apply delete_inserted.
Qed.

Lemma delete_undoes_create_witness :
  outcome (createFolder vfs_x "folder" None) =
    Return {| root := {| folder_name := EmptyString;
                         folder_items :=
                           folder_items (root vfs_x) ++
                           [("folder", folder (createVirtualFolder "folder" (Some [])))];
                         folder_metaData := [] |} |} /\
  outcome (delete
             {| root := {| folder_name := EmptyString;
                           folder_items :=
                             folder_items (root vfs_x) ++
                             [("folder", folder (createVirtualFolder "folder" (Some [])))];
                           folder_metaData := [] |} |}
             "folder") = Return vfs_x.
Proof.
  split; [reflexivity|].
  apply (delete_undoes_create vfs_x _ "folder" None None).
  - right. reflexivity.
  - reflexivity.
Defined.

(** Of two updates of a file the later one decides the content, and the
    metaData too if it supplies one; otherwise the metaData of the earlier
    update stays, or the file's own if neither supplies one. The snapshot is
    the one a single update with these arguments returns. *)
Theorem updateFile_twice
    (v v1 : VirtualFileSystem) (path first second : string)
    (firstMeta secondMeta : option MetaData) :
  outcome (updateFile v path first firstMeta) = Return v1 ->
  outcome (updateFile v1 path second secondMeta) =
  outcome (updateFile v path second
             (match secondMeta with
              | Some m => Some m
              | None => firstMeta
              end)).
Proof. apply updateFile_after_update. Qed.

Lemma updateFile_twice_witness :
  exists v1,
    outcome (updateFile vfs_x "x" "B" None) = Return v1 /\
    outcome (updateFile v1 "x" "C" (Some [])) =
    outcome (updateFile vfs_x "x" "C" (Some [])).
Proof.
  eexists. split; [reflexivity|].
  apply (updateFile_twice vfs_x _ "x" "B" "C" None (Some [])). reflexivity.
Defined.

(** ** Paths *)

(** Only the segments of a path count: leading, trailing and repeated
    slashes are ignored. For two paths with the same segments every
    operation and every reader returns the same value, or throws for both
    (the messages quote the path as it was written, so they may differ). *)
Theorem paths_with_the_same_segments
    (v : VirtualFileSystem) (p q : string) :
  segments p = segments q ->
  (forall op,
      alike (outcome (invoke v (at_path op p)))
            (outcome (invoke v (at_path op q)))) /\
  alike (getItem v p) (getItem v q) /\
  alike (readFile v p) (readFile v q) /\
  alike (listItems v (Some p)) (listItems v (Some q)) /\
  alike (getFolder v p) (getFolder v q) /\
  exists_ v p = exists_ v q.
Proof.
  intros H.
  pose proof (getParentFolderAndName_alike v p q H) as Hpn.
  pose proof (getFile_alike v p q H) as Hfile.
  assert (Hfolder : alike (getFolder v p) (getFolder v q)).
  { rewrite !getFolder_eq, H. now destruct (walk (root v) (segments q)). }
  assert (Hitem : alike (getItem v p) (getItem v q)).
  { unfold getItem.
    destruct (getParentFolderAndName v p), (getParentFolderAndName v q);
      simpl in *; try contradiction; [now subst|exact I]. }
  repeat split.
  - intros op. now apply invoke_alike.
  - exact Hitem.
  - unfold readFile.
    destruct (getFile v p), (getFile v q); simpl in *;
      try contradiction; [now subst|exact I].
  - unfold listItems.
    destruct (getFolder v p), (getFolder v q); simpl in *;
      try contradiction; [now subst|exact I].
  - exact Hfolder.
  - unfold exists_.
    destruct (getItem v p), (getItem v q); simpl in *;
      try contradiction; [now subst|reflexivity].
Qed.

Lemma paths_with_the_same_segments_witness :
  segments "/x/" = segments "x" /\
  alike (readFile vfs_x "/x/") (readFile vfs_x "x") /\
  exists_ vfs_x "/x/" = exists_ vfs_x "x".
Proof.
  split; [reflexivity|].
  pose proof (paths_with_the_same_segments vfs_x "/x/" "x" eq_refl) as H.
  split; apply H.
Defined.

(** A path without a segment (the empty path, one slash, any number of
    slashes) names the root as a folder and nothing as an item: [getFolder]
    returns the root and [listItems] lists it, as for no path at all, while
    every operation, [getItem] and [readFile] throw the invalid-path error
    and [exists] answers false. *)
Theorem a_path_without_segments (v : VirtualFileSystem) (path : string) :
  segments path = [] ->
  (forall op, outcome (invoke v (at_path op path)) = Throw (InvalidPath path)) /\
  getItem v path = Throw (InvalidPath path) /\
  readFile v path = Throw (InvalidPath path) /\
  exists_ v path = false /\
  getFolder v path = Return {| place := []; value := root v |} /\
  listItems v (Some path) = listItems v None.
Proof.
  intros H. pose proof (no_segments_invalid v path H) as Hpn.
  assert (Hfile : getFile v path = Throw (InvalidPath path)).
  { unfold getFile. now rewrite Hpn. }
  assert (Hcreate : forall content metaData,
             outcome (createFile v path content metaData) =
             Throw (InvalidPath path)).
  { intros. now rewrite createFile_eq, Hpn. }
  assert (Hupdate : forall content metaData,
             outcome (updateFile v path content metaData) =
             Throw (InvalidPath path)).
  { intros. now rewrite updateFile_eq, Hfile. }
  assert (Hfolder : getFolder v path = Return {| place := []; value := root v |}).
  { now rewrite getFolder_eq, H. }
  repeat split.
  - intros [? content metaData|? metaData|? content metaData
           |? content metaData|?]; simpl.
    + apply Hcreate.
    + now rewrite createFolder_eq, Hpn.
    + apply Hupdate.
    + now rewrite createOrUpdateFile_eq, Hupdate, Hcreate.
    + now rewrite delete_eq, Hpn.
  - unfold getItem. now rewrite Hpn.
  - unfold readFile. now rewrite Hfile.
  - unfold exists_, getItem. now rewrite Hpn.
  - exact Hfolder.
  - unfold listItems. rewrite Hfolder. reflexivity.
Qed.

Lemma a_path_without_segments_witness :
  segments "//" = [] /\
  exists_ vfs_x "//" = false /\
  listItems vfs_x (Some "//") = listItems vfs_x None.
Proof.
  split; [reflexivity|].
  pose proof (a_path_without_segments vfs_x "//" eq_refl) as H.
  split; apply H.
Defined.

(** ** Exceptions *)

(** The exceptions each method can throw, and no other. The resolver's two
    ([path_error]: the invalid-path error when the path has no segment, the
    folder error naming the segments before the last one) are common to
    all; beyond them [createFile], [createFolder] and [createOrUpdateFile]
    only throw the error of a taken name, [updateFile] and [readFile] only
    the file error, [delete] only the not-found and the system-file error
    and, for a name that plain objects inherit, a TypeError. [getItem]
    throws nothing else, and [listItems] only the folder error for its own
    path. *)
Theorem methods_throw_only_their_errors
    (v : VirtualFileSystem) (path : string) (e : Exception) :
  (forall content metaData,
      outcome (createFile v path content metaData) = Throw e ->
      path_error path e \/ name_taken path e) /\
  (forall metaData,
      outcome (createFolder v path metaData) = Throw e ->
      path_error path e \/ name_taken path e) /\
  (forall content metaData,
      outcome (createOrUpdateFile v path content metaData) = Throw e ->
      path_error path e \/ name_taken path e) /\
  (forall content metaData,
      outcome (updateFile v path content metaData) = Throw e ->
      path_error path e \/ e = FileNotFound path) /\
  (outcome (delete v path) = Throw e ->
   path_error path e \/ e = NotFound path \/ e = SystemProtected path \/
   e = TypeError /\
   exists parent name,
     segments path = parent ++ [name] /\ inherited name = true) /\
  (readFile v path = Throw e -> path_error path e \/ e = FileNotFound path) /\
  (getItem v path = Throw e -> path_error path e) /\
  (listItems v (Some path) = Throw e -> e = FolderNotFound path).
Proof.
  assert (Hcreate : forall content metaData,
             outcome (createFile v path content metaData) = Throw e ->
             path_error path e \/ name_taken path e).
  { intros content metaData. rewrite createFile_eq. simpl.
    apply (create_throws v path e
             (fun name => file (createVirtualFile name
                                  (default EmptyString content)
                                  (Some (default [] metaData))))). }
  repeat split.
  - exact Hcreate.
  - intros metaData. rewrite createFolder_eq. simpl.
    apply (create_throws v path e
             (fun name => folder (createVirtualFolder name
                                    (Some (default [] metaData))))).
  - intros content metaData. rewrite createOrUpdateFile_eq.
    destruct (outcome (updateFile v path _ _)); [discriminate|].
    apply Hcreate.
  - intros content metaData. rewrite updateFile_eq. simpl.
    destruct (getFile v path) eqn:Hfile; [discriminate|].
    intros [= <-]. now apply (getFile_throws v).
  - rewrite delete_eq. simpl.
    destruct (getParentFolderAndName v path) as [pn|e'] eqn:Hpn.
    + destruct (getParentFolderAndName_returns _ _ _ Hpn)
        as [parent [name [Hs Hn]]].
      destruct (item_of pn) as [item| |] eqn:Hitem.
      * destruct (isSystem item); [|discriminate].
        intros [= <-]. auto.
      * intros [= <-]. right. right. right. split; [reflexivity|].
        exists parent, name. split; [assumption|].
        unfold item_of, get in Hitem. rewrite Hn in Hitem.
        destruct (own _ name); [discriminate|].
        now destruct (inherited name).
      * intros [= <-]. auto.
    + intros [= <-]. left. now apply (getParentFolderAndName_throws v).
  - unfold readFile. destruct (getFile v path) eqn:Hfile; [discriminate|].
    intros [= <-]. now apply (getFile_throws v).
  - unfold getItem.
    destruct (getParentFolderAndName v path) eqn:Hpn; [discriminate|].
    intros [= <-]. now apply (getParentFolderAndName_throws v).
  - unfold listItems. rewrite getFolder_eq.
    destruct (walk (root v) (segments path)); [discriminate|].
    now intros [= <-].
Qed.

(** ** Saving again *)

(** Saving to a path that was saved to is an update, and it cannot fail:
    once [createOrUpdateFile] returned for a path, calling it again on the
    new snapshot with any content and metaData returns, and the file then
    reads as the new content. Called again with the same arguments it
    returns the snapshot unchanged. *)
Theorem createOrUpdateFile_twice
    (v v1 : VirtualFileSystem) (path : string)
    (content : option string) (metaData : option MetaData) :
  outcome (createOrUpdateFile v path content metaData) = Return v1 ->
  outcome (createOrUpdateFile v1 path content metaData) = Return v1 /\
  forall content2 metaData2,
  exists v2,
    outcome (createOrUpdateFile v1 path content2 metaData2) = Return v2 /\
    outcome (createOrUpdateFile v1 path content2 metaData2) =
    outcome (updateFile v1 path (default EmptyString content2)
               (Some (default [] metaData2))) /\
    readFile v2 path = Return (default EmptyString content2).
Proof.
  intros H. split; [exact (createOrUpdateFile_again _ _ _ _ _ H)|].
  intros content2 metaData2.
  destruct (createOrUpdateFile_returns_file _ _ _ _ _ H) as [found Hfile].
  destruct (updateFile_found v1 path (default EmptyString content2)
              (Some (default [] metaData2)) found Hfile) as [Hupdate [Hread _]].
  exists (updated v1 found (default EmptyString content2)
            (Some (default [] metaData2))).
  rewrite createOrUpdateFile_eq, Hupdate. auto.
Qed.

Lemma createOrUpdateFile_twice_witness :
  exists v1,
    outcome (createOrUpdateFile vfs_folder "folder/new.txt" (Some "1") None) =
      Return v1 /\
    outcome (createOrUpdateFile v1 "folder/new.txt" (Some "1") None) = Return v1.
Proof.
  eexists. split; [reflexivity|].
  apply (createOrUpdateFile_twice vfs_folder _ "folder/new.txt" (Some "1") None).
  reflexivity.
Defined.

(** ** The order of a listing *)

(** [delete] keeps the order of what is left: when [delete] of the child
    [child] of the folder at [dir] returns, the new snapshot lists at [dir]
    the children the old one listed, in the same order, without the one
    stored under [child]. *)
Theorem delete_keeps_the_order_of_the_rest
    (v v1 : VirtualFileSystem) (path dir child : string) :
  outcome (delete v path) = Return v1 ->
  segments path = segments dir ++ [child] ->
  exists parent,
    getFolder v dir = Return parent /\
    listItems v (Some dir) =
      Return (map snd (Object_entries (folder_items (value parent)))) /\
    listItems v1 (Some dir) =
      Return (map snd (filter (other_key VirtualItem child)
                         (Object_entries (folder_items (value parent))))).
Proof.
  intros Hdelete Hsegments. rewrite delete_eq in Hdelete. simpl in Hdelete.
  rewrite (getParentFolderAndName_segments v path _ _ Hsegments) in Hdelete.
  destruct (walk (root v) (segments dir)) as [found|] eqn:Hwalk;
    [|discriminate].
  destruct (item_of _) as [item| |]; try discriminate.
  destruct (isSystem item); [discriminate|].
  inversion Hdelete; subst v1; clear Hdelete.
  exists {| place := segments dir; value := found |}.
  unfold listItems. rewrite !getFolder_eq, Hwalk. unfold removed. simpl.
  rewrite (walk_write_folder _ _ _ _ Hwalk). simpl.
  repeat split. f_equal. apply Object_values_delete.
Qed.

Lemma delete_keeps_the_order_of_the_rest_witness :
  listItems vfs_folder (Some "folder") =
    Return [file {| file_name := "file1.txt"; file_content := "Content 1";
                    file_metaData := [] |};
            file {| file_name := "file2.txt"; file_content := "Content 2";
                    file_metaData := [] |}] /\
  exists v1,
    outcome (delete vfs_folder "folder/file1.txt") = Return v1 /\
    listItems v1 (Some "folder") =
      Return [file {| file_name := "file2.txt"; file_content := "Content 2";
                      file_metaData := [] |}].
Proof.
  split; [reflexivity|]. eexists. split; [reflexivity|].
  destruct (delete_keeps_the_order_of_the_rest vfs_folder _
              "folder/file1.txt" "folder" "file1.txt" eq_refl eq_refl)
    as [parent [Hfolder [_ Hlist]]].
  inversion Hfolder; subst parent. exact Hlist.
Defined.

(** ** The last visited path *)

(** [getParentPath] drops the last segment of a path, unless the path ends
    in a slash: then it only drops that slash and still names the item
    itself. So for a path that does not end in a slash and whose parent
    folder the resolver finds, [getFolder] of the parent path returns that
    folder. *)
Theorem getParentPath_segments (path : string) :
  segments (getParentPath path) =
    (if Boolean (last (split path) EmptyString)
     then removelast (segments path)
     else segments path) /\
  forall v pn,
    Boolean (last (split path) EmptyString) = true ->
    getParentFolderAndName v path = Return pn ->
    getFolder v (getParentPath path) = Return (parentFolder pn).
Proof.
  split; [apply segments_getParentPath|].
  intros v pn Hlast Hpn. apply getParentFolderAndName_inv in Hpn as [Hs Hwalk].
  rewrite getFolder_eq, segments_getParentPath, Hlast, Hs, removelast_last, Hwalk.
  now destruct pn as [[pl d] n].
Qed.

(** When the action of the Save dialog returns, the action of the Open
    dialog for the same path returns the saved content and leaves the store
    as it is. The next dialog then starts in the folder that holds the file
    when the path names one, and nowhere ([undefined]) for a file at top
    level; for a path that ends in a slash it starts at the path of the
    file itself. *)
Theorem save_then_open (store store' : Store) (content path : string) :
  save_action store content path = Return store' ->
  open_action store' path = Return (content, store') /\
  currentPath (lastVisitedPath store') (fileSystemAtom_read (fileSystem store')) =
    if Boolean (last (split path) EmptyString)
    then match removelast (segments path) with
         | [] => None
         | _ => Some (getParentPath path)
         end
    else Some (getParentPath path).
Proof.
  unfold save_action, fileSystemAtom_write. simpl.
  set (fs := fileSystemAtom_read (fileSystem store)).
  destruct (outcome (createOrUpdateFile fs path (Some content) None))
    as [fs1|e] eqn:Hsave; [|discriminate].
  simpl. intros [= <-]. unfold open_action. simpl.
  rewrite read_fileSystemAtom.
  destruct (createOrUpdateFile_resolves _ _ _ _ _ Hsave) as [[pn Hpn] Hread].
  simpl in Hread. rewrite Hread. simpl. split; [reflexivity|].
  apply getParentFolderAndName_inv in Hpn as [Hsegments Hwalk].
  pose proof (segments_getParentPath path) as Hparent.
  assert (Hexists : exists_ fs1 path = true).
  { unfold exists_. rewrite readFile_getItem in Hread.
    destruct (getItem fs1 path) as [[[f|d]| |]|]; try discriminate.
    reflexivity. }
  destruct (Boolean (last (split path) EmptyString)).
  - rewrite Hsegments, removelast_last in Hparent.
    rewrite Hsegments, removelast_last.
    destruct (place (parentFolder pn)) as [|part rest] eqn:Hplace.
    + assert (H : exists_ fs1 (getParentPath path) = false).
      { unfold exists_. now rewrite getItem_read, Hparent. }
      rewrite H. now rewrite andb_false_r.
    + destruct (operations_are_local fs fs1
                  (CreateOrUpdateFile path (Some content) None) Hsave
                  (getParentPath path)) as [_ Hlocal].
      { intros below. simpl. rewrite Hparent, Hsegments.
        intros H. apply (f_equal (@length string)) in H.
        rewrite !length_app in H. simpl in H. lia. }
      rewrite Hlocal.
      rewrite (exists_folder fs (getParentPath path)
                 (value (parentFolder pn))), Boolean_segments;
        rewrite ?Hparent; try discriminate; [reflexivity|exact Hwalk].
  - rewrite (exists_same_segments fs1 _ _ Hparent), Hexists, Boolean_segments.
    + reflexivity.
    + rewrite Hparent, Hsegments. now destruct (place (parentFolder pn)).
Qed.

Lemma save_then_open_witness :
  exists store',
    save_action {| fileSystem := {| stored_root := root vfs_folder |};
                   lastVisitedPath := None |}
      "text" "/folder/notes.txt" = Return store' /\
    open_action store' "/folder/notes.txt" = Return ("text", store') /\
    currentPath (lastVisitedPath store') (fileSystemAtom_read (fileSystem store')) =
      Some "/folder".
Proof.
  eexists. split; [reflexivity|].
  apply (save_then_open
           {| fileSystem := {| stored_root := root vfs_folder |};
              lastVisitedPath := None |} _ "text" "/folder/notes.txt").
  reflexivity.
Defined.

(** ** A folder and what is done inside it *)

(** Deleting a folder undoes its creation and everything done inside it
    since: when [createFolder] returns for a path, with a metaData that has
    no truthy [isSystem], and any operations on paths inside the new folder
    follow, [delete] of the path returns the snapshot that [createFolder]
    was called on. *)
Theorem deleting_a_new_folder_undoes_what_was_done_inside
    (v a b : VirtualFileSystem) (path : string)
    (metaData : option MetaData) (ops : list Operation) :
  outcome (createFolder v path metaData) = Return a ->
  truthy_property (get (default [] metaData) "isSystem") = false ->
  Forall (inside path) ops ->
  run ops a = Return b ->
  outcome (delete b path) = Return v.
Proof. apply delete_after_run_inside. Qed.

Lemma deleting_a_new_folder_undoes_what_was_done_inside_witness :
  exists a b,
    outcome (createFolder vfs_x "docs" None) = Return a /\
    run [ CreateFile "docs/a.txt" (Some "1") None;
          CreateFolder "docs/sub" None;
          UpdateFile "docs/a.txt" "2" None;
          CreateOrUpdateFile "docs/sub/b.txt" None None;
          Delete "docs/a.txt" ] a = Return b /\
    outcome (delete b "docs") = Return vfs_x.
Proof.
  eexists. eexists. split; [vm_compute; reflexivity|].
  split; [vm_compute; reflexivity|].
  eapply (deleting_a_new_folder_undoes_what_was_done_inside vfs_x _ _ "docs" None
           [ CreateFile "docs/a.txt" (Some "1") None;
             CreateFolder "docs/sub" None;
             UpdateFile "docs/a.txt" "2" None;
             CreateOrUpdateFile "docs/sub/b.txt" None None;
             Delete "docs/a.txt" ]).
  - vm_compute. reflexivity.
  - reflexivity.
  - repeat constructor.
    + exists ["a.txt"]. split; [discriminate|reflexivity].
    + exists ["sub"]. split; [discriminate|reflexivity].
    + exists ["a.txt"]. split; [discriminate|reflexivity].
    + exists ["sub"; "b.txt"]. split; [discriminate|reflexivity].
    + exists ["a.txt"]. split; [discriminate|reflexivity].
  - vm_compute. reflexivity.
Defined.

(** ** Programs *)

(** REMOVE_PROGRAM undoes ADD_PROGRAM: when the reducer returns for
    ADD_PROGRAM, REMOVE_PROGRAM with the id of the payload, on the file
    system that was returned, gives back the file system before the
    program was added. *)
Theorem remove_program_undoes_add_program
    (JSON_stringify : PlainObject Value -> string)
    (JSON_parse : string -> Result Value)
    (fs fs1 : VirtualFileSystem) (payload : ProgramPayload) :
  programsReducer JSON_stringify JSON_parse fs (ADD_PROGRAM payload) = Return fs1 ->
  programsReducer JSON_stringify JSON_parse fs1
    (REMOVE_PROGRAM (program_id payload)) =
  Return fs.
Proof.
  unfold programsReducer.
  set (path := (PROGRAMS_PATH ++ "/" ++ program_id payload)%string).
  intros Hadd. cbn [run invoke] in Hadd.
  destruct (outcome (createFolder fs path None)) as [a|] eqn:Hcreate;
    [|discriminate].
  apply (delete_after_run_inside fs a fs1 path None _ Hcreate eq_refl
           (programs_inside JSON_stringify payload)).
  exact Hadd.
Qed.

Lemma remove_program_undoes_add_program_witness :
  exists fs fs1,
    createDefaultFileSystem = Return fs /\
    programsReducer (fun _ => "{}") (fun _ => Return (object [])) fs
      (ADD_PROGRAM {| program_id := "paint"; program_name := "Paint";
                      program_code := None; program_rest := [] |}) =
      Return fs1 /\
    programsReducer (fun _ => "{}") (fun _ => Return (object [])) fs1 (REMOVE_PROGRAM "paint") = Return fs.
Proof.
  eexists. eexists. split; [vm_compute; reflexivity|].
  split; [vm_compute; reflexivity|].
  eapply (remove_program_undoes_add_program (fun _ => "{}")
            (fun _ => Return (object [])) _ _
           {| program_id := "paint"; program_name := "Paint";
              program_code := None; program_rest := [] |}).
  vm_compute. reflexivity.
Defined.

(** A program that was added is listed, under its id: when the reducer
    returns for ADD_PROGRAM with an id that is one segment, the folder
    of the program is among the items that [programsAtom] reads at
    /system/programs, and [getProgramEntry] makes of it the parsed
    main.exe with [id] and [name] both set to the id of the payload (the
    name of the payload is not stored) and [code] set to the code of the
    payload, or to the empty string if it had none. It throws if
    [JSON.parse] does. *)
Theorem added_program_is_listed
    (JSON_stringify : PlainObject Value -> string)
    (JSON_parse : string -> Result Value)
    (fs fs1 : VirtualFileSystem) (payload : ProgramPayload) :
  programsReducer JSON_stringify JSON_parse fs (ADD_PROGRAM payload) = Return fs1 ->
  segment (program_id payload) = true ->
  (exists items,
      listItems fs1 (Some PROGRAMS_PATH) = Return items /\
      In (folder (program_folder JSON_stringify payload)) items) /\
  getItem fs1 (PROGRAMS_PATH ++ "/" ++ program_id payload) =
    Return (Own (folder (program_folder JSON_stringify payload))) /\
  getProgramEntry JSON_parse (folder (program_folder JSON_stringify payload)) =
    (config <- JSON_parse (JSON_stringify (program_rest payload)) ;;
     Return (Some {| entry_config := config;
                     entry_id := program_id payload;
                     entry_name := program_id payload;
                     entry_code :=
                       Some (default EmptyString (program_code payload)) |}))%result.
Proof.
  intros Hadd Hid.
  pose proof (add_program_folder _ _ _ _ _ Hadd Hid) as Hwalk.
  split; [|split; [|reflexivity]].
  - rewrite walk_app in Hwalk.
    destruct (walk (root fs1) ["system"; "programs"]) as [programs|] eqn:Hprograms;
      [|discriminate].
    exists (Object_values (folder_items programs)). split.
    + unfold listItems. rewrite getFolder_eq.
      change (segments PROGRAMS_PATH) with ["system"; "programs"].
      now rewrite Hprograms.
    + simpl in Hwalk.
      destruct (get (folder_items programs) (program_id payload))
        as [[f|d]| |] eqn:Hget; try discriminate.
      inversion Hwalk; subst d. apply get_own in Hget.
      apply (own_Object_values _ _ _ _ Hget).
  - rewrite getItem_read.
    destruct (program_paths (program_id payload)) as [Hpath _].
    rewrite Hpath, (segments_segment _ Hid).
    cbv zeta. change (["system"; "programs"] ++ [program_id payload])
      with ["system"; "programs"; program_id payload].
    cbv iota beta.
    now rewrite (read_walk _ _ ["system"; "programs"; program_id payload]
                   ltac:(discriminate) Hwalk).
Qed.

Lemma added_program_is_listed_witness :
  exists fs1,
    programsReducer (fun _ => "{}") (fun _ => Return (object [])) DEFAULT_FILE_SYSTEM
      (ADD_PROGRAM {| program_id := "paint"; program_name := "Paint";
                      program_code := Some "<p>"; program_rest := [] |}) =
      Return fs1 /\
    getItem fs1 "/system/programs/paint" =
      Return (Own (folder (program_folder (fun _ => "{}")
                             {| program_id := "paint"; program_name := "Paint";
                                program_code := Some "<p>";
                                program_rest := [] |}))).
Proof.
  eexists. split; [vm_compute; reflexivity|].
  refine (proj1 (proj2
            (added_program_is_listed (fun _ => "{}")
               (fun _ => Return (object [])) DEFAULT_FILE_SYSTEM _
               {| program_id := "paint"; program_name := "Paint";
                  program_code := Some "<p>"; program_rest := [] |} _ _)));
    vm_compute; reflexivity.
Defined.

(** ** The registry *)


(** Writing the registry replaces the content of the registry file and
    nothing else of it: when /system/registry.reg is a file, the write
    function of [registryAtom] returns, reading the registry afterwards is
    [JSON.parse] of the text that was written, and the file keeps its name
    and its metaData, so a registry file that could not be deleted still
    cannot. *)
Theorem registry_write_keeps_the_file
    (JSON_stringify : PlainObject Value -> string)
    (JSON_parse : string -> Result Value)
    (stored : Stored) (update : PlainObject Value) (f : VirtualFile) :
  getItem (fileSystemAtom_read stored) REGISTRY_PATH = Return (Own (file f)) ->
  exists stored',
    registryAtom_write JSON_stringify stored update = Return stored' /\
    registryAtom_read JSON_parse stored' = JSON_parse (JSON_stringify update) /\
    getItem (fileSystemAtom_read stored') REGISTRY_PATH =
      Return (Own (file {| file_name := file_name f;
                           file_content := JSON_stringify update;
                           file_metaData := file_metaData f |})) /\
    (outcome (delete (fileSystemAtom_read stored) REGISTRY_PATH) =
       Throw (SystemProtected REGISTRY_PATH) ->
     outcome (delete (fileSystemAtom_read stored') REGISTRY_PATH) =
       Throw (SystemProtected REGISTRY_PATH)).
Proof.
  intros Hitem.
  destruct (getFile_getItem _ _ _ Hitem) as [found [Hfile Hvalue]].
  destruct (updateFile_found _ _ (JSON_stringify update) None _ Hfile)
    as [Hupdate [Hread Hitem']].
  rewrite Hvalue in Hitem'. simpl in Hitem'.
  set (fs := fileSystemAtom_read stored) in *.
  set (fs' := updated fs found (JSON_stringify update) None) in *.
  exists {| stored_root := toJSON fs' |}.
  unfold registryAtom_write, registryAtom_read. fold fs.
  rewrite Hupdate, read_fileSystemAtom, Hread. simpl.
  repeat split; [exact Hitem'|].
  rewrite !delete_eq. simpl. unfold getItem in Hitem, Hitem'.
  destruct (getParentFolderAndName fs REGISTRY_PATH) as [pn|]; [|discriminate].
  destruct (getParentFolderAndName fs' REGISTRY_PATH) as [pn'|]; [|discriminate].
  simpl in Hitem, Hitem'. inversion Hitem as [Hi]. inversion Hitem' as [Hi'].
  rewrite Hi, Hi'. unfold isSystem. simpl.
  now destruct (truthy_property (get (file_metaData f) "isSystem")).
Qed.

Lemma registry_write_keeps_the_file_witness :
  exists stored',
    registryAtom_write (fun _ => "{}") initial_Stored [] = Return stored' /\
    outcome (delete (fileSystemAtom_read stored') REGISTRY_PATH) =
      Throw (SystemProtected REGISTRY_PATH).
Proof.
  destruct (registry_write_keeps_the_file (fun _ => "{}")
              (fun _ => Return (object [])) initial_Stored []
              {| file_name := "registry.reg"; file_content := "{}";
                 file_metaData := metadata |} eq_refl)
    as [stored' [Hwrite [_ [_ Hdelete]]]].
  exists stored'. split; [exact Hwrite|]. apply Hdelete.
  vm_compute. reflexivity.
Defined.

(** ** What an update leaves alone *)

(** [updateFile] changes no name and no type: when it returns, [exists]
    answers at every path as before, and [listItems] lists at every path
    items of the same names and types as before, in the same order, or
    throws as before. *)
Theorem updateFile_keeps_names_and_types
    (v v1 : VirtualFileSystem) (path content : string)
    (metaData : option MetaData) :
  outcome (updateFile v path content metaData) = Return v1 ->
  forall other,
    exists_ v1 other = exists_ v other /\
    labels (listItems v1 (Some other)) = labels (listItems v (Some other)).
Proof.
  intros Hupdate. apply walks_alike_readers.
  exact (updateFile_walks_alike _ _ _ _ _ Hupdate).
Qed.

Lemma updateFile_keeps_names_and_types_witness :
  exists v1,
    outcome (updateFile vfs_folder "folder/file1.txt" "new" (Some [])) =
      Return v1 /\
    exists_ v1 "folder/file2.txt" = exists_ vfs_folder "folder/file2.txt" /\
    labels (listItems v1 (Some "folder")) =
      labels (listItems vfs_folder (Some "folder")).
Proof.
  eexists. split; [vm_compute; reflexivity|].
  split; eapply (updateFile_keeps_names_and_types vfs_folder _
                   "folder/file1.txt" "new" (Some []));
    vm_compute; reflexivity.
Defined.

(** ** The programs that are read *)

(** The programs that [programsAtom] reads are the folders under
    /system/programs that hold a file main.exe, in the order [listItems]
    gives them: when the read returns, the ids of the entries are the names
    of these folders, the name of every entry is its id, and its code is
    the content of the file index.html of the folder, or [null] without
    one. Files and folders without main.exe give no entry. *)
Theorem programs_are_the_folders_with_main_exe
    (JSON_parse : string -> Result Value)
    (fs : VirtualFileSystem) (entries : list ProgramEntry) :
  programsAtom_read JSON_parse fs = Return entries ->
  exists items,
    listItems fs (Some PROGRAMS_PATH) = Return items /\
    map entry_id entries = map name (filter is_program items) /\
    map entry_name entries = map entry_id entries /\
    map entry_code entries = map code_of (filter is_program items).
Proof.
  unfold programsAtom_read.
  destruct (listItems fs (Some PROGRAMS_PATH)) as [items|]; [|discriminate].
  simpl. intros H. exists items.
  destruct (program_entries_programs _ _ _ H) as [Hid [Hname Hcode]].
  repeat split; congruence.
Qed.

Lemma programs_are_the_folders_with_main_exe_witness :
  exists fs1 entries,
    programsReducer (fun _ => "{}") (fun _ => Return (object [])) DEFAULT_FILE_SYSTEM
      (ADD_PROGRAM {| program_id := "paint"; program_name := "Paint";
                      program_code := Some "<p>"; program_rest := [] |}) =
      Return fs1 /\
    programsAtom_read (fun _ => Return (object [])) fs1 = Return entries /\
    exists items,
      listItems fs1 (Some PROGRAMS_PATH) = Return items /\
      map entry_id entries = map name (filter is_program items) /\
      map entry_name entries = map entry_id entries /\
      map entry_code entries = map code_of (filter is_program items).
Proof.
  eexists. eexists. split; [vm_compute; reflexivity|].
  split; [vm_compute; reflexivity|].
  apply (programs_are_the_folders_with_main_exe (fun _ => Return (object []))).
  vm_compute. reflexivity.
Defined.



(** ** The list of windows *)

(** REMOVE takes every occurrence of an id out of the list of windows and
    keeps the other ids in their order; removing again changes nothing,
    and a window that is added and then removed leaves the list as it was,
    provided its id was not in the list. *)
Theorem windows_list_remove (state : list string) (id : string) :
  (forall other,
      In other (windowsListReducer state (REMOVE id)) <->
      In other state /\ other <> id) /\
  windowsListReducer (windowsListReducer state (REMOVE id)) (REMOVE id) =
    windowsListReducer state (REMOVE id) /\
  (~ In id state ->
   windowsListReducer (windowsListReducer state (ADD id)) (REMOVE id) = state).
Proof.
  simpl. split; [|split].
  - intros other. rewrite filter_In.
    destruct (String.eqb_spec other id); simpl; intuition congruence.
  - induction state as [|w state IH]; [reflexivity|]. simpl.
    destruct (String.eqb_spec w id) as [->|Hne]; simpl; [exact IH|].
    destruct (String.eqb_spec w id); [contradiction|]. simpl. now rewrite IH.
  - intros Hfresh. rewrite filter_app. simpl. rewrite String.eqb_refl. simpl.
    rewrite app_nil_r.
    induction state as [|w state IH]; [reflexivity|]. simpl.
    destruct (String.eqb_spec w id) as [->|Hne]; simpl.
    + elim Hfresh. now left.
    + rewrite IH; [reflexivity|]. intros H. apply Hfresh. now right.
Qed.

(** ** The invariant of the tree *)

(** The operations keep the tree well-formed: in every snapshot that a run
    of operations returns, starting from a well-formed one (the empty file
    system, the default file system), every item is stored under its own
    name, every name is a non-empty string without a slash, and no folder
    has a name twice. *)
Theorem operations_keep_the_tree_well_formed
    (ops : list Operation) (v v2 : VirtualFileSystem) :
  well_formed v = true ->
  run ops v = Return v2 ->
  well_formed v2 = true.
Proof. apply run_well_formed. Qed.

Lemma operations_keep_the_tree_well_formed_witness :
  well_formed (new_VirtualFileSystem None) = true /\
  well_formed DEFAULT_FILE_SYSTEM = true.
Proof.
  split; [reflexivity|].
  apply (operations_keep_the_tree_well_formed
           [ CreateFolder SYSTEM_PATH (Some metadata);
             CreateFolder PROGRAMS_PATH (Some metadata);
             CreateFolder USER_PATH (Some metadata);
             CreateFile REGISTRY_PATH (Some "{}") (Some metadata) ]
           (new_VirtualFileSystem None)).
  - reflexivity.
  - vm_compute. reflexivity.
Defined.

(** What a listing shows can be fetched by its name: in a well-formed
    snapshot, for every item that [listItems] returns at a path, [getItem]
    at that path followed by a slash and the name of the item returns the
    item, and [exists] is true there. *)
Theorem listed_items_are_found_by_name
    (v : VirtualFileSystem) (dir : string)
    (items : list VirtualItem) (item : VirtualItem) :
  well_formed v = true ->
  listItems v (Some dir) = Return items ->
  In item items ->
  getItem v (dir ++ "/" ++ name item) = Return (Own item) /\
  exists_ v (dir ++ "/" ++ name item) = true.
Proof.
  intros Hv Hlist Hin. unfold listItems in Hlist. rewrite getFolder_eq in Hlist.
  destruct (walk (root v) (segments dir)) as [found|] eqn:Hwalk; [|discriminate].
  simpl in Hlist. inversion Hlist; subst items; clear Hlist.
  pose proof (well_formed_walk _ _ _ Hv Hwalk) as Hfound.
  unfold Object_values in Hin. apply in_map_iff in Hin as [[key x] [Hx Hin]].
  simpl in Hx. subst x.
  apply (Permutation_in _ (Object_entries_perm _ _)) in Hin.
  apply (entries_ok_In _ _ _ _ Hfound) in Hin.
  destruct (entries_ok_own _ _ _ _ Hfound Hin) as [Hname [Hsegment _]].
  assert (Hitem : getItem v (dir ++ "/" ++ name item) = Return (Own item)).
  { unfold getItem.
    rewrite (getParentFolderAndName_segments v _ (segments dir) key).
    - rewrite Hwalk. simpl. unfold item_of. simpl. f_equal. now apply get_own.
    - change (dir ++ "/" ++ name item)%string
        with (dir ++ String slash (name item))%string.
      now rewrite segments_app_slash, Hname, (segments_segment _ Hsegment). }
  split; [exact Hitem|]. unfold exists_. now rewrite Hitem.
Qed.

Lemma listed_items_are_found_by_name_witness :
  getItem vfs_folder "folder/file2.txt" =
    Return (Own (file {| file_name := "file2.txt"; file_content := "Content 2";
                         file_metaData := [] |})) /\
  exists_ vfs_folder "folder/file2.txt" = true.
Proof.
  apply (listed_items_are_found_by_name vfs_folder "folder"
           (Object_values (folder_items two_files))
           (file {| file_name := "file2.txt"; file_content := "Content 2";
                    file_metaData := [] |})).
  - reflexivity.
  - reflexivity.
  - right. left. reflexivity.
Defined.
